(** * Exploration data checker: scanners and validators

    A shallow embedding of the validation core of the exploration data
    checker ([modules/file_scanner.py], [modules/curve_validator.py],
    [modules/seismic_2d_validator.py], [modules/seismic_3d_validator.py])
    together with the properties its design document states about it.

    Conventions of the embedding:
    - Python [str] values are [string]s; [upper]/[lower] act on the ASCII
      letters and leave every other character unchanged.
    - Python [float] and NumPy [float64] values are IEEE-754 binary64
      numbers ([PrimFloat.float]); comparisons and arithmetic are the
      primitive ones, so NaN, infinities and signed zeros behave as in the
      interpreter.
    - Python [int]s are [Z].
    - A call that may raise returns a [result]; [try]/[except Exception]
      is a [match] on it.
    - Python [dict]s with string keys are [gmap string _]; the user-editable
      curve configuration, whose iteration order is the insertion order, is an
      association list with pairwise distinct keys.
    - The third-party objects (the [os] module, lasio and segyio handles) are
      records of the accessors the code uses. *)

From Stdlib Require Import Reals Rgeom.
From Stdlib Require Import ZArith List String Ascii Bool Lia Floats DecimalString.
From stdpp Require Import gmap strings list.

Open Scope Z_scope.

(** ** Python runtime *)

Module Py.

(** An instance of [Exception]; the payload is what [str(e)] returns. *)
Inductive exn : Type := Exn (msg : string).

Definition str_exn (e : exn) : string := let 'Exn m := e in m.

Inductive result (A : Type) : Type :=
| Ok (a : A)
| Raise (e : exn).
Arguments Ok {A} a.
Arguments Raise {A} e.

#[global] Instance result_ret : MRet result := fun _ a => Ok a.
#[global] Instance result_bind : MBind result := fun _ _ f m =>
  match m with
  | Ok a => f a
  | Raise e => Raise e
  end.

Definition is_Ok {A} (r : result A) : Prop := exists a, r = Ok a.

(** [for x in xs: f(x)] collecting the values, stopping at the first raise. *)
Fixpoint for_each {A B} (f : A -> result B) (xs : list A) : result (list B) :=
  match xs with
  | [] => Ok []
  | x :: rest =>
      match f x with
      | Raise e => Raise e
      | Ok y =>
          match for_each f rest with
          | Raise e => Raise e
          | Ok ys => Ok (y :: ys)
          end
      end
  end.

(** *** Strings *)

(** [s.upper()] and [s.lower()] on ASCII text: the letters a-z and A-Z are
    mapped and every other character is left as it is.  On other text the
    maps of the interpreter follow Unicode and do more; the upper-case form
    of a character can then be several characters, and the upper-case form
    of a lower-case form need not be the upper-case form. *)
Definition upper_ascii (c : ascii) : ascii :=
  let n := nat_of_ascii c in
  if (97 <=? n)%nat && (n <=? 122)%nat then ascii_of_nat (n - 32) else c.

Definition lower_ascii (c : ascii) : ascii :=
  let n := nat_of_ascii c in
  if (65 <=? n)%nat && (n <=? 90)%nat then ascii_of_nat (n + 32) else c.

Fixpoint upper (s : string) : string :=
  match s with
  | EmptyString => EmptyString
  | String c t => String (upper_ascii c) (upper t)
  end.

Fixpoint lower (s : string) : string :=
  match s with
  | EmptyString => EmptyString
  | String c t => String (lower_ascii c) (lower t)
  end.

(** [needle in hay] *)
Fixpoint contains (needle hay : string) : bool :=
  if String.prefix needle hay then true
  else match hay with
       | EmptyString => false
       | String _ t => contains needle t
       end.

(** [s.endswith(suffix)] *)
Definition endswith (s suffix : string) : bool :=
  String.prefix (String.rev suffix) (String.rev s).

(** Truth value of a [str]: only the empty string is false. *)
Definition truthy_str (s : string) : bool :=
  match s with
  | EmptyString => false
  | String _ _ => true
  end.

(** [str(n)] for an [int]. *)
Definition str_of_Z (n : Z) : string := NilZero.string_of_int (Z.to_int n).

(** *** Floating point *)

(** [float(n)]: the binary64 number nearest to the integer [n]. *)
Definition float_of_Z (n : Z) : float :=
  SF2Prim (binary_normalize prec emax n 0 false).

(** [a / b] for two [int]s with [b] nonzero.  Python rounds the exact
    quotient once; for operands below [2^53], which both convert exactly,
    that is the IEEE quotient of the two conversions. *)
Definition int_truediv (a b : Z) : float :=
  (float_of_Z a / float_of_Z b)%float.

(** [int(x)]: truncation toward zero; [ValueError] on NaN and
    [OverflowError] on an infinity. *)
Definition int_of_float (x : float) : result Z :=
  match Prim2SF x with
  | S754_zero _ => Ok 0
  | S754_finite s m e =>
      let a := match e with
               | Zneg p => Z.shiftr (Zpos m) (Zpos p)
               | _ => Z.shiftl (Zpos m) e
               end in
      Ok (if s then - a else a)
  | S754_nan => Raise (Exn "cannot convert float NaN to integer")
  | S754_infinity _ => Raise (Exn "cannot convert float infinity to integer")
  end.

(** [round(x)] with no digits argument: the nearest integer, ties to the
    even one.  The code never calls it; the design document does. *)
Definition round_of_float (x : float) : result Z :=
  match Prim2SF x with
  | S754_zero _ => Ok 0
  | S754_finite s m e =>
      let a := match e with
               | Zneg p =>
                   let den := Z.shiftl 1 (Zpos p) in
                   let q := Zpos m / den in
                   let r := Zpos m mod den in
                   if (den <? 2 * r) || ((den =? 2 * r) && Z.odd q)
                   then q + 1 else q
               | _ => Z.shiftl (Zpos m) e
               end in
      Ok (if s then - a else a)
  | S754_nan => Raise (Exn "cannot convert float NaN to integer")
  | S754_infinity _ => Raise (Exn "cannot convert float infinity to integer")
  end.

(** The shape of the binary64 number a positive integer below [2^53]
    converts to: a 53-bit mantissa [m] and an exponent [e] with [m * 2^e]
    the integer. *)
Definition encodes (n : Z) (m : positive) (e : Z) : Prop :=
  2 ^ 52 <= Zpos m < 2 ^ 53 /\ -52 <= e <= 0 /\ Zpos m = n * 2 ^ (- e).

(** A binary64 number in the interval (0, 1]: a 53-bit mantissa with an
    exponent of at most -53, or exactly one. *)
Definition unit_fraction (m : positive) (e : Z) : Prop :=
  2 ^ 52 <= Zpos m < 2 ^ 53 /\ -106 <= e
  /\ (e <= -53 \/ (e = -52 /\ Zpos m = 2 ^ 52)).

(** [np.isnan(x)] *)
Definition isnan (x : float) : bool := negb (x =? x)%float.

(** [np.nanmin] and [np.nanmax] of a one-dimensional array: NaNs are
    skipped, an all-NaN array gives NaN (with a warning), an empty one
    raises [ValueError].  Two zeros of opposite sign compare as equal, and
    which of them the reduction of NumPy returns is not fixed; here it is
    the one met first.  The properties of the reported ranges are stated
    for either choice. *)
Definition fmin (a x : float) : float :=
  if isnan a then x else if isnan x then a
  else if (x <? a)%float then x else a.

Definition fmax (a x : float) : float :=
  if isnan a then x else if isnan x then a
  else if (a <? x)%float then x else a.

Definition nanmin (xs : list float) : result float :=
  match xs with
  | [] => Raise (Exn "zero-size array to reduction operation fmin which has no identity")
  | x :: rest => Ok (fold_left fmin rest x)
  end.

Definition nanmax (xs : list float) : result float :=
  match xs with
  | [] => Raise (Exn "zero-size array to reduction operation fmax which has no identity")
  | x :: rest => Ok (fold_left fmax rest x)
  end.

(** [f"{x:.<d>f}"]: the exact binary value rounded to [d] decimals, ties
    to even. *)
Fixpoint zeros (n : nat) : string :=
  match n with
  | O => EmptyString
  | S k => String "0" (zeros k)
  end.

Definition fixed_point (d : nat) (q : Z) : string :=
  let ds := str_of_Z q in
  let ds := zeros (S d - String.length ds) +:+ ds in
  let k := (String.length ds - d)%nat in
  match d with
  | O => ds
  | _ => String.substring 0 k ds +:+ "." +:+ String.substring k d ds
  end.

Definition format_f (d : nat) (x : float) : string :=
  match Prim2SF x with
  | S754_nan => "nan"
  | S754_infinity s => if s then "-inf" else "inf"
  | S754_zero s => (if s then "-" else EmptyString) +:+ fixed_point d 0
  | S754_finite s m e =>
      let scale := 10 ^ Z.of_nat d in
      let '(num, den) :=
        match e with
        | Zneg p => (Zpos m * scale, Z.shiftl 1 (Zpos p))
        | _ => (Z.shiftl (Zpos m) e * scale, 1)
        end in
      let q := num / den in
      let r := num mod den in
      let q := if (den <? 2 * r) || ((den =? 2 * r) && Z.odd q)
               then q + 1 else q in
      (if s then "-" else EmptyString) +:+ fixed_point d q
  end.

End Py.

Import Py.

(** ** File discovery ([modules/file_scanner.py]) *)

Module FileScanner.

(** The part of the [os] module the scanners call.  [walk root] is the list
    of [(dirpath, dirnames, filenames)] triples that [os.walk(root)]
    yields. *)
Record OS : Type := {
  isdir : string -> bool;
  walk : string -> list (string * list string * list string);
  path_join : string -> string -> string
}.

(** [LASFileScanner]; [SEGYFileScanner] has the same attributes, its list
    being [segy_files]. *)
Record Scanner : Type := {
  root_folder : string;
  filter_text : string;
  filter_enabled : bool;
  found_files : list string
}.

(** [__init__(self, root_folder, filter_text='', filter_enabled=False)] *)
Definition init (root text : string) (enabled : bool) : Scanner :=
  {| root_folder := root; filter_text := text; filter_enabled := enabled;
     found_files := [] |}.

Definition set_found (self : Scanner) (fs : list string) : Scanner :=
  {| root_folder := root_folder self; filter_text := filter_text self;
     filter_enabled := filter_enabled self; found_files := fs |}.

Definition is_las (filename : string) : bool :=
  endswith (lower filename) ".las".

Definition is_segy (filename : string) : bool :=
  endswith (lower filename) ".sgy" || endswith (lower filename) ".segy".

(** The body of the inner loop: [true] when the [continue] is taken. *)
Definition filtered_out (self : Scanner) (filename : string) : bool :=
  if filter_enabled self && truthy_str (filter_text self)
  then negb (contains (upper (filter_text self)) (upper filename))
  else false.

(** One pass of the two nested loops, for a given extension test. *)
Definition scan_walk (os : OS) (self : Scanner) (ext : string -> bool)
  : list string :=
  flat_map
    (fun '(dirpath, _, filenames) =>
       flat_map
         (fun filename =>
            if ext filename then
              if filtered_out self filename then []
              else [path_join os dirpath filename]
            else [])
         filenames)
    (walk os (root_folder self)).

(** The method returns the new state of the scanner and the returned list. *)
Definition find_all_las_files (os : OS) (self : Scanner)
  : Scanner * list string :=
  let self := set_found self [] in
  if negb (isdir os (root_folder self)) then (self, [])
  else
    let files := scan_walk os self is_las in
    (set_found self files, files).

Definition find_all_segy_files (os : OS) (self : Scanner)
  : Scanner * list string :=
  let self := set_found self [] in
  if negb (isdir os (root_folder self)) then (self, [])
  else
    let files := scan_walk os self is_segy in
    (set_found self files, files).

(** Every file under the root whose name passes the extension test. *)
Definition all_matching (os : OS) (root : string) (ext : string -> bool)
  : list string :=
  flat_map
    (fun '(dirpath, _, filenames) =>
       map (path_join os dirpath) (List.filter ext filenames))
    (walk os root).

(** A POSIX [os.path.join] restricted to a relative second component, and a
    one-directory tree holding three files. *)
Definition posix_join (a b : string) : string :=
  if truthy_str a && negb (endswith a "/") then a +:+ "/" +:+ b else a +:+ b.

Definition sample_os : OS := {|
  isdir := fun p => String.eqb p "/data";
  walk := fun p =>
    if String.eqb p "/data"
    then [("/data", [], ["well_A.las"; "notes.txt"; "line_7.SGY"])]
    else [];
  path_join := posix_join
|}.

End FileScanner.

(** ** Well-log curve validation ([modules/curve_validator.py]) *)

Module CurveValidator.

(** A curve object of a lasio file.  [mnemonic] is the outcome of
    [c.mnemonic.upper] up to the case conversion: it raises when the
    attribute is missing or is not a [str].  [unit] is [None] when the curve
    has no such attribute. *)
Record Curve : Type := {
  mnemonic : result string;
  unit : option string
}.

(** A lasio file object, by the three accesses the validator makes. *)
Record LasHandle : Type := {
  (** iterating [las.curves] *)
  curves : result (list Curve);
  (** [np.array(las[name], dtype=float)] *)
  getitem : string -> result (list float);
  (** [las.curves[name]] *)
  curves_getitem : string -> result Curve
}.

(** One entry of the curve configuration. *)
Record CurveInfo : Type := {
  aliases : list string;
  description : string
}.

Record CurveValidator : Type := {
  curve_config : list (string * CurveInfo);
  null_value : float
}.

(** [__init__(self, curve_config, null_value=-999.25)] with the default. *)
Definition init (config : list (string * CurveInfo)) : CurveValidator :=
  {| curve_config := config; null_value := (-999.25)%float |}.

Definition update_config (self : CurveValidator)
  (new_config : list (string * CurveInfo)) : CurveValidator :=
  {| curve_config := new_config; null_value := null_value self |}.

Record ValidationResult : Type := {
  status : string;
  reason : string
}.

Record DetailedInfo : Type := {
  found : bool;
  d_mnemonic : string;
  d_min : string;
  d_max : string;
  percent_filled : string;
  d_unit : string;
  d_description : string
}.

(** [{c.mnemonic.upper(): c for c in las.curves}] *)
Definition available_curves (las : LasHandle) : result (gmap string Curve) :=
  cs ← curves las;
  entries ← for_each (fun c => m ← mnemonic c; Ok (upper m, c)) cs;
  Ok (fold_left (fun d '(k, c) => <[k := c]> d) entries ∅).

(** The file has a curve whose mnemonic, in upper case, is [k]. *)
Definition has_mnemonic (las : LasHandle) (k : string) : Prop :=
  exists cs c m, curves las = Ok cs /\ In c cs /\ mnemonic c = Ok m
                 /\ upper m = k.

(** Iterating [las.curves] and reading every mnemonic succeed. *)
Definition curves_readable (las : LasHandle) : Prop :=
  exists cs, curves las = Ok cs /\ Forall (fun c => is_Ok (mnemonic c)) cs.

Fixpoint _find_curve_alias (aliases : list string)
  (available : gmap string Curve) : option string :=
  match aliases with
  | [] => None
  | alias :: rest =>
      if decide (is_Some (available !! upper alias)) then Some (upper alias)
      else _find_curve_alias rest available
  end.

(** [if not found_alias]: [None] and the empty string are both false. *)
Definition resolved (found_alias : option string) : option string :=
  match found_alias with
  | Some a => if truthy_str a then Some a else None
  | None => None
  end.

(** [data[data != self.null_value]] *)
Definition valid_samples (self : CurveValidator) (data : list float)
  : list float :=
  List.filter (fun x => negb (x =? null_value self)%float) data.

Definition _validate_curve_data (self : CurveValidator) (las : LasHandle)
  (curve_name : string) (curve_info : CurveInfo) : bool * string :=
  let body : result (bool * string) :=
    data ← getitem las curve_name;
    let valid_data := valid_samples self data in
    if (length valid_data =? 0)%nat then Ok (false, "No valid data")
    else
      min_val ← nanmin valid_data;
      max_val ← nanmax valid_data;
      Ok (true, "Valid (" +:+ format_f 2 min_val +:+ "-"
                  +:+ format_f 2 max_val +:+ ")")
  in
  match body with
  | Ok r => r
  | Raise e => (false, "Error: " +:+ str_exn e)
  end.

(** The body of the loop of [validate_las_file] for one configured key. *)
Definition validate_entry (self : CurveValidator) (las : LasHandle)
  (available : gmap string Curve) (info : CurveInfo) : ValidationResult :=
  match resolved (_find_curve_alias (aliases info) available) with
  | None => {| status := "N"; reason := "Not found" |}
  | Some found_alias =>
      let '(is_valid, reason) :=
        _validate_curve_data self las found_alias info in
      {| status := if is_valid then "Y" else "N"; reason := reason |}
  end.

Definition validate_las_file (self : CurveValidator) (las : LasHandle)
  : result (gmap string ValidationResult) :=
  available ← available_curves las;
  Ok (fold_left
        (fun results '(key, info) =>
           <[key := validate_entry self las available info]> results)
        (curve_config self) ∅).

(** [(valid_points / total_points * 100) if total_points > 0 else 0] *)
Definition percent_of (valid_points total_points : Z) : float :=
  if 0 <? total_points
  then (int_truediv valid_points total_points * 100)%float
  else 0%float.

Definition detail_entry (self : CurveValidator) (las : LasHandle)
  (available : gmap string Curve) (info : CurveInfo) : DetailedInfo :=
  match resolved (_find_curve_alias (aliases info) available) with
  | None =>
      {| found := false; d_mnemonic := "N/A"; d_min := "N/A"; d_max := "N/A";
         percent_filled := "N/A"; d_unit := "N/A";
         d_description := description info |}
  | Some found_alias =>
      let body : result DetailedInfo :=
        data ← getitem las found_alias;
        let valid_data := valid_samples self data in
        let total_points := Z.of_nat (length data) in
        let valid_points := Z.of_nat (length valid_data) in
        let percent := percent_of valid_points total_points in
        min_val ← (if (0 <? length valid_data)%nat
                   then x ← nanmin valid_data; Ok (Some x) else Ok None);
        max_val ← (if (0 <? length valid_data)%nat
                   then x ← nanmax valid_data; Ok (Some x) else Ok None);
        curve_obj ← curves_getitem las found_alias;
        let unit := match unit curve_obj with
                    | Some u => if truthy_str u then u else "N/A"
                    | None => "N/A"
                    end in
        Ok {| found := true; d_mnemonic := found_alias;
              d_min := match min_val with
                       | Some x => format_f 4 x | None => "N/A" end;
              d_max := match max_val with
                       | Some x => format_f 4 x | None => "N/A" end;
              percent_filled := format_f 2 percent;
              d_unit := unit;
              d_description := description info |}
      in
      match body with
      | Ok r => r
      | Raise _ =>
          {| found := true; d_mnemonic := found_alias; d_min := "Error";
             d_max := "Error"; percent_filled := "Error"; d_unit := "N/A";
             d_description := description info |}
      end
  end.

Definition get_detailed_curve_info (self : CurveValidator) (las : LasHandle)
  : result (gmap string DetailedInfo) :=
  available ← available_curves las;
  Ok (fold_left
        (fun detailed_info '(key, info) =>
           <[key := detail_entry self las available info]> detailed_info)
        (curve_config self) ∅).

End CurveValidator.

(** ** SEG-Y handles and NumPy helpers shared by the seismic validators *)

Module Segy.

Inductive BinField : Type :=
| Format | Interval | SortingCode | MeasurementSystem | Samples.

Inductive TraceField : Type :=
| CDP | FieldRecord | CDP_X | CDP_Y | SourceX | SourceY | GroupX | GroupY
| INLINE_3D | CROSSLINE_3D.

(** A segyio file object, by the accesses the validators make.  Each access
    that can raise is a [result]; a trace is its array of samples, and a
    trace header is the function from its fields to their integer values
    (what both [h[field]] and [h.get(field, 0)] return). *)
Record SegyHandle : Type := {
  (** [segy._filename], when the attribute exists *)
  filename : option string;
  (** [segy.bin[field]] *)
  bin : BinField -> result Z;
  (** [segy.tracecount] *)
  tracecount : result Z;
  (** [segy.samples.size] *)
  samples_size : result Z;
  (** [segy.header[i]] *)
  header : Z -> result (TraceField -> Z);
  (** [segy.trace[i]] *)
  trace : Z -> result (list float);
  (** [str(segy.format)] *)
  format : result string
}.

(** [np.all(trace == 0)] *)
Definition all_zero (trace : list float) : bool :=
  forallb (fun x => (x =? 0)%float) trace.

(** [np.all(np.isnan(trace))] *)
Definition all_nan (trace : list float) : bool :=
  forallb isnan trace.

(** The cast of [astype(int)]: truncation; a NaN or an infinity becomes the
    least 64-bit integer. *)
Definition astype_int (x : float) : Z :=
  match int_of_float x with
  | Ok z => z
  | Raise _ => - 2 ^ 63
  end.

(** [np.linspace(0, stop, num, dtype=int)]: the samples are
    [i * (stop / (num - 1))] computed in binary64, the last one is set to
    [stop], and all are then truncated. *)
Definition linspace_int (stop num : Z) : list Z :=
  if num <=? 0 then []
  else
    let delta := float_of_Z stop in
    let div := num - 1 in
    let scaled (i : Z) : float :=
      if 0 <? div then
        let step := (delta / float_of_Z div)%float in
        if (step =? 0)%float
        then (float_of_Z i / float_of_Z div * delta)%float
        else (float_of_Z i * step)%float
      else (float_of_Z i * delta)%float in
    map (fun i =>
           if (1 <? num) && (i =? num - 1) then astype_int delta
           else astype_int (scaled i + 0)%float)
        (seqZ 0 num).

(** [range(0, n, step)] for a positive [step]. *)
Definition range_step (n step : Z) : list Z :=
  map (fun k => k * step) (seqZ 0 ((n + step - 1) / step)).

(** Two's-complement wrap-around of a 64-bit NumPy integer. *)
Definition wrap64 (z : Z) : Z := (z + 2 ^ 63) mod 2 ^ 64 - 2 ^ 63.

(** [np.sum] of a one-dimensional [float64] array: NumPy's pairwise
    summation.  Fewer than eight elements are added left to right; up to 128
    are added in eight interleaved partial sums; longer arrays are split in
    two. *)
Definition sum_small (a : list float) : float :=
  fold_left (fun r x => (r + x)%float) a 0%float.

Fixpoint add_lanes (r : list float) (a : list float) : list float :=
  match r, a with
  | x :: r', y :: a' => (x + y)%float :: add_lanes r' a'
  | _, _ => r
  end.

Fixpoint sum_lanes (blocks : nat) (r a : list float) : list float * list float :=
  match blocks with
  | O => (r, a)
  | S k => sum_lanes k (add_lanes r a) (drop 8 a)
  end.

Definition sum_block (a : list float) : float :=
  let n := length a in
  let '(r, rest) := sum_lanes (n / 8 - 1) (take 8 a) (drop 8 a) in
  match r with
  | [r0; r1; r2; r3; r4; r5; r6; r7] =>
      fold_left (fun acc x => (acc + x)%float) rest
        (((r0 + r1) + (r2 + r3)) + ((r4 + r5) + (r6 + r7)))%float
  | _ => sum_small a
  end.

Fixpoint pairwise_sum (fuel : nat) (a : list float) : float :=
  let n := length a in
  if (n <? 8)%nat then sum_small a
  else if (n <=? 128)%nat then sum_block a
  else
    match fuel with
    | O => sum_block a
    | S k =>
        let n2 := (n / 2 - (n / 2) mod 8)%nat in
        (pairwise_sum k (take n2 a) + pairwise_sum k (drop n2 a))%float
    end.

Definition np_sum (a : list float) : float :=
  (0 + pairwise_sum (length a) a)%float.

(** [_get_format_short], the same table in both validators. *)
Definition _get_format_short (format_code : Z) : string :=
  match format_code with
  | 1 => "IBM Float"
  | 2 => "4-byte Int"
  | 3 => "2-byte Int"
  | 5 => "IEEE Float"
  | 8 => "1-byte Int"
  | _ => "Code " +:+ str_of_Z format_code
  end.

(** [_get_sorting_description], the same table in both validators. *)
Definition _get_sorting_description (sorting_code : Z) : string :=
  match sorting_code with
  | -1 => "Other"
  | 0 => "Unknown"
  | 1 => "As recorded (no sorting)"
  | 2 => "CDP ensemble"
  | 3 => "Single fold continuous profile"
  | 4 => "Horizontally stacked"
  | 5 => "Common source point"
  | 6 => "Common receiver point"
  | 7 => "Common offset point"
  | 8 => "Common mid-point"
  | 9 => "Common conversion point"
  | _ => "Unknown (" +:+ str_of_Z sorting_code +:+ ")"
  end.

End Segy.

Import Segy.

(** ** 2D seismic validation ([modules/seismic_2d_validator.py]) *)

Module Seismic2D.

(** The three candidate coordinate pairs, in the order they are probed. *)
Definition coord_candidates : list (TraceField * TraceField) :=
  [(CDP_X, CDP_Y); (SourceX, SourceY); (GroupX, GroupY)].

(** [(x != 0 or y != 0) and not np.isnan(x) and not np.isnan(y)] on the two
    integers of a header: an integer is never NaN. *)
Definition valid_coord (x y : Z) : bool :=
  negb (x =? 0) || negb (y =? 0).

(** The inner probing loop over the first [min(50, tracecount)] headers. *)
Definition probe (segy : SegyHandle) (n : Z) (fields : TraceField * TraceField)
  : result (list (Z * Z)) :=
  hs ← for_each (header segy) (seqZ 0 (Z.min 50 n));
  Ok (List.filter (fun '(x, y) => valid_coord x y)
        (map (fun h => (h (fst fields), h (snd fields))) hs)).

(** The detection loop with its [break]. *)
Fixpoint choose_fields (segy : SegyHandle) (n : Z)
  (candidates : list (TraceField * TraceField))
  : result (option (TraceField * TraceField)) :=
  match candidates with
  | [] => Ok None
  | fields :: rest =>
      sample_check ← probe segy n fields;
      if (5 <? length sample_check)%nat then Ok (Some fields)
      else choose_fields segy n rest
  end.

(** The coordinates collected over the evenly spaced sample of headers. *)
Definition collect_coords (segy : SegyHandle) (n : Z)
  (fields : TraceField * TraceField) : result (list (Z * Z)) :=
  let sample_size := Z.min 200 n in
  let indices := linspace_int (n - 1) sample_size in
  hs ← for_each (header segy) indices;
  Ok (List.filter (fun '(x, y) => valid_coord x y)
        (map (fun h => (h (fst fields), h (snd fields))) hs)).

(** [np.sqrt] of a Python [int]: the integer becomes an [int64] or a
    [uint64] when it fits, and the call raises [TypeError] when it does not. *)
Definition np_sqrt_int (z : Z) : result float :=
  if (- 2 ^ 63 <=? z) && (z <? 2 ^ 64) then Ok (PrimFloat.sqrt (float_of_Z z))
  else Raise (Exn "loop of ufunc does not support argument 0 of type int which has no callable sqrt method").

(** [np.sqrt(np.sum(np.diff(coords, axis=0) ** 2, axis=1))]: the array of
    coordinates is an [int64] array, whose arithmetic wraps around. *)
Fixpoint segment_lengths (coords : list (Z * Z)) : list float :=
  match coords with
  | (x1, y1) :: ((x2, y2) :: _) as rest =>
      let dx := wrap64 (x2 - x1) in
      let dy := wrap64 (y2 - y1) in
      PrimFloat.sqrt (float_of_Z (wrap64 (wrap64 (dx * dx) + wrap64 (dy * dy))))
      :: segment_lengths rest
  | _ => []
  end.

Definition classify_shape (sinuosity : float) : string :=
  if (sinuosity <? 0x1.0cccccccccccdp+0)%float then "Straight"      (* 1.05 *)
  else if (sinuosity <? 0x1.3333333333333p+0)%float then "Nearly Straight" (* 1.2 *)
  else if (sinuosity <? 1.5)%float then "Curved"
  else "Highly Curved".

(** [all(v[i] <= v[i + 1] for i in range(len(v) - 1))] *)
Fixpoint non_decreasing (v : list Z) : bool :=
  match v with
  | a :: (b :: _) as rest => (a <=? b) && non_decreasing rest
  | _ => true
  end.

Fixpoint non_increasing (v : list Z) : bool :=
  match v with
  | a :: (b :: _) as rest => (b <=? a) && non_increasing rest
  | _ => true
  end.

Definition classify_order (coords : list (Z * Z)) : string :=
  let x_coords := map fst coords in
  let y_coords := map snd coords in
  if non_decreasing x_coords || non_increasing x_coords
     || non_decreasing y_coords || non_increasing y_coords
  then "Sequential" else "Irregular".

(** The numbers computed from a coordinate sample of at least two points. *)
Record Geometry : Type := {
  straight_dist : float;
  total_length : float;
  sinuosity : float;
  shape : string;
  order : string
}.

Definition geometry_of_coords (coords : list (Z * Z)) : result Geometry :=
  let '(x0, y0) := hd (0, 0) coords in
  let '(xl, yl) := List.last coords (0, 0) in
  straight_dist ← np_sqrt_int ((xl - x0) ^ 2 + (yl - y0) ^ 2);
  let total_length := np_sum (segment_lengths coords) in
  let sinuosity :=
    if (0 <? straight_dist)%float
    then (total_length / straight_dist)%float else 1%float in
  Ok {| straight_dist := straight_dist; total_length := total_length;
        sinuosity := sinuosity; shape := classify_shape sinuosity;
        order := classify_order coords |}.

(** The mapping [_calculate_line_geometry] returns. *)
Record LineGeometry : Type := {
  g_straight_distance : string;
  g_total_length : string;
  g_sinuosity : string;
  g_shape : string;
  g_order : string
}.

Definition _calculate_line_geometry (segy : SegyHandle) : LineGeometry :=
  let body : result LineGeometry :=
    n ← tracecount segy;
    chosen_fields ← choose_fields segy n coord_candidates;
    match chosen_fields with
    | None =>
        Ok {| g_straight_distance := "No coordinates found";
              g_total_length := "No coordinates found";
              g_sinuosity := "N/A"; g_shape := "Unknown";
              g_order := "Unknown" |}
    | Some fields =>
        coords ← collect_coords segy n fields;
        if (length coords <? 2)%nat then
          Ok {| g_straight_distance := "Insufficient coordinates";
                g_total_length := "Insufficient coordinates";
                g_sinuosity := "N/A"; g_shape := "Unknown";
                g_order := "Unknown" |}
        else
          g ← geometry_of_coords coords;
          Ok {| g_straight_distance := format_f 2 (straight_dist g);
                g_total_length := format_f 3 (total_length g / 1000)%float;
                g_sinuosity := format_f 3 (sinuosity g);
                g_shape := shape g;
                g_order := order g |}
    end
  in
  match body with
  | Ok r => r
  | Raise _ =>
      {| g_straight_distance := "Error"; g_total_length := "Error";
         g_sinuosity := "Error"; g_shape := "Error"; g_order := "Error" |}
  end.

(** The mapping [_get_binary_header_info] returns. *)
Record BinaryInfo : Type := {
  b_binary : string;
  b_format_code : string;
  b_sorting : string;
  b_endian : string;
  b_measurement_system : string
}.

Definition detect_endian (segy : SegyHandle) : string :=
  match bin segy Interval with
  | Ok interval =>
      if (100 <=? interval) && (interval <=? 100000) then "Little Endian"
      else "Big Endian (possible)"
  | Raise _ => "Unknown"
  end.

Definition measurement_system (segy : SegyHandle) : string :=
  match bin segy MeasurementSystem with
  | Ok 1 => "Meters"
  | Ok 2 => "Feet"
  | Ok meas_system => "Unknown (" +:+ str_of_Z meas_system +:+ ")"
  | Raise _ => "Unknown"
  end.

Definition _get_binary_header_info (segy : SegyHandle) : BinaryInfo :=
  let body : result BinaryInfo :=
    format_code ← bin segy Format;
    sorting_code ← bin segy SortingCode;
    let endian := detect_endian segy in
    let measurement := measurement_system segy in
    Ok {| b_binary := "SEG-Y Rev 1";
          b_format_code := str_of_Z format_code +:+ " ("
                           +:+ _get_format_short format_code +:+ ")";
          b_sorting := _get_sorting_description sorting_code;
          b_endian := endian;
          b_measurement_system := measurement |}
  in
  match body with
  | Ok r => r
  | Raise _ =>
      {| b_binary := "Error"; b_format_code := "Error"; b_sorting := "Error";
         b_endian := "Error"; b_measurement_system := "Error" |}
  end.

Definition _get_format_description (format_code : Z) : string :=
  match format_code with
  | 1 => "4-byte IBM floating-point"
  | 2 => "4-byte signed integer"
  | 3 => "2-byte signed integer"
  | 5 => "4-byte IEEE floating-point"
  | 8 => "1-byte signed integer"
  | _ => "Unknown (" +:+ str_of_Z format_code +:+ ")"
  end.

Definition _get_cdp_range (segy : SegyHandle) : string :=
  let body : result string :=
    first ← header segy 0;
    n ← tracecount segy;
    last ← header segy (n - 1);
    if (first CDP =? 0) && (last CDP =? 0)
    then Ok (str_of_Z (first FieldRecord) +:+ " - "
             +:+ str_of_Z (last FieldRecord))
    else Ok (str_of_Z (first CDP) +:+ " - " +:+ str_of_Z (last CDP))
  in
  match body with
  | Ok r => r
  | Raise _ => "N/A"
  end.

Section NullTraces.

(** [np.std] of a trace, a NumPy reduction whose rounding depends on the
    sample type of the file; the validator only compares its result with
    [1e-10]. *)
Variable np_std : list float -> float.

(** The test of the sampling loop of [_analyze_null_traces]. *)
Definition is_dead (trace : list float) : bool :=
  all_zero trace || all_nan trace
  || (np_std trace <? 0x1.b7cdfd9d7bdbbp-34)%float.          (* 1e-10 *)

(** The traces read by the sampling loop. *)
Definition sampled_traces (segy : SegyHandle) (n : Z) (sample_size : Z)
  : result (list (list float)) :=
  let trace_count := Z.min sample_size n in
  for_each (trace segy) (linspace_int (n - 1) trace_count).

(** [int((null_count / trace_count) * tracecount)] *)
Definition estimate (null_count trace_count n : Z) : result Z :=
  if trace_count =? 0 then Raise (Exn "division by zero")
  else int_of_float (int_truediv null_count trace_count * float_of_Z n)%float.

(** The mapping [_analyze_null_traces] returns: [count] and [percent]. *)
Definition _analyze_null_traces (segy : SegyHandle) : Z * float :=
  let sample_size := 100 in
  let body : result (Z * float) :=
    n ← tracecount segy;
    let trace_count := Z.min sample_size n in
    traces ← sampled_traces segy n sample_size;
    let null_count := Z.of_nat (length (List.filter is_dead traces)) in
    estimated_null ← estimate null_count trace_count n;
    let null_percent :=
      if 0 <? n then (int_truediv estimated_null n * 100)%float
      else 0%float in
    Ok (estimated_null, null_percent)
  in
  match body with
  | Ok r => r
  | Raise _ => (0, 0%float)
  end.

(** The statistics methods whose numerical content (moments, the Fourier
    transform, clipping counts) is outside this development.  Each of them
    wraps its whole body in [try]/[except] and returns a mapping with the
    same keys on both paths, so each is a total function of the handle. *)
Record Statistics : Type := {
  _extract_line_name : SegyHandle -> string;
  (** [x_range], [y_range] *)
  _get_coordinate_range : SegyHandle -> string * string;
  (** [min], [max], [rms] *)
  _calculate_amplitude_stats : SegyHandle -> float * float * float;
  (** [nyquist], [dominant] *)
  _calculate_frequency_metrics : SegyHandle -> float -> float * float;
  _check_trace_length_uniformity : SegyHandle -> string;
  _detect_clipping : SegyHandle -> float * float * float -> string;
  (** [average], [min], [max] *)
  _calculate_trace_spacing : SegyHandle -> string * string * string;
  (** [std_dev], [mean], [skewness], [kurtosis], [snr] *)
  _calculate_signal_statistics :
    SegyHandle -> float * float * float * float * float
}.

Variable stats : Statistics.

(** The body of the [try] of [get_comprehensive_info] threads the mapping
    under construction; a raise leaves the keys already written in place. *)
Definition Try (A : Type) : Type :=
  gmap string string -> gmap string string * result A.

Definition set_key (k v : string) : Try () :=
  fun info => (<[k := v]> info, Ok ()).

Definition access {A} (r : result A) : Try A := fun info => (info, r).

Definition and_then {A B} (m : Try A) (f : A -> Try B) : Try B :=
  fun info =>
    match m info with
    | (info', Ok a) => f a info'
    | (info', Raise e) => (info', Raise e)
    end.

Notation "x <~ m ;; k" := (and_then m (fun x => k))
  (at level 100, m at next level, right associativity).
Notation "m ;;; k" := (and_then m (fun _ => k))
  (at level 100, right associativity).

Definition basename_or_na (segy : SegyHandle) (basename : string -> string)
  : string :=
  match filename segy with
  | Some f => basename f
  | None => "N/A"
  end.

Definition comprehensive_body (basename : string -> string)
  (segy : SegyHandle) : Try () :=
  set_key "Filename" (basename_or_na segy basename) ;;;
  set_key "Line Name" (_extract_line_name stats segy) ;;;
  format_code <~ access (bin segy Format) ;;
  set_key "Format" (_get_format_description format_code) ;;;
  n <~ access (tracecount segy) ;;
  set_key "Trace Count" (str_of_Z n) ;;;
  size <~ access (samples_size segy) ;;
  set_key "Samples per Trace" (str_of_Z size) ;;;
  raw_interval <~ access (bin segy Interval) ;;
  let interval := (float_of_Z raw_interval / 1000)%float in
  set_key "Sample Interval (ms)" (format_f 3 interval) ;;;
  set_key "CDP Range" (_get_cdp_range segy) ;;;
  let coord_info := _get_coordinate_range stats segy in
  set_key "Coordinate Range X" (fst coord_info) ;;;
  set_key "Coordinate Range Y" (snd coord_info) ;;;
  let amp_stats := _calculate_amplitude_stats stats segy in
  let '(amp_min, amp_max, amp_rms) := amp_stats in
  set_key "Amplitude Range"
    (format_f 4 amp_min +:+ " to " +:+ format_f 4 amp_max) ;;;
  set_key "RMS Amplitude" (format_f 4 amp_rms) ;;;
  let freq_info := _calculate_frequency_metrics stats segy interval in
  set_key "Nyquist Frequency" (format_f 2 (fst freq_info) +:+ " Hz") ;;;
  set_key "Dominant Frequency" (format_f 2 (snd freq_info) +:+ " Hz") ;;;
  let null_info := _analyze_null_traces segy in
  set_key "Null/Dead Traces"
    (str_of_Z (fst null_info) +:+ " (" +:+ format_f 2 (snd null_info)
     +:+ "%)") ;;;
  set_key "Trace Length Uniformity"
    (_check_trace_length_uniformity stats segy) ;;;
  set_key "Clipping Detected" (_detect_clipping stats segy amp_stats) ;;;
  let '(sp_average, sp_min, sp_max) := _calculate_trace_spacing stats segy in
  set_key "Average Trace Spacing (m)" sp_average ;;;
  set_key "Min Trace Spacing (m)" sp_min ;;;
  set_key "Max Trace Spacing (m)" sp_max ;;;
  let geometry_info := _calculate_line_geometry segy in
  set_key "Straight Line Distance (m)" (g_straight_distance geometry_info) ;;;
  set_key "Est. Total Line Length (km)" (g_total_length geometry_info) ;;;
  set_key "Line Sinuosity" (g_sinuosity geometry_info) ;;;
  set_key "Line Shape" (g_shape geometry_info) ;;;
  set_key "Coordinate Order" (g_order geometry_info) ;;;
  let binary_info := _get_binary_header_info segy in
  set_key "Binary" (b_binary binary_info) ;;;
  set_key "Format Code" (b_format_code binary_info) ;;;
  set_key "Trace Sorting" (b_sorting binary_info) ;;;
  set_key "Endian Type" (b_endian binary_info) ;;;
  set_key "Measurement System" (b_measurement_system binary_info) ;;;
  let '(std_dev, mean, skewness, kurtosis, snr) :=
    _calculate_signal_statistics stats segy in
  set_key "Signal Std Dev" (format_f 4 std_dev) ;;;
  set_key "Signal Mean" (format_f 4 mean) ;;;
  set_key "Skewness" (format_f 4 skewness) ;;;
  set_key "Kurtosis" (format_f 4 kurtosis) ;;;
  set_key "Est. SNR (dB)" (format_f 2 snr).

Definition get_comprehensive_info (basename : string -> string)
  (segy : SegyHandle) : gmap string string :=
  match comprehensive_body basename segy ∅ with
  | (info, Ok _) => info
  | (info, Raise e) =>
      <["Error" := "Error extracting comprehensive info: " +:+ str_exn e]> info
  end.

End NullTraces.

(** The first of the four unguarded accesses of [get_comprehensive_info]
    that raises, if any. *)
Definition first_raise (segy : SegyHandle) : option exn :=
  match bin segy Format with
  | Raise e => Some e
  | Ok _ =>
      match tracecount segy with
      | Raise e => Some e
      | Ok _ =>
          match samples_size segy with
          | Raise e => Some e
          | Ok _ =>
              match bin segy Interval with
              | Raise e => Some e
              | Ok _ => None
              end
          end
      end
  end.

End Seismic2D.

(** ** 3D seismic validation ([modules/seismic_3d_validator.py]) *)

Module Seismic3D.

(** The sampling loop shared by [_extract_signal_info] and
    [_extract_trace_quality]: every [step]-th trace, at most [sample_size]
    of them. *)
Definition sample_indices (n_traces sample_size : Z) : result (list Z) :=
  if sample_size =? 0 then Raise (Exn "integer division or modulo by zero")
  else
    let step := Z.max 1 (n_traces / sample_size) in
    Ok (take (Z.to_nat sample_size) (range_step n_traces step)).

(** [np.array(traces)] followed by a reduction along axis 1: the rows must
    have one length, or there is no second axis to reduce along. *)
Definition as_matrix (traces : list (list float)) : result (list (list float)) :=
  match traces with
  | [] => Raise (Exn "axis 1 is out of bounds for array of dimension 1")
  | t :: rest =>
      if forallb (fun r => (length r =? length t)%nat) rest then Ok traces
      else Raise (Exn "setting an array element with a sequence")
  end.

(** The row test of [np.all(traces == 0, axis=1)]. *)
Definition is_zero_trace (trace : list float) : bool := all_zero trace.

(** [int((zero_traces / len(traces)) * n_traces)]; dividing a NumPy integer
    gives a [float64] and does not raise. *)
Definition estimate (zero_traces sampled n_traces : Z) : result Z :=
  int_of_float (int_truediv zero_traces sampled * float_of_Z n_traces)%float.

Definition _extract_trace_quality (segy : SegyHandle) : gmap string string :=
  let body : result (gmap string string) :=
    n_traces ← tracecount segy;
    let sample_size := Z.min 100 n_traces in
    indices ← sample_indices n_traces sample_size;
    traces ← for_each (trace segy) indices;
    traces ← as_matrix traces;
    let zero_traces := Z.of_nat (length (List.filter is_zero_trace traces)) in
    estimated_null ← estimate zero_traces (Z.of_nat (length traces)) n_traces;
    Ok (<["Valid Traces" := str_of_Z (n_traces - estimated_null)]>
          (<["Null/Dead Traces" := str_of_Z estimated_null]> ∅))
  in
  match body with
  | Ok info => info
  | Raise e => <["Trace Quality Error" := str_exn e]> ∅
  end.

(** The test of the loop of [_count_null_traces]. *)
Definition is_null_trace (trace : list float) : bool :=
  all_zero trace || all_nan trace.

Definition _count_null_traces (segy : SegyHandle) : Z :=
  let sample_size := 50 in
  let body : result Z :=
    n ← tracecount segy;
    let trace_count := Z.min sample_size n in
    step ← (if trace_count =? 0
            then Raise (Exn "integer division or modulo by zero")
            else Ok (Z.max 1 (n / trace_count)));
    traces ← for_each (trace segy) (range_step n step);
    let null_count := Z.of_nat (length (List.filter is_null_trace traces)) in
    let sampled_count := Z.of_nat (length traces) in
    if 0 <? sampled_count
    then int_of_float (int_truediv null_count sampled_count * float_of_Z n)%float
    else Ok 0
  in
  match body with
  | Ok r => r
  | Raise _ => 0
  end.

Definition sorting (segy : SegyHandle) : string :=
  match bin segy SortingCode with
  | Ok sorting_code => _get_sorting_description sorting_code
  | Raise _ => "Not available"
  end.

Definition measurement_system (segy : SegyHandle) : string :=
  match bin segy MeasurementSystem with
  | Ok 1 => "Meters"
  | Ok 2 => "Feet"
  | Ok meas_system => "Unknown (" +:+ str_of_Z meas_system +:+ ")"
  | Raise _ => "Not available"
  end.

Definition _extract_binary_header (segy : SegyHandle) : gmap string string :=
  match format segy with
  | Ok format_code =>
      <["Measurement System" := measurement_system segy]>
        (<["Endian Type" := "Big Endian (SEG-Y standard)"]>
           (<["Trace Sorting" := sorting segy]>
              (<["Binary Format Code" := format_code]> ∅)))
  | Raise e => <["Binary Header Error" := str_exn e]> ∅
  end.

End Seismic3D.

(** ** Line geometry in exact arithmetic *)

Module ExactGeometry.

(** The formulas of the line geometry read over the real numbers: the
    Euclidean distance of two coordinate pairs, the sum of the distances of
    consecutive pairs, and their quotient. *)
Definition distance (p q : Z * Z) : R :=
  Rgeom.dist_euc (IZR (fst p)) (IZR (snd p)) (IZR (fst q)) (IZR (snd q)).

Fixpoint path_length (coords : list (Z * Z)) : R :=
  match coords with
  | p :: (q :: _) as rest => (distance p q + path_length rest)%R
  | _ => 0%R
  end.

Definition straight_distance (coords : list (Z * Z)) : R :=
  distance (hd (0, 0) coords) (List.last coords (0, 0)).

Definition sinuosity (coords : list (Z * Z)) : R :=
  if Rlt_dec 0 (straight_distance coords)
  then (path_length coords / straight_distance coords)%R
  else 1%R.

End ExactGeometry.

(** ** Sample inputs *)

Module Samples.

Import CurveValidator.

(** A configuration with three logical curves. *)
Definition config : list (string * CurveInfo) :=
  [("RES", {| aliases := ["RD"; "RT"]; description := "Deep resistivity" |});
   ("GR", {| aliases := ["GR"; "GRC"]; description := "Gamma ray" |});
   ("CALI", {| aliases := ["CALI"]; description := "Caliper" |})].

(** A file with the curves RT, RD and GR: RD has three measurements and one
    null sample, GR is all null. *)
Definition las : LasHandle := {|
  curves := Ok [ {| mnemonic := Ok "RT"; unit := Some "ohm.m" |};
                 {| mnemonic := Ok "RD"; unit := Some "ohm.m" |};
                 {| mnemonic := Ok "GR"; unit := Some "gAPI" |} ];
  getitem := fun name =>
    if String.eqb name "RD" then Ok [1.5; -999.25; 0.125; 20]%float
    else if String.eqb name "RT" then Ok [2; 3]%float
    else if String.eqb name "GR" then Ok [-999.25; -999.25]%float
    else Raise (Exn name);
  curves_getitem := fun name =>
    if String.eqb name "RD" then Ok {| mnemonic := Ok "RD"; unit := Some "ohm.m" |}
    else if String.eqb name "RT" then Ok {| mnemonic := Ok "RT"; unit := Some "ohm.m" |}
    else if String.eqb name "GR" then Ok {| mnemonic := Ok "GR"; unit := Some "gAPI" |}
    else Raise (Exn name)
|}.

(** The mapping from upper-case mnemonics to curves built for [las]. *)
Definition available : gmap string Curve :=
  <["GR" := {| mnemonic := Ok "GR"; unit := Some "gAPI" |}]>
    (<["RD" := {| mnemonic := Ok "RD"; unit := Some "ohm.m" |}]>
       (<["RT" := {| mnemonic := Ok "RT"; unit := Some "ohm.m" |}]> ∅)).

(** The same file with a gamma-ray curve of two NaN samples. *)
Definition las_nan : LasHandle := {|
  curves := curves las;
  getitem := fun name =>
    if String.eqb name "GR" then Ok [nan; nan]%float else getitem las name;
  curves_getitem := curves_getitem las
|}.

(** The same file with a deep-resistivity curve of 20000 samples, the last
    of which is null. *)
Definition las_one_null : LasHandle := {|
  curves := curves las;
  getitem := fun name =>
    if String.eqb name "RD"
    then Ok (repeat 1%float (Z.to_nat 19999) ++ [(-999.25)%float])
    else getitem las name;
  curves_getitem := curves_getitem las
|}.

(** An object without a [curves] attribute. *)
Definition las_without_curves : LasHandle := {|
  curves := Raise (Exn "object has no attribute 'curves'");
  getitem := fun name => Raise (Exn name);
  curves_getitem := fun name => Raise (Exn name)
|}.

(** A 2D line of six traces whose CDP coordinates lie on the diagonal
    (3,3), (6,6), ..., (18,18); the first two traces are all zero. *)
Definition line6 : SegyHandle := {|
  filename := Some "line6.sgy";
  bin := fun f =>
    match f with
    | Format => Ok 5
    | Interval => Ok 2000
    | SortingCode => Ok 4
    | MeasurementSystem => Ok 1
    | Samples => Ok 3
    end;
  tracecount := Ok 6;
  samples_size := Ok 3;
  header := fun i =>
    Ok (fun f => match f with CDP_X | CDP_Y => 3 * (i + 1) | _ => 0 end);
  trace := fun i => Ok (if i <? 2 then [0; 0; 0]%float else [1; 2; 3]%float);
  format := Ok "5"
|}.

(** A volume of 125 traces whose first three traces are all zero. *)
Definition volume125 : SegyHandle := {|
  filename := Some "volume125.sgy";
  bin := bin line6;
  tracecount := Ok 125;
  samples_size := Ok 3;
  header := fun i =>
    Ok (fun f => match f with INLINE_3D => 1 + i / 25
                            | CROSSLINE_3D => 1 + i mod 25
                            | _ => 0 end);
  trace := fun i => Ok (if i <? 3 then [0; 0; 0]%float else [1; 2; 3]%float);
  format := Ok "5"
|}.


(** A handle none of whose accesses succeeds. *)
Definition closed_file : SegyHandle := {|
  filename := None;
  bin := fun _ => Raise (Exn "I/O operation on closed file");
  tracecount := Raise (Exn "I/O operation on closed file");
  samples_size := Raise (Exn "I/O operation on closed file");
  header := fun _ => Raise (Exn "I/O operation on closed file");
  trace := fun _ => Raise (Exn "I/O operation on closed file");
  format := Raise (Exn "I/O operation on closed file")
|}.

(** Stand-ins for the statistics outside this development: the values the
    methods return on their [except] paths. *)
Definition stats : Seismic2D.Statistics := {|
  Seismic2D._extract_line_name := fun _ => "N/A";
  Seismic2D._get_coordinate_range := fun _ => ("Error", "Error");
  Seismic2D._calculate_amplitude_stats := fun _ => (0, 0, 0)%float;
  Seismic2D._calculate_frequency_metrics := fun _ _ => (0, 0)%float;
  Seismic2D._check_trace_length_uniformity := fun _ => "Error checking uniformity";
  Seismic2D._detect_clipping := fun _ _ => "Error";
  Seismic2D._calculate_trace_spacing := fun _ => ("Error", "Error", "Error");
  Seismic2D._calculate_signal_statistics := fun _ => (0, 0, 0, 0, 0)%float
|}.

(** A standard deviation for short traces: the population formula, summed
    left to right. *)
Definition std (trace : list float) : float :=
  let n := float_of_Z (Z.of_nat (length trace)) in
  let mean := (sum_small trace / n)%float in
  PrimFloat.sqrt
    (sum_small (map (fun x => ((x - mean) * (x - mean))%float) trace) / n).

End Samples.

(** ** What the scanners list *)

Module Listing.

Import FileScanner.

(** [p] is the path of a file below the root folder, an existing directory,
    whose name passes the extension test and, when the filter is enabled
    with a text, holds that text whatever the case of the letters. *)
Definition listed (os : OS) (self : Scanner) (ext : string -> bool)
  (p : string) : Prop :=
  isdir os (root_folder self) = true
  /\ exists dirpath dirnames filenames filename,
       In (dirpath, dirnames, filenames) (walk os (root_folder self))
       /\ In filename filenames
       /\ p = path_join os dirpath filename
       /\ ext filename = true
       /\ (filter_enabled self = true -> filter_text self <> EmptyString ->
           contains (upper (filter_text self)) (upper filename) = true).

End Listing.

Module Cases.

Import CurveValidator.

(** A file whose gamma-ray curve is listed but cannot be read, whose
    deep-resistivity curve has data but no curve object, and whose caliper
    curve has no sample. *)
Definition las_faulty : LasHandle := {|
  curves := Ok [ {| mnemonic := Ok "gr"; unit := Some "gAPI" |};
                 {| mnemonic := Ok "RD"; unit := Some "ohm.m" |};
                 {| mnemonic := Ok "CALI"; unit := None |} ];
  getitem := fun name =>
    if String.eqb name "RD" then Ok [1.5; nan; -999.25; 20]%float
    else if String.eqb name "CALI" then Ok []
    else Raise (Exn name);
  curves_getitem := fun name =>
    if String.eqb name "CALI" then Ok {| mnemonic := Ok "CALI"; unit := None |}
    else Raise (Exn name)
|}.

Definition available_faulty : gmap string Curve :=
  <["CALI" := {| mnemonic := Ok "CALI"; unit := None |}]>
    (<["RD" := {| mnemonic := Ok "RD"; unit := Some "ohm.m" |}]>
       (<["GR" := {| mnemonic := Ok "gr"; unit := Some "gAPI" |}]> ∅)).

End Cases.

(** ** 2D seismic validation: trace lengths *)

Module Line2D.

(** [np.linspace(0, stop, num, dtype=int)] with its check of [num]. *)
Definition np_linspace_int (stop num : Z) : result (list Z) :=
  if num <? 0
  then Raise (Exn ("Number of samples, " +:+ str_of_Z num
                   +:+ ", must be non-negative."))
  else Ok (linspace_int stop num).

Definition _check_trace_length_uniformity (segy : SegyHandle) : string :=
  let body : result string :=
    n ← tracecount segy;
    let sample_size := Z.min 10 n in
    indices ← np_linspace_int (n - 1) sample_size;
    traces ← for_each (trace segy) indices;
    let lengths : gset nat := list_to_set (map (@length float) traces) in
    if (size lengths =? 1)%nat then Ok "Uniform"
    else Ok ("Non-uniform (" +:+ str_of_Z (Z.of_nat (size lengths))
             +:+ " different lengths)")
  in
  match body with
  | Ok r => r
  | Raise _ => "Error checking uniformity"
  end.

End Line2D.

Module Cases2D.

(** A line of 49 traces of which only the first is dead. *)
Definition line49 : SegyHandle := {|
  filename := Some "line49.sgy";
  bin := bin Samples.line6;
  tracecount := Ok 49;
  samples_size := Ok 3;
  header := header Samples.line6;
  trace := fun i => Ok (if i <? 1 then [0; 0; 0]%float else [1; 2; 3]%float);
  format := Ok "5"
|}.

End Cases2D.

(** ** More of the Python runtime *)

Module PyLib.

(** [f"{n:,}"]: the digits in groups of three, counted from the right. *)
Fixpoint group_digits (reversed : list ascii) (k : nat) : list ascii :=
  match reversed with
  | [] => []
  | c :: rest =>
      match k with
      | O => ","%char :: c :: group_digits rest 2
      | S k' => c :: group_digits rest k'
      end
  end.

Definition format_thousands (n : Z) : string :=
  let digits := list_ascii_of_string (str_of_Z (Z.abs n)) in
  (if n <? 0 then "-" else EmptyString)
  +:+ string_of_list_ascii (rev (group_digits (rev digits) 3)).

(** The conversion of the [int] operand of a float operation, which
    raises [OverflowError] when the integer is out of the binary64 range. *)
Definition float_of_int (z : Z) : result float :=
  match Prim2SF (float_of_Z z) with
  | S754_infinity _ => Raise (Exn "int too large to convert to float")
  | _ => Ok (float_of_Z z)
  end.

(** [np.min] and [np.max]: a NaN among the elements is the result, and an
    empty array raises [ValueError].  Which of two zeros of opposite sign is
    returned is left open by NumPy; here it is the first. *)
Definition np_minimum (a x : float) : float :=
  if isnan a then a else if isnan x then x
  else if (x <? a)%float then x else a.

Definition np_maximum (a x : float) : float :=
  if isnan a then a else if isnan x then x
  else if (a <? x)%float then x else a.

Definition np_min (xs : list float) : result float :=
  match xs with
  | [] => Raise (Exn "zero-size array to reduction operation minimum which has no identity")
  | x :: rest => Ok (fold_left np_minimum rest x)
  end.

Definition np_max (xs : list float) : result float :=
  match xs with
  | [] => Raise (Exn "zero-size array to reduction operation maximum which has no identity")
  | x :: rest => Ok (fold_left np_maximum rest x)
  end.

(** [trace[::10]] *)
Fixpoint every_nth {A} (skip period : nat) (l : list A) : list A :=
  match l with
  | [] => []
  | x :: rest =>
      match skip with
      | O => x :: every_nth (period - 1) period rest
      | S k => every_nth k period rest
      end
  end.

(** [s.strip()]: the white space of ASCII is removed at both ends. *)
Definition is_space (c : ascii) : bool :=
  let n := nat_of_ascii c in
  ((9 <=? n) && (n <=? 13) || (28 <=? n) && (n <=? 32))%nat.

Fixpoint lstrip (l : list ascii) : list ascii :=
  match l with
  | [] => []
  | c :: t => if is_space c then lstrip t else l
  end.

Definition strip (s : string) : string :=
  string_of_list_ascii
    (rev (lstrip (rev (lstrip (list_ascii_of_string s))))).

End PyLib.

Import PyLib.

(** ** 3D seismic validation: the QC checks *)

Module Volume3D.

(** [format_code in valid_formats] *)
Definition valid_formats : list Z := [1; 2; 3; 5; 8].

Definition _format_check (segy : SegyHandle) : bool * string :=
  match bin segy Format with
  | Ok format_code =>
      if existsb (Z.eqb format_code) valid_formats
      then (true, _get_format_short format_code)
      else (false, "Unknown: " +:+ str_of_Z format_code)
  | Raise _ => (false, "Error")
  end.

Definition _trace_count_check (segy : SegyHandle) : bool * string :=
  match tracecount segy with
  | Ok trace_count =>
      if 0 <? trace_count then
        if 10000 <? trace_count then (true, format_thousands trace_count)
        else (false, format_thousands trace_count +:+ " (low for 3D)")
      else (false, "0")
  | Raise _ => (false, "Error")
  end.

Definition _sample_count_check (segy : SegyHandle) : bool * string :=
  match samples_size segy with
  | Ok sample_count =>
      if 0 <? sample_count then (true, str_of_Z sample_count) else (false, "0")
  | Raise _ => (false, "Error")
  end.

Definition _sample_interval_check (segy : SegyHandle) : bool * string :=
  let body : result (bool * string) :=
    interval ← bin segy Interval;
    x ← float_of_int interval;
    let interval_ms := (x / 1000)%float in
    Ok ((0.5 <=? interval_ms)%float && (interval_ms <=? 10)%float,
        format_f 2 interval_ms +:+ " ms")
  in
  match body with
  | Ok r => r
  | Raise _ => (false, "Error")
  end.

Definition _trace_length_check (segy : SegyHandle) : bool * string :=
  let body : result (bool * string) :=
    interval ← bin segy Interval;
    x ← float_of_int interval;
    let dt := (x / 1000)%float in
    size ← samples_size segy;
    s ← float_of_int (size - 1);
    let trace_length := (s * dt)%float in
    Ok ((1000 <=? trace_length)%float && (trace_length <=? 10000)%float,
        format_f 0 trace_length +:+ " ms")
  in
  match body with
  | Ok r => r
  | Raise _ => (false, "Error")
  end.

(** The sampling loop of [_calculate_amplitude_stats], with its [break]. *)
Fixpoint collect_samples (segy : SegyHandle) (indices : list Z)
  (all_samples : list float) (limit : Z) : result (list float) :=
  match indices with
  | [] => Ok all_samples
  | i :: rest =>
      if limit <=? Z.of_nat (length all_samples) then Ok all_samples
      else
        trace ← trace segy i;
        collect_samples segy rest (all_samples ++ every_nth 0 10 trace) limit
  end.

Definition amplitude_samples (segy : SegyHandle) : result (list float) :=
  let sample_size := 50 in
  n ← tracecount segy;
  let trace_count := Z.min sample_size n in
  step ← (if trace_count =? 0
          then Raise (Exn "integer division or modulo by zero")
          else Ok (Z.max 1 (n / trace_count)));
  collect_samples segy (range_step n step) [] (sample_size * 1000).

(** The [min] and [max] entries of the mapping; the mean and the standard
    deviation, which no check reads, are not part of the model. *)
Definition _calculate_amplitude_stats (segy : SegyHandle) : float * float :=
  let body : result (float * float) :=
    all_samples ← amplitude_samples segy;
    lo ← np_min all_samples;
    hi ← np_max all_samples;
    Ok (lo, hi)
  in
  match body with
  | Ok r => r
  | Raise _ => (0, 0)%float
  end.

(** The statistics never raise, so the [except] branch of the check is
    never taken. *)
Definition _amplitude_check (segy : SegyHandle) : bool * string :=
  let '(lo, hi) := _calculate_amplitude_stats segy in
  if (hi =? 0)%float && (lo =? 0)%float then (false, "All zeros")
  else (true, format_f 1 lo +:+ " to " +:+ format_f 1 hi).

Definition _null_trace_check (segy : SegyHandle) : bool * string :=
  let null_count := Seismic3D._count_null_traces segy in
  match tracecount segy with
  | Ok total_traces =>
      let null_percent :=
        if 0 <? total_traces
        then (int_truediv null_count total_traces * 100)%float
        else 0%float in
      ((null_percent <? 5)%float,
       str_of_Z null_count +:+ " (" +:+ format_f 1 null_percent +:+ "%)")
  | Raise _ => (false, "Error")
  end.

(** The loop of [_geometry_check], with its [break]. *)
Fixpoint geometry_scan (segy : SegyHandle) (indices : list Z)
  (has_inline has_xline : bool) : result (bool * bool) :=
  match indices with
  | [] => Ok (has_inline, has_xline)
  | i :: rest =>
      header ← header segy i;
      let has_inline := has_inline || negb (header INLINE_3D =? 0) in
      let has_xline := has_xline || negb (header CROSSLINE_3D =? 0) in
      if has_inline && has_xline then Ok (has_inline, has_xline)
      else geometry_scan segy rest has_inline has_xline
  end.

Definition _geometry_check (segy : SegyHandle) : bool * string :=
  let body : result (bool * bool) :=
    n ← tracecount segy;
    let sample_size := Z.min 100 n in
    geometry_scan segy (seqZ 0 sample_size) false false
  in
  match body with
  | Ok (has_inline, has_xline) =>
      if has_inline && has_xline then (true, "3D geometry detected")
      else (false, "No 3D geometry info")
  | Raise _ => (false, "Error")
  end.

(** [f"{min(values)}-{max(values)}" if values else "N/A"] *)
Definition range_text (values : list Z) : string :=
  match values with
  | [] => "N/A"
  | v :: rest =>
      str_of_Z (fold_left Z.min rest v) +:+ "-"
      +:+ str_of_Z (fold_left Z.max rest v)
  end.

(** The header indices read by [_get_3d_ranges]. *)
Definition range_indices (n : Z) : result (list Z) :=
  let sample_size := Z.min 1000 n in
  if sample_size =? 0 then Raise (Exn "integer division or modulo by zero")
  else Ok (range_step n (Z.max 1 (n / sample_size))).

Definition nonzero (field : TraceField) (headers : list (TraceField -> Z))
  : list Z :=
  List.filter (fun v => negb (v =? 0)) (map (fun h => h field) headers).

Definition _get_3d_ranges (segy : SegyHandle) : string * string :=
  let body : result (string * string) :=
    n ← tracecount segy;
    indices ← range_indices n;
    headers ← for_each (header segy) indices;
    let inlines := nonzero INLINE_3D headers in
    let xlines := nonzero CROSSLINE_3D headers in
    Ok (range_text inlines, range_text xlines)
  in
  match body with
  | Ok r => r
  | Raise _ => ("N/A", "N/A")
  end.

Definition _inline_check (segy : SegyHandle) : bool * string :=
  let '(inline_range, _) := _get_3d_ranges segy in
  if String.eqb inline_range "N/A" then (false, "Not found")
  else (true, inline_range).

Definition _crossline_check (segy : SegyHandle) : bool * string :=
  let '(_, xline_range) := _get_3d_ranges segy in
  if String.eqb xline_range "N/A" then (false, "Not found")
  else (true, xline_range).

(** The checks in the order of [check_methods]. *)
Definition check_methods : list (string * (SegyHandle -> bool * string)) :=
  [("format", _format_check);
   ("traces", _trace_count_check);
   ("samples", _sample_count_check);
   ("sample_interval", _sample_interval_check);
   ("trace_length", _trace_length_check);
   ("amplitude", _amplitude_check);
   ("null_traces", _null_trace_check);
   ("geometry", _geometry_check);
   ("inline_range", _inline_check);
   ("crossline_range", _crossline_check)].

Definition validate_segy_file (segy : SegyHandle)
  : gmap string CurveValidator.ValidationResult :=
  fold_left
    (fun (results : gmap string CurveValidator.ValidationResult)
         (entry : string * (SegyHandle -> bool * string)) =>
       let '(key, check_method) := entry in
       let '(is_valid, reason) := check_method segy in
       <[key := {| CurveValidator.status := if is_valid then "Y" else "N";
                   CurveValidator.reason := reason |}]> results)
    check_methods ∅.

(** [_extract_survey_name], a function of the outcome of
    [segyio.tools.wrap(segy.text[0])].  The loop runs over the first five
    characters of the text, each a string of length one. *)
Fixpoint survey_line (lines : list string) : string :=
  match lines with
  | [] => "N/A"
  | line :: rest =>
      if contains "SURVEY" (upper line) || contains "3D" (upper line)
      then String.substring 0 40 (strip line)
      else survey_line rest
  end.

Definition _extract_survey_name (text_header : result string) : string :=
  match text_header with
  | Ok text =>
      survey_line
        (map (fun c => String c EmptyString)
           (list_ascii_of_string (String.substring 0 5 text)))
  | Raise _ => "N/A"
  end.

End Volume3D.

(** ** Exhaustive checks *)

Module Enumeration.

(** [f] holds on the [2 ^ k] integers from [lo] on. *)
Fixpoint forall_block (k : nat) (lo : Z) (f : Z -> bool) : bool :=
  match k with
  | O => f lo
  | S k' => forall_block k' lo f && forall_block k' (lo + 2 ^ Z.of_nat k') f
  end.

End Enumeration.

Module Cases3D.

(** A volume with no trace. *)
Definition empty_volume : SegyHandle := {|
  filename := Some "empty.sgy";
  bin := bin Samples.line6;
  tracecount := Ok 0;
  samples_size := Ok 0;
  header := fun _ => Raise (Exn "index out of range");
  trace := fun _ => Raise (Exn "index out of range");
  format := Ok "5"
|}.

(** A volume of four traces whose headers carry a crossline number on the
    first trace only and an inline number from the second trace on. *)
Definition sparse_headers : SegyHandle := {|
  filename := Some "sparse.sgy";
  bin := bin Samples.line6;
  tracecount := Ok 4;
  samples_size := Ok 3;
  header := fun i =>
    Ok (fun f => match f with
                 | INLINE_3D => if i =? 0 then 0 else 10 - i
                 | CROSSLINE_3D => if i =? 0 then 5 else 0
                 | _ => 0
                 end);
  trace := fun i => Ok [0; 0; 0]%float;
  format := Ok "5"
|}.

End Cases3D.

(** ** The well section of a LAS header ([modules/curve_validator.py]) *)

Module WellHeader.

(** The value of a header item: lasio stores [None], a [str], an [int] or a
    [float]. *)
Inductive value : Type :=
| VNone
| VStr (s : string)
| VInt (z : Z)
| VFloat (x : float).

(** An item of the well section: [value] is the outcome of reading the
    attribute, [unit] is [None] when the item has no such attribute. *)
Record HeaderItem : Type := {
  item_value : result value;
  item_unit : option value
}.

(** [las.well]: [hasattr(las.well, field)] holds when the mapping has the
    field.  A file object without a [well] attribute has no section. *)
Definition WellSection : Type := string -> option HeaderItem.

(** The mapping [get_depth_info_from_las] returns. *)
Record DepthInfo : Type := {
  depth_unit : string;
  pd : string;
  epd : string;
  ekb : string;
  egl : string;
  lmf : string;
  elz : string;
  start : string;
  stop : string;
  step : string
}.

Definition all_na : DepthInfo :=
  {| depth_unit := "N/A"; pd := "N/A"; epd := "N/A"; ekb := "N/A"; egl := "N/A";
     lmf := "N/A"; elz := "N/A"; start := "N/A"; stop := "N/A"; step := "N/A" |}.

Definition all_error : DepthInfo :=
  {| depth_unit := "Error"; pd := "Error"; epd := "Error"; ekb := "Error";
     egl := "Error"; lmf := "Error"; elz := "Error"; start := "Error";
     stop := "Error"; step := "Error" |}.

(** Truth value of a header value. *)
Definition truthy (v : value) : bool :=
  match v with
  | VNone => false
  | VStr s => truthy_str s
  | VInt z => negb (z =? 0)
  | VFloat x => negb (x =? 0)%float
  end.

Definition is_none (v : value) : bool :=
  match v with
  | VNone => true
  | _ => false
  end.

Section Conversions.

(** [repr] of a [float], the shortest decimal text that reads back as the
    same number, and the parser of [float(s)] for a [str]: the two
    conversions of the interpreter that this development leaves open. *)
Variable repr_float : float -> string.
Variable float_of_str : string -> result float.

(** [str(v)], also [f"{v:}"] *)
Definition str (v : value) : string :=
  match v with
  | VNone => "None"
  | VStr s => s
  | VInt z => str_of_Z z
  | VFloat x => repr_float x
  end.

(** [f"{v:.2f}"] *)
Definition format_2f (v : value) : result string :=
  match v with
  | VNone => Raise (Exn "unsupported format string passed to NoneType.__format__")
  | VStr _ => Raise (Exn "Unknown format code 'f' for object of type 'str'")
  | VInt z => x ← float_of_int z; Ok (format_f 2 x)
  | VFloat x => Ok (format_f 2 x)
  end.

(** [float(v)] *)
Definition to_float (v : value) : result float :=
  match v with
  | VNone => Raise (Exn "float() argument must be a string or a real number, not 'NoneType'")
  | VStr s => float_of_str s
  | VInt z => float_of_int z
  | VFloat x => Ok x
  end.

(** [value and str(value).strip()], giving the stripped text. *)
Definition usable (v : value) : option string :=
  if truthy v && truthy_str (strip (str v)) then Some (strip (str v)) else None.

(** The loop over the alternative field names. *)
Fixpoint first_name (w : WellSection) (fields : list string)
  : result (option string) :=
  match fields with
  | [] => Ok None
  | field :: rest =>
      match w field with
      | Some item =>
          v ← item_value item;
          match usable v with
          | Some name => Ok (Some name)
          | None => first_name w rest
          end
      | None => first_name w rest
      end
  end.

Definition get_well_name_from_las (las_well : option WellSection) : string :=
  let body : result string :=
    match las_well with
    | None => Ok "N/A"
    | Some w =>
        first ← match w "WELL" with
                | Some item => v ← item_value item; Ok (usable v)
                | None => Ok None
                end;
        match first with
        | Some name => Ok name
        | None =>
            other ← first_name w ["UWI"; "API"; "WELLNAME"; "NAME"];
            Ok (match other with
                | Some name => name
                | None => "N/A"
                end)
        end
    end
  in
  match body with
  | Ok r => r
  | Raise _ => "N/A"
  end.

(** [if hasattr(las.well, F): depth_info[k] = f"{las.well.F.value:.2f}"] *)
Definition formatted (w : WellSection) (field : string) : result string :=
  match w field with
  | Some item => v ← item_value item; format_2f v
  | None => Ok "N/A"
  end.

(** [if hasattr(las.well, F): depth_info[k] = f"{las.well.F.value:}"] *)
Definition plain (w : WellSection) (field : string) : result string :=
  match w field with
  | Some item => v ← item_value item; Ok (str v)
  | None => Ok "N/A"
  end.

(** The value the loop over the alternative fields stops at: that of the
    first field the section has whose value is not [None]. *)
Fixpoint first_value (w : WellSection) (fields : list string)
  : result (option value) :=
  match fields with
  | [] => Ok None
  | field :: rest =>
      match w field with
      | Some item =>
          v ← item_value item;
          if is_none v then first_value w rest else Ok (Some v)
      | None => first_value w rest
      end
  end.

Definition elevation (w : WellSection) (fields : list string) : result string :=
  found ← first_value w fields;
  match found with
  | Some v => x ← to_float v; Ok (format_f 2 x)
  | None => Ok "N/A"
  end.

Definition unit_text (w : WellSection) : string :=
  match w "STRT" with
  | Some item =>
      match item_unit item with
      | Some u => if truthy u then str u else "N/A"
      | None => "N/A"
      end
  | None => "N/A"
  end.

(** The body of the [try], in the order of the assignments. *)
Definition depth_body (w : WellSection) : result DepthInfo :=
  start ← formatted w "STRT";
  stop ← formatted w "STOP";
  step ← formatted w "STEP";
  let depth_unit := unit_text w in
  lmf ← plain w "LMF";
  elz ← elevation w ["ELZ"];
  pd ← plain w "PD";
  epd ← elevation w ["EPD"];
  ekb ← elevation w ["KB"; "EKB"; "EKBD"; "EDF"];
  egl ← elevation w ["GL"; "GLE"; "GLELEV"; "EGL"];
  Ok {| depth_unit := depth_unit; pd := pd; epd := epd; ekb := ekb; egl := egl;
        lmf := lmf; elz := elz; start := start; stop := stop; step := step |}.

Definition get_depth_info_from_las (las_well : option WellSection) : DepthInfo :=
  match las_well with
  | None => all_na
  | Some w =>
      match depth_body w with
      | Ok depth_info => depth_info
      | Raise _ => all_error
      end
  end.

End Conversions.

(** Stand-ins for the two conversions left open: decimal texts are not
    produced, and only the text of zero is read. *)
Definition sample_repr (x : float) : string := "<float>".
Definition sample_parse (s : string) : result float :=
  if String.eqb s "0" then Ok 0%float
  else Raise (Exn ("could not convert string to float: '" +:+ s +:+ "'")).

(** A well section whose WELL value is blank, with a numeric UWI and depth
    items of which KB holds a text that is not a number. *)
Definition sample_well : WellSection := fun field =>
  if String.eqb field "WELL" then
    Some {| item_value := Ok (VStr "   "); item_unit := Some (VStr "") |}
  else if String.eqb field "UWI" then
    Some {| item_value := Ok (VInt 4212345); item_unit := Some (VStr "") |}
  else if String.eqb field "NAME" then
    Some {| item_value := Ok (VStr " Alpha-1 "); item_unit := Some (VStr "") |}
  else if String.eqb field "STRT" then
    Some {| item_value := Ok (VFloat 100.5); item_unit := Some (VStr "M") |}
  else if String.eqb field "KB" then
    Some {| item_value := Ok (VStr "unknown"); item_unit := Some (VStr "M") |}
  else if String.eqb field "EKB" then
    Some {| item_value := Ok (VFloat 25); item_unit := Some (VStr "M") |}
  else None.

End WellHeader.

(** ** The table rows of the seismic validators ([get_basic_info]) *)

Module BasicInfo.

(** A value of the mapping: the counts are stored as [int], all else as
    [str]. *)
Inductive cell : Type :=
| Int (z : Z)
| Str (s : string).

(** The body of a [try] that fills a mapping: a raise leaves the entries
    written so far in place. *)
Definition Build (A : Type) : Type :=
  gmap string cell -> gmap string cell * result A.

Definition set_key (k : string) (v : cell) : Build () :=
  fun info => (<[k := v]> info, Ok ()).

Definition access {A} (r : result A) : Build A := fun info => (info, r).

Definition and_then {A B} (m : Build A) (f : A -> Build B) : Build B :=
  fun info =>
    match m info with
    | (info', Ok a) => f a info'
    | (info', Raise e) => (info', Raise e)
    end.

Notation "x <~ m ;; k" := (and_then m (fun x => k))
  (at level 100, m at next level, right associativity).
Notation "m ;;; k" := (and_then m (fun _ => k))
  (at level 100, right associativity).

Definition finish (r : gmap string cell * result ()) : gmap string cell :=
  match r with
  | (info, Ok _) => info
  | (info, Raise e) => <["error" := Str (str_exn e)]> info
  end.

(** [Seismic2DValidator.get_basic_info]; [line_name] is what
    [_extract_line_name] returns. *)
Definition get_basic_info_2d (basename : string -> string) (line_name : string)
  (segy : SegyHandle) : gmap string cell :=
  finish
    ((set_key "filename" (Str (Seismic2D.basename_or_na segy basename)) ;;;
      set_key "line_name" (Str line_name) ;;;
      trace_count <~ access (tracecount segy) ;;
      set_key "trace_count" (Int trace_count) ;;;
      sample_count <~ access (samples_size segy) ;;
      set_key "sample_count" (Int sample_count) ;;;
      raw_interval <~ access (bin segy Interval) ;;
      x <~ access (float_of_int raw_interval) ;;
      let interval := (x / 1000)%float in
      set_key "sample_interval" (Str (format_f 2 interval)) ;;;
      size <~ access (samples_size segy) ;;
      s <~ access (float_of_int (size - 1)) ;;
      let trace_length := (s * interval)%float in
      set_key "trace_length" (Str (format_f 0 trace_length)) ;;;
      format_code <~ access (bin segy Format) ;;
      set_key "format" (Str (_get_format_short format_code)) ;;;
      set_key "cdp_range" (Str (Seismic2D._get_cdp_range segy))) ∅).

(** [Seismic3DValidator.get_basic_info] *)
Definition get_basic_info_3d (basename : string -> string)
  (segy : SegyHandle) : gmap string cell :=
  finish
    ((set_key "filename" (Str (Seismic2D.basename_or_na segy basename)) ;;;
      trace_count <~ access (tracecount segy) ;;
      set_key "trace_count" (Int trace_count) ;;;
      sample_count <~ access (samples_size segy) ;;
      set_key "sample_count" (Int sample_count) ;;;
      raw_interval <~ access (bin segy Interval) ;;
      x <~ access (float_of_int raw_interval) ;;
      let interval := (x / 1000)%float in
      set_key "sample_interval" (Str (format_f 2 interval)) ;;;
      size <~ access (samples_size segy) ;;
      s <~ access (float_of_int (size - 1)) ;;
      let trace_length := (s * interval)%float in
      set_key "trace_length" (Str (format_f 0 trace_length)) ;;;
      format_code <~ access (bin segy Format) ;;
      set_key "format" (Str (_get_format_short format_code)) ;;;
      let '(inline_range, xline_range) := Volume3D._get_3d_ranges segy in
      set_key "inline_range" (Str inline_range) ;;;
      set_key "crossline_range" (Str xline_range)) ∅).

(** The first of the accesses and conversions of the two methods that
    raises, if any. *)
Definition first_raise (segy : SegyHandle) : option exn :=
  let body : result () :=
    _ ← tracecount segy;
    size ← samples_size segy;
    raw_interval ← bin segy Interval;
    _ ← float_of_int raw_interval;
    _ ← float_of_int (size - 1);
    _ ← bin segy Format;
    Ok ()
  in
  match body with
  | Ok _ => None
  | Raise e => Some e
  end.

End BasicInfo.

(** ** The line name of a 2D line ([_extract_line_name]) *)

Module LineName.

(** [s.splitlines()], on the line boundaries of ASCII: a line feed, a
    carriage return (with the line feed that follows it, if any), a vertical
    tab, a form feed and the three separators 0x1c to 0x1e.  A boundary at
    the end of the text opens no further line. *)
Definition is_boundary (c : ascii) : bool :=
  let n := nat_of_ascii c in
  ((10 <=? n) && (n <=? 13) || (28 <=? n) && (n <=? 30))%nat.

Fixpoint splitlines_from (l : list ascii) (current : list ascii)
  : list (list ascii) :=
  match l with
  | [] =>
      match current with
      | [] => []
      | _ => [rev current]
      end
  | c :: t =>
      if is_boundary c then
        rev current
        :: match t with
           | c' :: t' =>
               if Ascii.eqb c "013" && Ascii.eqb c' "010"
               then splitlines_from t' []
               else splitlines_from t []
           | [] => splitlines_from t []
           end
      else splitlines_from t (c :: current)
  end.

Definition splitlines (s : string) : list string :=
  map string_of_list_ascii (splitlines_from (list_ascii_of_string s) []).

(** The pattern [LINE\s*[:\-]?\s*(\S+)], piece by piece.  Each piece takes
    the rest of the pattern as a continuation and, where it has a choice,
    tries the longer alternative first and falls back to the shorter one
    when the continuation fails, as the backtracking matcher of [re] does. *)

(** A literal text. *)
Fixpoint literal {R} (text l : list ascii) (k : list ascii -> option R)
  : option R :=
  match text with
  | [] => k l
  | a :: text' =>
      match l with
      | c :: t => if Ascii.eqb a c then literal text' t k else None
      | [] => None
      end
  end.

(** [p*], greedy. *)
Fixpoint star {R} (p : ascii -> bool) (l : list ascii)
  (k : list ascii -> option R) : option R :=
  match l with
  | c :: t =>
      if p c then
        match star p t k with
        | Some r => Some r
        | None => k l
        end
      else k l
  | [] => k []
  end.

(** [p?], greedy. *)
Definition optional {R} (p : ascii -> bool) (l : list ascii)
  (k : list ascii -> option R) : option R :=
  match l with
  | c :: t =>
      if p c then
        match k t with
        | Some r => Some r
        | None => k l
        end
      else k l
  | [] => k []
  end.

(** [(p+)], greedy; the continuation receives the group and the rest. *)
Fixpoint star_group {R} (p : ascii -> bool) (l group : list ascii)
  (k : list ascii -> list ascii -> option R) : option R :=
  match l with
  | c :: t =>
      if p c then
        match star_group p t (c :: group) k with
        | Some r => Some r
        | None => k (rev group) l
        end
      else k (rev group) l
  | [] => k (rev group) []
  end.

Definition plus_group {R} (p : ascii -> bool) (l : list ascii)
  (k : list ascii -> list ascii -> option R) : option R :=
  match l with
  | c :: t => if p c then star_group p t [c] k else None
  | [] => None
  end.

Definition is_separator (c : ascii) : bool :=
  Ascii.eqb c ":" || Ascii.eqb c "-".

(** A match of the pattern at the start of [l]: its group. *)
Definition match_here (l : list ascii) : option (list ascii) :=
  literal (list_ascii_of_string "LINE") l (fun l1 =>
  star is_space l1 (fun l2 =>
  optional is_separator l2 (fun l3 =>
  star is_space l3 (fun l4 =>
  plus_group (fun c => negb (is_space c)) l4 (fun group _ => Some group))))).

(** [re.search]: the match that starts leftmost. *)
Fixpoint search (l : list ascii) : option (list ascii) :=
  match match_here l with
  | Some group => Some group
  | None =>
      match l with
      | [] => None
      | _ :: t => search t
      end
  end.

(** The loop over the lines. *)
Fixpoint first_match (lines : list string) : string :=
  match lines with
  | [] => "N/A"
  | line :: rest =>
      match search (list_ascii_of_string (upper line)) with
      | Some group => string_of_list_ascii group
      | None => first_match rest
      end
  end.

(** [_extract_line_name], a function of the outcome of
    [segyio.tools.wrap(segy.text[0])]. *)
Definition _extract_line_name (text_header : result string) : string :=
  match text_header with
  | Ok text => first_match (splitlines text)
  | Raise _ => "N/A"
  end.

End LineName.

(** * Properties *)

(** ** Binary64 arithmetic *)

(** [lia] after naming the powers of two whose exponent is not a numeral. *)
Ltac hide_pow :=
  repeat match goal with
         | |- context [Z.pow 2 ?e] =>
             lazymatch e with
             | Zpos _ => fail
             | Z0 => fail
             | _ => let v := fresh "pw" in
                    let E := fresh in
                    remember (Z.pow 2 e) as v eqn:E; clear E
             end
         | H : context [Z.pow 2 ?e] |- _ =>
             lazymatch e with
             | Zpos _ => fail
             | Z0 => fail
             | _ => let v := fresh "pw" in
                    let E := fresh in
                    remember (Z.pow 2 e) as v eqn:E; clear E
             end
         end.
Ltac plia := hide_pow; lia.

Section IEEE.

Lemma digits2_pos_bounds (p : positive) :
  2 ^ (Zpos (digits2_pos p) - 1) <= Zpos p < 2 ^ Zpos (digits2_pos p).
Proof.
  induction p as [p IH | p IH |]; cbn [digits2_pos].
  - rewrite Pos2Z.inj_succ. change (Zpos p~1) with (2 * Zpos p + 1).
    replace (Z.succ (Zpos (digits2_pos p)) - 1) with (Z.succ (Zpos (digits2_pos p) - 1)) by lia.
    rewrite !Z.pow_succ_r by lia.
    revert IH. generalize (2 ^ (Zpos (digits2_pos p) - 1)), (2 ^ Zpos (digits2_pos p)). intros; lia.
  - rewrite Pos2Z.inj_succ. change (Zpos p~0) with (2 * Zpos p).
    replace (Z.succ (Zpos (digits2_pos p)) - 1) with (Z.succ (Zpos (digits2_pos p) - 1)) by lia.
    rewrite !Z.pow_succ_r by lia.
    revert IH. generalize (2 ^ (Zpos (digits2_pos p) - 1)), (2 ^ Zpos (digits2_pos p)). intros; lia.
  - vm_compute. split; [discriminate | reflexivity].
Qed.

Lemma digits2_pos_unique (p : positive) (k : Z) :
  2 ^ (k - 1) <= Zpos p < 2 ^ k -> Zpos (digits2_pos p) = k.
Proof.
  intros [Hlo Hhi].
  pose proof (digits2_pos_bounds p) as [Dlo Dhi].
  assert (0 < k).
  { destruct (Z_lt_le_dec 0 k) as [|Hk]; [done|].
    assert (2 ^ k <= 2 ^ 0) by (destruct (Z_lt_le_dec k 0);
      [rewrite Z.pow_neg_r by lia; cbn; lia | apply Z.pow_le_mono_r; lia]).
    change (2 ^ 0) with 1 in *. lia. }
  destruct (Z_lt_le_dec (Zpos (digits2_pos p)) k) as [Hlt|Hge].
  - assert (2 ^ Zpos (digits2_pos p) <= 2 ^ (k - 1)) by (apply Z.pow_le_mono_r; lia).
    lia.
  - destruct (Z_lt_le_dec k (Zpos (digits2_pos p))) as [Hgt|]; [|lia].
    assert (2 ^ k <= 2 ^ (Zpos (digits2_pos p) - 1)) by (apply Z.pow_le_mono_r; lia).
    lia.
Qed.

Lemma iter_pos_nat {A} (f : A -> A) (p : positive) (x : A) :
  SpecFloat.iter_pos f p x = Nat.iter (Pos.to_nat p) f x.
Proof.
  revert x. induction p as [p IH | p IH |]; intros x; cbn [SpecFloat.iter_pos].
  - rewrite !IH, Pos2Nat.inj_xI.
    replace (S (2 * Pos.to_nat p)) with (Pos.to_nat p + S (Pos.to_nat p))%nat by lia.
    rewrite Nat.iter_add. f_equal. now rewrite Nat.iter_succ_r.
  - rewrite !IH, Pos2Nat.inj_xO.
    replace (2 * Pos.to_nat p)%nat with (Pos.to_nat p + Pos.to_nat p)%nat by lia.
    now rewrite Nat.iter_add.
  - reflexivity.
Qed.

Lemma shr_1_m (mrs : shr_record) :
  0 <= shr_m mrs -> shr_m (shr_1 mrs) = shr_m mrs / 2.
Proof.
  destruct mrs as [m r s]. cbn [shr_m]. intros Hm.
  destruct m as [|[p|p|]|p]; cbn [shr_1 shr_m]; try lia.
  - reflexivity.
  - change (Zpos p~1) with (2 * Zpos p + 1). apply Z.div_unique with 1; lia.
  - change (Zpos p~0) with (2 * Zpos p). apply Z.div_unique with 0; lia.
  - reflexivity.
Qed.

Lemma iter_shr_1_m (n : nat) (mrs : shr_record) :
  0 <= shr_m mrs ->
  shr_m (Nat.iter n shr_1 mrs) = shr_m mrs / 2 ^ Z.of_nat n.
Proof.
  intros Hm. induction n as [|n IH].
  - change (Nat.iter 0 shr_1 mrs) with mrs. change (2 ^ Z.of_nat 0) with 1.
    now rewrite Z.div_1_r.
  - rewrite Nat.iter_succ, shr_1_m.
    + rewrite IH, Nat2Z.inj_succ, Z.pow_succ_r by lia.
      rewrite Z.div_div by (try apply Z.pow_pos_nonneg; lia).
      f_equal. lia.
    + rewrite IH. apply Z.div_pos; [done | apply Z.pow_pos_nonneg; lia].
Qed.

Lemma loc_of_shr_record_of_loc (m : Z) (l : location) :
  loc_of_shr_record (shr_record_of_loc m l) = l.
Proof. destruct l as [|[]]; reflexivity. Qed.

Lemma shr_m_record_of_loc (m : Z) (l : location) :
  shr_m (shr_record_of_loc m l) = m.
Proof. destruct l as [|[]]; reflexivity. Qed.

Lemma fexp_normal (e : Z) : -1074 <= e - 53 -> fexp prec emax e = e - 53.
Proof. unfold fexp, emin, prec, emax. lia. Qed.

(** Shifting a mantissa of [53 + t] bits down to 53 bits. *)
Lemma shr_fexp_spec (M ex : Z) (lx : location) (t : Z) :
  0 <= t -> 2 ^ (52 + t) <= M < 2 ^ (53 + t) -> -1074 <= ex + t ->
  exists mrs, shr_fexp prec emax M ex lx = (mrs, ex + t)
    /\ shr_m mrs = M / 2 ^ t
    /\ (t = 0 -> mrs = shr_record_of_loc M lx).
Proof.
  intros Ht HM He.
  assert (0 < M) by (assert (0 < 2 ^ (52 + t)) by (apply Z.pow_pos_nonneg; lia); lia).
  destruct M as [|p|p]; try lia.
  unfold shr_fexp. cbn [Zdigits2].
  rewrite (digits2_pos_unique p (53 + t)) by (replace (53 + t - 1) with (52 + t) by lia; done).
  rewrite fexp_normal by lia.
  replace (53 + t + ex - 53 - ex) with t by lia.
  destruct t as [|q|q]; try lia.
  - exists (shr_record_of_loc (Zpos p) lx). cbn [shr].
    rewrite Z.add_0_r, shr_m_record_of_loc. change (2 ^ 0) with 1.
    rewrite Z.div_1_r. done.
  - eexists. cbn [shr]. split; [reflexivity|]. split; [|discriminate].
    rewrite iter_pos_nat, iter_shr_1_m by (rewrite shr_m_record_of_loc; lia).
    rewrite shr_m_record_of_loc, positive_nat_Z. done.
Qed.

Lemma round_nearest_even_bounds (m : Z) (l : location) :
  m <= round_nearest_even m l <= m + 1.
Proof. destruct l as [|[]]; cbn [round_nearest_even]; try lia. destruct (Z.even m); lia. Qed.

(** Rounding a positive mantissa of [53 + t] bits: the result is finite,
    normal, and its mantissa is the truncated one or its successor. *)
Lemma binary_round_aux_bounds (s : bool) (M ex : Z) (lx : location) (t : Z) :
  0 <= t -> 2 ^ (52 + t) <= M < 2 ^ (53 + t) ->
  -1074 <= ex + t -> ex + t < 971 ->
  exists m' e',
    binary_round_aux prec emax s M ex lx = S754_finite s m' e'
    /\ 2 ^ 52 <= Zpos m' < 2 ^ 53
    /\ ((e' = ex + t /\ M / 2 ^ t <= Zpos m' <= M / 2 ^ t + 1)
        \/ (e' = ex + t + 1 /\ Zpos m' = 2 ^ 52 /\ M / 2 ^ t = 2 ^ 53 - 1)).
Proof.
  intros Ht HM Hlo Hhi.
  destruct (shr_fexp_spec M ex lx t Ht HM Hlo) as (mrs & E1 & Hm1 & _).
  unfold binary_round_aux. rewrite E1.
  set (m1 := shr_m mrs) in *.
  assert (Hm1' : 2 ^ 52 <= m1 < 2 ^ 53).
  { rewrite Hm1. split.
    - apply Z.div_le_lower_bound; [apply Z.pow_pos_nonneg; lia|].
      rewrite <- Z.pow_add_r by lia. replace (t + 52) with (52 + t) by lia. lia.
    - apply Z.div_lt_upper_bound; [apply Z.pow_pos_nonneg; lia|].
      rewrite <- Z.pow_add_r by lia. replace (t + 53) with (53 + t) by lia. lia. }
  pose proof (round_nearest_even_bounds m1 (loc_of_shr_record mrs)) as Hr.
  set (m2 := round_nearest_even m1 (loc_of_shr_record mrs)) in *.
  destruct (Z_lt_le_dec m2 (2 ^ 53)) as [Hlt|Hge].
  - destruct (shr_fexp_spec m2 (ex + t) loc_Exact 0) as (mrs2 & E2 & Hm2 & Hrec);
      [lia | cbn; lia | lia |].
    rewrite Z.add_0_r in E2. rewrite E2.
    change (2 ^ 0) with 1 in Hm2. rewrite Z.div_1_r in Hm2. rewrite Hm2.
    destruct m2 as [|p|p] eqn:Em2; try lia.
    replace (ex + t <=? emax - prec) with true
      by (symmetry; apply Z.leb_le; unfold emax, prec; lia).
    exists p, (ex + t). split; [reflexivity|]. split; [lia|]. left. lia.
  - assert (Em2 : m2 = 2 ^ 53) by lia.
    destruct (shr_fexp_spec m2 (ex + t) loc_Exact 1) as (mrs2 & E2 & Hm2 & _);
      [lia | rewrite Em2; cbn; lia | lia |].
    rewrite E2, Hm2, Em2.
    change (2 ^ 53 / 2 ^ 1) with (Zpos (2 ^ 52)).
    replace (ex + t + 1 <=? emax - prec) with true
      by (symmetry; apply Z.leb_le; unfold emax, prec; lia).
    exists (2 ^ 52)%positive, (ex + t + 1). split; [reflexivity|].
    split; [cbn; lia|]. right. split; [done|]. split; [done|]. lia.
Qed.

(** A 53-bit mantissa with an exponent in range is already a float. *)
Lemma binary_round_aux_exact (s : bool) (m : positive) (ex : Z) :
  2 ^ 52 <= Zpos m < 2 ^ 53 -> -1074 <= ex <= 971 ->
  binary_round_aux prec emax s (Zpos m) ex loc_Exact = S754_finite s m ex.
Proof.
  intros Hm He.
  destruct (shr_fexp_spec (Zpos m) ex loc_Exact 0) as (mrs & E1 & Hm1 & Hrec);
    [lia | cbn; lia | lia |].
  unfold binary_round_aux. rewrite Z.add_0_r in E1. rewrite E1, (Hrec eq_refl).
  cbn [shr_record_of_loc shr_m loc_of_shr_record round_nearest_even].
  rewrite E1, (Hrec eq_refl). cbn [shr_record_of_loc shr_m].
  replace (ex <=? emax - prec) with true
    by (symmetry; apply Z.leb_le; unfold emax, prec; lia).
  reflexivity.
Qed.

Lemma iter_xO (k p : positive) :
  Zpos (Pos.iter xO p k) = Zpos p * 2 ^ Zpos k.
Proof.
  induction k as [|k IH] using Pos.peano_ind.
  - change (Zpos (Pos.iter xO p 1)) with (2 * Zpos p). change (2 ^ 1) with 2. lia.
  - rewrite Pos.iter_succ, Pos2Z.inj_succ, Z.pow_succ_r by lia.
    change (Zpos (Pos.iter xO p k)~0) with (2 * Zpos (Pos.iter xO p k)).
    rewrite IH. lia.
Qed.

Lemma float_of_Z_spec (n : Z) :
  0 < n < 2 ^ 53 ->
  exists m e, Prim2SF (float_of_Z n) = S754_finite false m e /\ encodes n m e.
Proof.
  intros Hn. destruct n as [|p|p]; try lia.
  pose proof (digits2_pos_bounds p) as Hd.
  set (d := Zpos (digits2_pos p)) in *.
  assert (Hd53 : 1 <= d <= 53).
  { split; [unfold d; lia|].
    destruct (Z_lt_le_dec 53 d) as [Hgt|]; [|done].
    assert (2 ^ 53 <= 2 ^ (d - 1)) by (apply Z.pow_le_mono_r; lia). lia. }
  assert (Hsplit : 2 ^ 53 = 2 ^ (d - 1) * 2 ^ (53 - d) * 2).
  { rewrite <- Z.pow_add_r by lia. replace (d - 1 + (53 - d)) with 52 by lia. reflexivity. }
  assert (Hsplit' : 2 ^ d = 2 ^ (d - 1) * 2).
  { replace d with (Z.succ (d - 1)) at 1 by lia. rewrite Z.pow_succ_r by lia. lia. }
  assert (Hpos : 0 < 2 ^ (53 - d)) by (apply Z.pow_pos_nonneg; lia).
  assert (Hnorm : exists m, shl_align p 0 (fexp prec emax (d + 0)) = (m, d - 53)
                   /\ Zpos m = Zpos p * 2 ^ (53 - d)).
  { unfold shl_align. rewrite fexp_normal by lia.
    replace (d + 0 - 53 - 0) with (d - 53) by lia.
    destruct (d - 53) as [|q|q] eqn:Eq; try lia; cbv beta iota.
    - exists p. replace (53 - d) with 0 by plia. split; [reflexivity|]. change (2 ^ 0) with 1. lia.
    - exists (Pos.iter xO p q). split; [f_equal; plia|].
      rewrite iter_xO. do 2 f_equal. plia. }
  destruct Hnorm as (m & Ealign & Hm).
  assert (Hm53 : 2 ^ 52 <= Zpos m < 2 ^ 53).
  { rewrite Hm. change (2 ^ 52) with (2 ^ 53 / 2).
    rewrite Hsplit, Hsplit' in *. rewrite Z.div_mul by lia.
    revert Hd Hpos. generalize (2 ^ (d - 1)), (2 ^ (53 - d)). intros; nia. }
  assert (Eround : binary_normalize prec emax (Zpos p) 0 false = S754_finite false m (d - 53)).
  { unfold binary_normalize, binary_round. fold d. rewrite Ealign.
    apply binary_round_aux_exact; lia. }
  exists m, (d - 53). split.
  - unfold float_of_Z. rewrite Eround. apply Prim2SF_SF2Prim.
    cbn [SpecFloat.valid_binary]. unfold bounded, canonical_mantissa.
    rewrite (digits2_pos_unique m 53) by (cbn; lia).
    rewrite fexp_normal by lia.
    apply andb_true_intro. split; [apply Z.eqb_eq; lia | apply Z.leb_le; unfold emax, prec; lia].
  - split; [done|]. split; [lia|]. rewrite Hm. do 2 f_equal. lia.
Qed.

Lemma float_of_Z_0 : Prim2SF (float_of_Z 0) = S754_zero false.
Proof. reflexivity. Qed.

(** A finite float divided by itself is one. *)
Lemma div_self (x : float) (s : bool) (m : positive) (e : Z) :
  Prim2SF x = S754_finite s m e -> (x / x)%float = 1%float.
Proof.
  intros Hx. apply Prim2SF_inj. rewrite div_spec, Hx.
  unfold SF64div, SFdiv, SFdiv_core_binary.
  rewrite !Z.sub_diag.
  change (Z.min (fexp prec emax 0) 0) with (-53).
  change (0 - -53) with 53.
  replace (Z.shiftl (Zpos m) 53) with (2 ^ 53 * Zpos m)
    by (rewrite Z.shiftl_mul_pow2 by lia; lia).
  pose proof (Z.div_eucl_eq (2 ^ 53 * Zpos m) (Zpos m)) as Heu.
  assert (Hq : (2 ^ 53 * Zpos m) / Zpos m = 2 ^ 53) by (apply Z.div_mul; lia).
  assert (Hr : (2 ^ 53 * Zpos m) mod Zpos m = 0) by (apply Z.mod_mul; lia).
  unfold Z.div, Z.modulo in Hq, Hr.
  destruct (Z.div_eucl (2 ^ 53 * Zpos m) (Zpos m)) as [q r].
  cbn [fst snd] in *. subst q r.
  assert (Hloc : new_location (Zpos m) 0 = loc_Exact).
  { unfold new_location. destruct (Z.even (Zpos m)); reflexivity. }
  rewrite Hloc, xorb_nilpotent. reflexivity.
Qed.

Lemma div_eucl_div_mod (a b : Z) : Z.div_eucl a b = (a / b, a mod b).
Proof. unfold Z.div, Z.modulo. now destruct (Z.div_eucl a b). Qed.

Lemma encodes_exponent_le (k n : Z) (mk mn : positive) (ek en : Z) :
  0 < k <= n -> encodes k mk ek -> encodes n mn en -> ek <= en.
Proof.
  intros Hkn (Hmk & Hek & Ek) (Hmn & Hen & En).
  destruct (Z_lt_le_dec en ek) as [Hlt|]; [exfalso|done].
  assert (E : 2 ^ (- en) = 2 ^ (- ek) * 2 ^ (ek - en)).
  { rewrite <- Z.pow_add_r by lia. f_equal. lia. }
  assert (Hb : 2 ^ 1 <= 2 ^ (ek - en)) by (apply Z.pow_le_mono_r; lia).
  assert (Ha : 0 < 2 ^ (- ek)) by (apply Z.pow_pos_nonneg; lia).
  change (2 ^ 1) with 2 in *. change (2 ^ 52) with 4503599627370496 in *.
  change (2 ^ 53) with 9007199254740992 in *.
  rewrite E in En. clear E.
  revert Ha Hb Ek En. generalize (2 ^ (- ek)), (2 ^ (ek - en)). intros a b Ha Hb Ek En.
  assert (k * a <= n * a) by nia.
  assert (n * a * 2 <= n * a * b) by nia.
  nia.
Qed.

(** The quotient of two positive integers in increasing order. *)
Lemma div_le_one (k n : Z) :
  0 < k <= n -> n < 2 ^ 53 ->
  exists m e, Prim2SF (int_truediv k n) = S754_finite false m e
              /\ unit_fraction m e.
Proof.
  intros Hkn Hn.
  destruct (float_of_Z_spec k) as (mk & ek & Fk & Hk); [lia|].
  destruct (float_of_Z_spec n) as (mn & en & Fn & Hn'); [lia|].
  unfold int_truediv.
  destruct (Z.eq_dec k n) as [->|Hne].
  { rewrite (div_self _ _ _ _ Fn). exists (2 ^ 52)%positive, (-52).
    split; [reflexivity|]. unfold unit_fraction. cbn. lia. }
  pose proof (encodes_exponent_le k n mk mn ek en Hkn Hk Hn') as Hle.
  destruct Hk as (Hmk & Hek & Ek), Hn' as (Hmn & Hen & En).
  rewrite div_spec, Fk, Fn. unfold SF64div, SFdiv, SFdiv_core_binary.
  cbn [Zdigits2].
  rewrite (digits2_pos_unique mk 53), (digits2_pos_unique mn 53) by (cbn; lia).
  rewrite fexp_normal by lia.
  replace (Z.min (53 + ek - (53 + en) - 53) (ek - en)) with (ek - en - 53) by lia.
  replace (ek - en - (ek - en - 53)) with 53 by lia.
  rewrite Z.shiftl_mul_pow2 by lia.
  rewrite div_eucl_div_mod.
  set (q := Zpos mk * 2 ^ 53 / Zpos mn).
  change (2 ^ 52) with 4503599627370496 in *.
  change (2 ^ 53) with 9007199254740992 in *.
  assert (Hq : 4503599627370496 <= q < 18014398509481984).
  { unfold q. split.
    - apply Z.div_le_lower_bound; lia.
    - apply Z.div_lt_upper_bound; lia. }
  assert (Hq0 : ek = en -> q < 9007199254740992).
  { intros ->. unfold q. apply Z.div_lt_upper_bound; [lia|].
    assert (Zpos mk < Zpos mn); [|lia].
    assert (0 < 2 ^ (- en)) by (apply Z.pow_pos_nonneg; lia).
    hide_pow. nia. }
  cbn [xorb].
  destruct (Z_lt_le_dec q 9007199254740992) as [Hsmall|Hbig].
  - destruct (binary_round_aux_bounds false q (ek - en - 53)
                (new_location (Zpos mn) (Zpos mk * 9007199254740992 mod Zpos mn)) 0)
      as (m' & e' & E & Hm' & Hcase); [lia | cbn; lia | lia | lia |].
    rewrite E. exists m', e'. split; [reflexivity|].
    unfold unit_fraction. change (2 ^ 52) with 4503599627370496 in *.
    change (2 ^ 53) with 9007199254740992 in *.
    split; [lia|]. destruct Hcase as [[-> _]|(-> & ? & _)]; lia.
  - destruct (binary_round_aux_bounds false q (ek - en - 53)
                (new_location (Zpos mn) (Zpos mk * 9007199254740992 mod Zpos mn)) 1)
      as (m' & e' & E & Hm' & Hcase); [lia | cbn; lia | lia | lia |].
    rewrite E. exists m', e'. split; [reflexivity|].
    unfold unit_fraction. change (2 ^ 52) with 4503599627370496 in *.
    change (2 ^ 53) with 9007199254740992 in *.
    assert (ek < en) by (destruct (Z.eq_dec ek en) as [Heq|]; [specialize (Hq0 Heq)|]; lia).
    split; [lia|]. destruct Hcase as [[-> _]|(-> & ? & _)]; lia.
Qed.

(** A float in [(0, 1]] times a converted integer: the product is a
    positive normal number, and it is at most the integer when the factor
    is below one. *)
Lemma mul_unit_fraction (q c : float) (mq mc : positive) (eq ec : Z) :
  Prim2SF q = S754_finite false mq eq -> unit_fraction mq eq ->
  Prim2SF c = S754_finite false mc ec ->
  2 ^ 52 <= Zpos mc < 2 ^ 53 -> -52 <= ec <= 0 ->
  exists m e, Prim2SF (q * c) = S754_finite false m e
    /\ 2 ^ 52 <= Zpos m < 2 ^ 53 /\ -160 <= e <= 1
    /\ (eq <= -53 -> e < ec \/ (e = ec /\ Zpos m <= Zpos mc)).
Proof.
  intros Fq (Hmq & Heq & Hone) Fc Hmc Hec.
  rewrite mul_spec, Fq, Fc. unfold SF64mul, SFmul. cbn [xorb].
  change (2 ^ 52) with 4503599627370496 in *.
  change (2 ^ 53) with 9007199254740992 in *.
  rewrite Pos2Z.inj_mul.
  set (P := Zpos mq * Zpos mc).
  assert (HP : 2 ^ 104 <= P < 2 ^ 106) by (unfold P; cbn; nia).
  destruct (Z_lt_le_dec P (2 ^ 105)) as [Hsmall|Hbig].
  - destruct (binary_round_aux_bounds false P (eq + ec) loc_Exact 52)
      as (m' & e' & E & Hm' & Hcase); [lia | cbn in *; lia | lia | lia |].
    rewrite E. exists m', e'. split; [reflexivity|].
    change (2 ^ 52) with 4503599627370496 in *.
    change (2 ^ 53) with 9007199254740992 in *.
    split; [lia|]. split; [destruct Hcase as [[-> _]|(-> & _)]; lia|].
    intros Hlt. destruct Hcase as [[-> _]|(-> & ? & _)]; lia.
  - destruct (binary_round_aux_bounds false P (eq + ec) loc_Exact 53)
      as (m' & e' & E & Hm' & Hcase); [lia | cbn in *; lia | lia | lia |].
    rewrite E. exists m', e'. split; [reflexivity|].
    change (2 ^ 52) with 4503599627370496 in *.
    change (2 ^ 53) with 9007199254740992 in *.
    assert (HPdiv : P / 9007199254740992 <= Zpos mc - 1).
    { apply Z.lt_succ_r. apply Z.div_lt_upper_bound; [lia|]. unfold P. nia. }
    split; [lia|]. split; [destruct Hcase as [[-> _]|(-> & _)]; lia|].
    intros Hlt. destruct Hcase as [[-> ?]|(-> & ? & ?)]; lia.
Qed.

Lemma SFleb_finite (m1 m2 : positive) (e1 e2 : Z) :
  e1 < e2 \/ (e1 = e2 /\ Zpos m1 <= Zpos m2) ->
  SFleb (S754_finite false m1 e1) (S754_finite false m2 e2) = true.
Proof.
  intros H. unfold SFleb, SFcompare.
  destruct (Z.compare_spec e1 e2) as [Heq|Hlt|Hgt]; try done; try lia.
  rewrite Pos.compare_cont_spec. cbn [Pos.switch_Eq].
  destruct (Pos.compare_spec m1 m2); try done. lia.
Qed.

Lemma int_truediv_self (n : Z) :
  0 < n < 2 ^ 53 -> int_truediv n n = 1%float.
Proof.
  intros Hn. destruct (float_of_Z_spec n Hn) as (m & e & F & _).
  exact (div_self _ _ _ _ F).
Qed.

Lemma int_truediv_zero (n : Z) :
  0 < n < 2 ^ 53 -> int_truediv 0 n = 0%float.
Proof.
  intros Hn. destruct (float_of_Z_spec n Hn) as (m & e & F & _).
  unfold int_truediv. apply Prim2SF_inj.
  rewrite div_spec, F. reflexivity.
Qed.

Lemma zero_mul_finite (c : float) (m : positive) (e : Z) :
  Prim2SF c = S754_finite false m e -> (0 * c)%float = 0%float.
Proof.
  intros F. apply Prim2SF_inj. rewrite mul_spec, F. reflexivity.
Qed.

(** [k / n * 100] for [0 <= k <= n] lies between 0 and 100. *)
Lemma percent_bounds (k n : Z) :
  0 <= k <= n -> 0 < n < 2 ^ 53 ->
  (0 <=? int_truediv k n * 100)%float = true
  /\ (int_truediv k n * 100 <=? 100)%float = true.
Proof.
  intros Hk Hn.
  destruct (Z.eq_dec k 0) as [->|Hk0].
  { rewrite int_truediv_zero by done. split; reflexivity. }
  destruct (div_le_one k n) as (mq & eq & Fq & Hq); [lia | lia |].
  destruct (mul_unit_fraction (int_truediv k n) 100 mq (25 * 2 ^ 48) eq (-46)
              Fq Hq eq_refl) as (m & e & F & Hm & He & Hle); [cbn; lia | lia |].
  destruct Hq as (Hmq & Heq & [Hlt|[-> Hone]]).
  - rewrite !leb_spec, F. split; [reflexivity|].
    apply SFleb_finite. exact (Hle Hlt).
  - assert (E1 : int_truediv k n = 1%float).
    { apply Prim2SF_inj. rewrite Fq.
      change (Prim2SF 1) with (S754_finite false (2 ^ 52) (-52)).
      f_equal. apply Pos2Z.inj. exact Hone. }
    rewrite E1. split; reflexivity.
Qed.

(** [int((k / m) * n)] does not raise for counts [0 <= k <= m]. *)
Lemma estimate_defined (k m n : Z) :
  0 <= k <= m -> 0 < m < 2 ^ 53 -> 0 < n < 2 ^ 53 ->
  exists z, int_of_float (int_truediv k m * float_of_Z n)%float = Ok z.
Proof.
  intros Hk Hm Hn.
  destruct (float_of_Z_spec n Hn) as (mc & ec & Fc & Hmc & Hec & _).
  destruct (Z.eq_dec k 0) as [->|Hk0].
  { rewrite int_truediv_zero, (zero_mul_finite _ _ _ Fc) by done.
    exists 0. reflexivity. }
  destruct (div_le_one k m) as (mq & eq & Fq & Hq); [lia | lia |].
  destruct (mul_unit_fraction _ _ mq mc eq ec Fq Hq Fc Hmc Hec)
    as (m' & e' & F & _).
  unfold int_of_float. rewrite F. eauto.
Qed.

Lemma shr_1_double (m : Z) :
  0 <= m ->
  shr_1 {| shr_m := 2 * m; shr_r := false; shr_s := false |}
  = {| shr_m := m; shr_r := false; shr_s := false |}.
Proof. intros Hm. destruct m as [|p|p]; [reflexivity | reflexivity | lia]. Qed.

Lemma iter_shr_1_exact (n : nat) (m : Z) :
  0 <= m ->
  Nat.iter n shr_1 {| shr_m := m * 2 ^ Z.of_nat n; shr_r := false; shr_s := false |}
  = {| shr_m := m; shr_r := false; shr_s := false |}.
Proof.
  intros Hm. induction n as [|n IH].
  - change (2 ^ Z.of_nat 0) with 1. now rewrite Z.mul_1_r.
  - rewrite Nat.iter_succ_r, Nat2Z.inj_succ, Z.pow_succ_r by lia.
    replace (m * (2 * 2 ^ Z.of_nat n)) with (2 * (m * 2 ^ Z.of_nat n)) by lia.
    rewrite shr_1_double; [exact IH|].
    assert (0 < 2 ^ Z.of_nat n) by (apply Z.pow_pos_nonneg; lia). nia.
Qed.

(** A 53-bit mantissa followed by [t] zero bits rounds to itself. *)
Lemma binary_round_aux_shifted (s : bool) (m : positive) (t ex : Z) :
  2 ^ 52 <= Zpos m < 2 ^ 53 -> 0 <= t -> -1074 <= ex + t <= 971 ->
  binary_round_aux prec emax s (Zpos m * 2 ^ t) ex loc_Exact
  = S754_finite s m (ex + t).
Proof.
  intros Hm Ht He.
  destruct t as [|p|p]; try lia.
  { change (2 ^ 0) with 1. rewrite Z.mul_1_r, Z.add_0_r.
    apply binary_round_aux_exact; lia. }
  assert (Hpow : 0 < 2 ^ Zpos p) by (apply Z.pow_pos_nonneg; lia).
  assert (HM : 2 ^ (52 + Zpos p) <= Zpos m * 2 ^ Zpos p < 2 ^ (53 + Zpos p)).
  { rewrite !Z.pow_add_r by lia.
    change (2 ^ 52) with 4503599627370496 in *.
    change (2 ^ 53) with 9007199254740992 in *.
    revert Hpow. generalize (2 ^ Zpos p). intros; nia. }
  assert (E1 : shr_fexp prec emax (Zpos m * 2 ^ Zpos p) ex loc_Exact
               = ({| shr_m := Zpos m; shr_r := false; shr_s := false |}, ex + Zpos p)).
  { unfold shr_fexp.
    destruct (Zpos m * 2 ^ Zpos p) as [|M|M] eqn:EM; try lia.
    cbn [Zdigits2].
    rewrite (digits2_pos_unique M (53 + Zpos p))
      by (replace (53 + Zpos p - 1) with (52 + Zpos p) by lia; done).
    rewrite fexp_normal by lia.
    replace (53 + Zpos p + ex - 53 - ex) with (Zpos p) by lia.
    cbn [shr shr_record_of_loc]. f_equal.
    rewrite iter_pos_nat, <- EM, <- (positive_nat_Z p).
    apply iter_shr_1_exact. lia. }
  unfold binary_round_aux. rewrite E1.
  cbn [shr_m loc_of_shr_record round_nearest_even].
  destruct (shr_fexp_spec (Zpos m) (ex + Zpos p) loc_Exact 0) as (mrs & E2 & _ & Hrec);
    [lia | cbn; lia | lia |].
  rewrite Z.add_0_r in E2. rewrite E2, (Hrec eq_refl). cbn [shr_record_of_loc shr_m].
  replace (ex + Zpos p <=? emax - prec) with true
    by (symmetry; apply Z.leb_le; unfold emax, prec; lia).
  reflexivity.
Qed.

(** The quotient of two positive integers in strictly increasing order is
    below one. *)
Lemma div_lt_one (k n : Z) :
  0 < k < n -> n < 2 ^ 53 ->
  exists m e, Prim2SF (int_truediv k n) = S754_finite false m e
              /\ 2 ^ 52 <= Zpos m < 2 ^ 53 /\ -106 <= e <= -53.
Proof.
  intros Hkn Hn.
  destruct (float_of_Z_spec k) as (mk & ek & Fk & Hk); [lia|].
  destruct (float_of_Z_spec n) as (mn & en & Fn & Hn'); [lia|].
  unfold int_truediv.
  assert (Hle : ek <= en) by (apply (encodes_exponent_le k n mk mn ek en); [lia|done|done]).
  destruct Hk as (Hmk & Hek & Ek), Hn' as (Hmn & Hen & En).
  rewrite div_spec, Fk, Fn. unfold SF64div, SFdiv, SFdiv_core_binary.
  cbn [Zdigits2].
  rewrite (digits2_pos_unique mk 53), (digits2_pos_unique mn 53) by (cbn; lia).
  rewrite fexp_normal by lia.
  replace (Z.min (53 + ek - (53 + en) - 53) (ek - en)) with (ek - en - 53) by lia.
  replace (ek - en - (ek - en - 53)) with 53 by lia.
  rewrite Z.shiftl_mul_pow2 by lia.
  rewrite div_eucl_div_mod.
  set (q := Zpos mk * 2 ^ 53 / Zpos mn).
  set (r := Zpos mk * 2 ^ 53 mod Zpos mn).
  assert (Hdm : Zpos mk * 2 ^ 53 = Zpos mn * q + r /\ 0 <= r < Zpos mn).
  { split; [apply Z.div_mod; lia | apply Z.mod_pos_bound; lia]. }
  clearbody q r.
  change (2 ^ 52) with 4503599627370496 in *.
  change (2 ^ 53) with 9007199254740992 in *.
  assert (Hq : 4503599627370496 <= q < 18014398509481984) by nia.
  assert (Hq0 : ek = en -> q <= 9007199254740990).
  { intros ->. assert (Zpos mk < Zpos mn); [|nia].
    assert (0 < 2 ^ (- en)) by (apply Z.pow_pos_nonneg; lia).
    revert H Ek En. generalize (2 ^ (- en)). intros; nia. }
  cbn [xorb].
  destruct (Z_lt_le_dec q 9007199254740992) as [Hsmall|Hbig].
  - destruct (binary_round_aux_bounds false q (ek - en - 53)
                (new_location (Zpos mn) r) 0)
      as (m' & e' & E & Hm' & Hcase); [lia | cbn; lia | lia | lia |].
    rewrite E. exists m', e'. split; [reflexivity|].
    change (2 ^ 52) with 4503599627370496 in *.
    change (2 ^ 53) with 9007199254740992 in *.
    change (2 ^ 0) with 1 in Hcase. rewrite Z.div_1_r in Hcase.
    split; [lia|].
    destruct Hcase as [[-> _]|(-> & ? & ?)]; [lia|].
    destruct (Z.eq_dec ek en) as [Heq|]; [specialize (Hq0 Heq)|]; lia.
  - assert (Hlt : ek < en)
      by (destruct (Z.eq_dec ek en) as [Heq|]; [specialize (Hq0 Heq)|]; lia).
    destruct (binary_round_aux_bounds false q (ek - en - 53)
                (new_location (Zpos mn) r) 1)
      as (m' & e' & E & Hm' & Hcase); [lia | cbn; lia | lia | lia |].
    change (2 ^ 52) with 4503599627370496 in *.
    change (2 ^ 53) with 9007199254740992 in *.
    change (2 ^ 1) with 2 in Hcase.
    destruct Hcase as [[-> _]|(-> & Em' & Hdiv)].
    + rewrite E. exists m', (ek - en - 53 + 1). split; [reflexivity|]. lia.
    + (* the mantissa before rounding is all ones: the operands are
         2^53 - 1 and 2^52, and the quotient is exact *)
      destruct (Z.eq_dec (ek - en) (-1)) as [Hj|Hj];
        [|rewrite E; exists m', (ek - en - 53 + 1 + 1); split; [reflexivity|lia]].
      assert (Hq2 : 18014398509481982 <= q).
      { pose proof (Z.div_mod q 2 ltac:(lia)). pose proof (Z.mod_pos_bound q 2 ltac:(lia)). lia. }
      assert (Emk : Zpos mk = 9007199254740991) by nia.
      assert (Emn : Zpos mn = 4503599627370496) by nia.
      assert (Eq' : q = 18014398509481982) by nia.
      assert (Er : r = 0) by nia.
      rewrite Eq', Er, Emn, Hj.
      exists (2 ^ 53 - 1)%positive, (-53). split; [reflexivity|]. cbn. lia.
Qed.

Lemma SFltb_finite (m1 m2 : positive) (e1 e2 : Z) :
  e1 < e2 \/ (e1 = e2 /\ Zpos m1 < Zpos m2) ->
  SFltb (S754_finite false m1 e1) (S754_finite false m2 e2) = true.
Proof.
  intros H. unfold SFltb, SFcompare.
  destruct (Z.compare_spec e1 e2) as [Heq|Hlt|Hgt]; try done; try lia.
  rewrite Pos.compare_cont_spec. cbn [Pos.switch_Eq].
  destruct (Pos.compare_spec m1 m2); try done; lia.
Qed.

(** A float below one times one hundred is below one hundred. *)
Lemma mul_100_lt (q : float) (mq : positive) (eq : Z) :
  Prim2SF q = S754_finite false mq eq ->
  2 ^ 52 <= Zpos mq < 2 ^ 53 -> -106 <= eq <= -53 ->
  (q * 100 <? 100)%float = true.
Proof.
  intros Fq Hmq Heq.
  change (2 ^ 52) with 4503599627370496 in *.
  change (2 ^ 53) with 9007199254740992 in *.
  destruct (Z.eq_dec (Zpos mq) 9007199254740991) as [Emax|Hnot];
    [destruct (Z.eq_dec eq (-53)) as [E53|H53]|].
  { (* the largest float below one *)
    assert (Eq : q = 0x1.fffffffffffffp-1%float).
    { apply Prim2SF_inj. rewrite Fq, E53.
      replace mq with 9007199254740991%positive by (apply Pos2Z.inj; lia).
      reflexivity. }
    rewrite Eq. reflexivity. }
  all: rewrite ltb_spec, mul_spec, Fq;
    change (Prim2SF 100) with (S754_finite false 7036874417766400 (-46));
    unfold SF64mul, SFmul; cbn [xorb]; rewrite Pos2Z.inj_mul;
    set (P := Zpos mq * Zpos 7036874417766400);
    assert (HP : 2 ^ 104 <= P < 2 ^ 106) by (unfold P; cbn; nia);
    destruct (Z_lt_le_dec P (2 ^ 105)) as [Hsmall|Hbig].
  - destruct (binary_round_aux_bounds false P (eq + -46) loc_Exact 52)
      as (m' & e' & E & Hm' & Hcase); [lia | cbn in *; lia | lia | lia |].
    rewrite E. apply SFltb_finite. cbn in Hm'.
    destruct Hcase as [[-> _]|(-> & ? & _)]; lia.
  - destruct (binary_round_aux_bounds false P (eq + -46) loc_Exact 53)
      as (m' & e' & E & Hm' & Hcase); [lia | cbn in *; lia | lia | lia |].
    rewrite E. apply SFltb_finite. cbn in Hm'.
    destruct Hcase as [[-> _]|(-> & ? & _)]; lia.
  - destruct (binary_round_aux_bounds false P (eq + -46) loc_Exact 52)
      as (m' & e' & E & Hm' & Hcase); [lia | cbn in *; lia | lia | lia |].
    rewrite E. apply SFltb_finite. cbn in Hm'.
    destruct Hcase as [[-> _]|(-> & ? & _)]; lia.
  - destruct (binary_round_aux_bounds false P (eq + -46) loc_Exact 53)
      as (m' & e' & E & Hm' & Hcase); [lia | cbn in *; lia | lia | lia |].
    rewrite E. apply SFltb_finite. cbn in Hm'.
    change (2 ^ 53) with 9007199254740992 in Hcase.
    assert (HPdiv : P / 9007199254740992 <= 7036874417766398).
    { apply Z.lt_succ_r. apply Z.div_lt_upper_bound; [lia|]. unfold P. nia. }
    destruct Hcase as [[-> ?]|(-> & ? & ?)]; lia.
Qed.

Lemma percent_lt_100 (k n : Z) :
  0 <= k < n -> n < 2 ^ 53 ->
  (int_truediv k n * 100 <? 100)%float = true.
Proof.
  intros Hk Hn.
  destruct (Z.eq_dec k 0) as [->|Hk0].
  { rewrite int_truediv_zero by lia. reflexivity. }
  destruct (div_lt_one k n) as (mq & eq & Fq & Hmq & Heq); [lia | lia |].
  exact (mul_100_lt _ mq eq Fq Hmq Heq).
Qed.

(** [k / n * 100] is 100 exactly when [k = n]. *)
Lemma percent_100_iff (k n : Z) :
  0 <= k <= n -> 0 < n < 2 ^ 53 ->
  (int_truediv k n * 100)%float = 100%float <-> k = n.
Proof.
  intros Hk Hn. split.
  - intros E. destruct (Z.eq_dec k n) as [|Hne]; [done|exfalso].
    pose proof (percent_lt_100 k n ltac:(lia) ltac:(lia)) as Hlt.
    rewrite E in Hlt. discriminate Hlt.
  - intros ->. now rewrite int_truediv_self.
Qed.

End IEEE.

(** ** File discovery *)

Section FileScannerFacts.
Import FileScanner.

Lemma scan_names_unfiltered (os : OS) (self : Scanner) (ext : string -> bool)
  (dirpath : string) (filenames : list string) :
  (forall f, filtered_out self f = false) ->
  flat_map
    (fun filename =>
       if ext filename then
         if filtered_out self filename then []
         else [path_join os dirpath filename]
       else [])
    filenames
  = map (path_join os dirpath) (List.filter ext filenames).
Proof.
  intros Hoff. induction filenames as [|f rest IH]; [reflexivity|].
  cbn [flat_map List.filter]. rewrite IH, Hoff.
  destruct (ext f); reflexivity.
Qed.

Lemma scan_walk_unfiltered (os : OS) (self : Scanner) (ext : string -> bool) :
  (forall f, filtered_out self f = false) ->
  scan_walk os self ext = all_matching os (root_folder self) ext.
Proof.
  intros Hoff. unfold scan_walk, all_matching.
  induction (walk os (root_folder self)) as [|[[dirpath dirnames] filenames] rest IH];
    [reflexivity|].
  cbn [flat_map]. rewrite IH. f_equal. now apply scan_names_unfiltered.
Qed.

Lemma filtered_out_disabled (self : Scanner) (f : string) :
  filter_enabled self = false \/ filter_text self = EmptyString ->
  filtered_out self f = false.
Proof.
  unfold filtered_out. intros [-> | ->]; [reflexivity|].
  now rewrite andb_false_r.
Qed.

(** With the filter disabled, or enabled with an empty text, both scanners
    return every file with a matching extension. *)
Lemma find_all_las_files_unfiltered (os : OS) (self : Scanner) :
  isdir os (root_folder self) = true ->
  filter_enabled self = false \/ filter_text self = EmptyString ->
  snd (find_all_las_files os self) = all_matching os (root_folder self) is_las.
Proof.
  intros Hdir Hoff. unfold find_all_las_files. cbn [set_found root_folder].
  rewrite Hdir. cbn [negb snd].
  apply (scan_walk_unfiltered os (set_found self [])).
  intros f. now apply filtered_out_disabled.
Qed.

Lemma find_all_segy_files_unfiltered (os : OS) (self : Scanner) :
  isdir os (root_folder self) = true ->
  filter_enabled self = false \/ filter_text self = EmptyString ->
  snd (find_all_segy_files os self) = all_matching os (root_folder self) is_segy.
Proof.
  intros Hdir Hoff. unfold find_all_segy_files. cbn [set_found root_folder].
  rewrite Hdir. cbn [negb snd].
  apply (scan_walk_unfiltered os (set_found self [])).
  intros f. now apply filtered_out_disabled.
Qed.

End FileScannerFacts.

(** C1.  The scanners on a directory holding [well_A.las], [notes.txt] and
    [line_7.SGY], constructed with the filter enabled and an empty filter
    text: both return the file with the matching extension, not the empty
    list. *)
Theorem empty_filter_text_keeps_files :
  snd (FileScanner.find_all_las_files FileScanner.sample_os
         (FileScanner.init "/data" EmptyString true)) = ["/data/well_A.las"]
  /\ snd (FileScanner.find_all_segy_files FileScanner.sample_os
            (FileScanner.init "/data" EmptyString true)) = ["/data/line_7.SGY"].
Proof. split; vm_compute; reflexivity. Qed.

(** The filter, when it has a text, keeps the names that hold it whatever
    the case of the letters. *)
Example find_all_segy_files_filtered :
  snd (FileScanner.find_all_segy_files FileScanner.sample_os
         (FileScanner.init "/data" "Line" true)) = ["/data/line_7.SGY"]
  /\ snd (FileScanner.find_all_las_files FileScanner.sample_os
            (FileScanner.init "/data" "Line" true)) = []
  /\ snd (FileScanner.find_all_las_files FileScanner.sample_os
            (FileScanner.init "/missing" "Line" false)) = [].
Proof. repeat split; vm_compute; reflexivity. Qed.

(** ** Exceptions and loops *)

Lemma for_each_Ok {A B} (f : A -> result B) (xs : list A) (ys : list B) :
  for_each f xs = Ok ys -> Forall2 (fun x y => f x = Ok y) xs ys.
Proof.
  revert ys. induction xs as [|x rest IH]; intros ys; cbn [for_each].
  - intros [= <-]. constructor.
  - destruct (f x) as [y|e] eqn:Ex; [|discriminate].
    destruct (for_each f rest) as [ys'|e]; [|discriminate].
    intros [= <-]. constructor; [done | now apply IH].
Qed.

Lemma for_each_total {A B} (f : A -> result B) (xs : list A) :
  Forall (fun x => is_Ok (f x)) xs -> is_Ok (for_each f xs).
Proof.
  induction 1 as [|x rest [y Hy] _ [ys Hys]]; cbn [for_each].
  - now exists [].
  - rewrite Hy, Hys. now exists (y :: ys).
Qed.

Lemma for_each_length {A B} (f : A -> result B) (xs : list A) (ys : list B) :
  for_each f xs = Ok ys -> length ys = length xs.
Proof. intros H. apply for_each_Ok in H. symmetry. eapply Forall2_length, H. Qed.

(** ** Well-log curves *)

Section CurveFacts.
Import CurveValidator.

Lemma fold_insert_other {V} (f : CurveInfo -> V)
  (cfg : list (string * CurveInfo)) (acc : gmap string V) (key : string) :
  ~ In key (map fst cfg) ->
  fold_left (fun m '(k, i) => <[k := f i]> m) cfg acc !! key = acc !! key.
Proof.
  revert acc. induction cfg as [|[k i] rest IH]; intros acc Hnot; [reflexivity|].
  cbn [fold_left]. cbn [map fst In] in Hnot.
  rewrite IH by tauto. apply lookup_insert_ne. tauto.
Qed.

Lemma fold_insert_lookup {V} (f : CurveInfo -> V)
  (cfg : list (string * CurveInfo)) (acc : gmap string V)
  (key : string) (info : CurveInfo) :
  List.NoDup (map fst cfg) -> In (key, info) cfg ->
  fold_left (fun m '(k, i) => <[k := f i]> m) cfg acc !! key = Some (f info).
Proof.
  revert acc. induction cfg as [|[k i] rest IH]; intros acc Hnd Hin; [destruct Hin|].
  cbn [fold_left]. cbn [map fst] in Hnd. inversion Hnd as [|? ? Hk Hrest]; subst.
  destruct Hin as [[= -> ->] | Hin].
  - rewrite fold_insert_other by done. apply lookup_insert_eq.
  - now apply IH.
Qed.

Lemma available_fold_lookup (entries : list (string * Curve))
  (acc : gmap string Curve) (k : string) :
  is_Some (fold_left (fun d '(k, c) => <[k := c]> d) entries acc !! k)
  <-> is_Some (acc !! k) \/ In k (map fst entries).
Proof.
  revert acc. induction entries as [|[k' c] rest IH]; intros acc; cbn [fold_left map fst In].
  - tauto.
  - rewrite IH. destruct (decide (k' = k)) as [->|Hne].
    + rewrite lookup_insert_eq. split; [tauto|]. intros _. left. eauto.
    + rewrite lookup_insert_ne by done. tauto.
Qed.

Lemma available_curves_readable (las : LasHandle) :
  is_Ok (available_curves las) <-> curves_readable las.
Proof.
  unfold available_curves, curves_readable. split.
  - intros [avail H]. destruct (curves las) as [cs|e]; [|discriminate].
    exists cs. split; [done|]. cbn in H.
    destruct (for_each _ cs) as [entries|e] eqn:E; [|discriminate].
    apply for_each_Ok in E. clear H. induction E as [|c [k c'] cs' es' Hc _ IH]; constructor; [|done].
    destruct (mnemonic c) as [m|e]; [now exists m | discriminate].
  - intros (cs & -> & Hall). cbn.
    destruct (for_each_total (fun c => m ← mnemonic c; Ok (upper m, c)) cs) as [entries ->].
    + eapply Forall_impl; [exact Hall|]. intros c [m ->]. cbn. now eexists.
    + cbn. now eexists.
Qed.

Lemma available_curves_keys (las : LasHandle) (available : gmap string Curve)
  (k : string) :
  available_curves las = Ok available ->
  is_Some (available !! k) <-> has_mnemonic las k.
Proof.
  unfold available_curves, has_mnemonic. intros H.
  destruct (curves las) as [cs|e]; [|discriminate]. cbn in H.
  destruct (for_each _ cs) as [entries|e] eqn:E; [|discriminate].
  cbn in H. injection H as <-. apply for_each_Ok in E.
  rewrite available_fold_lookup, lookup_empty.
  split.
  - intros [[? [=]]|Hin]. induction E as [|c [k' c'] cs' es' Hc _ IH]; [destruct Hin|].
    destruct (mnemonic c) as [m|e] eqn:Em; [|discriminate]. cbn in Hc. injection Hc as <- <-.
    destruct Hin as [<- | Hin].
    + exists (c :: cs'), c, m. cbn. tauto.
    + destruct (IH Hin) as (cs0 & c0 & m0 & [= <-] & Hc0 & Hm0 & Hk).
      exists (c :: cs'), c0, m0. cbn. tauto.
  - intros (cs0 & c0 & m0 & [= <-] & Hc0 & Hm0 & Hk). right.
    induction E as [|c [k' c'] cs' es' Hc _ IH]; [destruct Hc0|].
    destruct Hc0 as [-> | Hc0].
    + rewrite Hm0 in Hc. cbn in Hc. injection Hc as <- <-. now left.
    + right. now apply IH.
Qed.

Lemma find_curve_alias_Some (aliases : list string)
  (available : gmap string Curve) (u : string) :
  _find_curve_alias aliases available = Some u <->
  exists pre alias post,
    aliases = pre ++ alias :: post /\ u = upper alias
    /\ is_Some (available !! upper alias)
    /\ Forall (fun a => ~ is_Some (available !! upper a)) pre.
Proof.
  induction aliases as [|a rest IH]; cbn [_find_curve_alias].
  - split; [discriminate|]. intros (pre & alias & post & E & _). now destruct pre.
  - destruct (decide (is_Some (available !! upper a))) as [Hin|Hout].
    + split.
      * intros [= <-]. exists [], a, rest. repeat split; [done | constructor].
      * intros (pre & alias & post & E & -> & Hal & Hpre).
        destruct pre as [|b pre]; cbn in E; injection E as -> ->; [done|].
        inversion Hpre; subst. contradiction.
    + rewrite IH. split.
      * intros (pre & alias & post & -> & -> & Hal & Hpre).
        exists (a :: pre), alias, post. repeat split; [done | now constructor].
      * intros (pre & alias & post & E & -> & Hal & Hpre).
        destruct pre as [|b pre]; cbn in E; injection E as <- ->; [contradiction|].
        inversion Hpre; subst. now exists pre, alias, post.
Qed.

Lemma find_curve_alias_None (aliases : list string)
  (available : gmap string Curve) :
  _find_curve_alias aliases available = None <->
  Forall (fun a => ~ is_Some (available !! upper a)) aliases.
Proof.
  induction aliases as [|a rest IH]; cbn [_find_curve_alias].
  - split; [constructor | done].
  - destruct (decide (is_Some (available !! upper a))) as [Hin|Hout].
    + split; [discriminate|]. intros H. inversion H; subst. contradiction.
    + rewrite IH. split; [now constructor | intros H; now inversion H].
Qed.

End CurveFacts.

(** C5.  Alias resolution walks the alias list in order: the result is the
    upper-case form of the first alias whose upper-case form is the
    upper-case mnemonic of a curve of the file, and no alias resolves
    exactly when none is.  With the aliases RD, RT and a file holding both
    curves the result is RD. *)
Theorem find_curve_alias_first_match
  (las : CurveValidator.LasHandle)
  (available : gmap string CurveValidator.Curve) (aliases : list string) :
  CurveValidator.available_curves las = Ok available ->
  (forall u,
     CurveValidator._find_curve_alias aliases available = Some u <->
     exists pre alias post,
       aliases = pre ++ alias :: post /\ u = upper alias
       /\ CurveValidator.has_mnemonic las (upper alias)
       /\ Forall (fun a => ~ CurveValidator.has_mnemonic las (upper a)) pre)
  /\ (CurveValidator._find_curve_alias aliases available = None <->
      Forall (fun a => ~ CurveValidator.has_mnemonic las (upper a)) aliases)
  /\ (CurveValidator.has_mnemonic las "RD" ->
      CurveValidator.has_mnemonic las "RT" ->
      CurveValidator._find_curve_alias ["RD"; "RT"] available = Some "RD").
Proof.
  intros Hav.
  assert (Hkeys : forall k, is_Some (available !! k) <-> CurveValidator.has_mnemonic las k)
    by (intros k; now apply available_curves_keys).
  assert (Hall : forall l,
            Forall (fun a => ~ is_Some (available !! upper a)) l
            <-> Forall (fun a => ~ CurveValidator.has_mnemonic las (upper a)) l).
  { intros l. split; intros H; (eapply Forall_impl; [exact H|]);
      intros a; cbv beta; rewrite Hkeys; tauto. }
  split; [|split].
  - intros u. rewrite find_curve_alias_Some. split.
    + intros (pre & alias & post & E & Eu & Hal & Hpre).
      exists pre, alias, post. rewrite <- Hkeys, <- Hall. tauto.
    + intros (pre & alias & post & E & Eu & Hal & Hpre).
      exists pre, alias, post. rewrite Hkeys, Hall. tauto.
  - rewrite find_curve_alias_None. apply Hall.
  - intros Hrd _. apply find_curve_alias_Some.
    exists [], "RD", ["RT"]. repeat split; [|constructor].
    apply Hkeys. exact Hrd.
Qed.

Lemma find_curve_alias_first_match_witness :
  CurveValidator._find_curve_alias ["RD"; "RT"] Samples.available = Some "RD".
Proof.
  assert (Hav : CurveValidator.available_curves Samples.las = Ok Samples.available)
    by (vm_compute; reflexivity).
  destruct (find_curve_alias_first_match Samples.las Samples.available
              ["RD"; "RT"] Hav) as (_ & _ & H).
  apply H.
  - exists [ {| CurveValidator.mnemonic := Ok "RT"; CurveValidator.unit := Some "ohm.m" |};
             {| CurveValidator.mnemonic := Ok "RD"; CurveValidator.unit := Some "ohm.m" |};
             {| CurveValidator.mnemonic := Ok "GR"; CurveValidator.unit := Some "gAPI" |} ],
           {| CurveValidator.mnemonic := Ok "RD"; CurveValidator.unit := Some "ohm.m" |}, "RD".
    cbn. tauto.
  - exists [ {| CurveValidator.mnemonic := Ok "RT"; CurveValidator.unit := Some "ohm.m" |};
             {| CurveValidator.mnemonic := Ok "RD"; CurveValidator.unit := Some "ohm.m" |};
             {| CurveValidator.mnemonic := Ok "GR"; CurveValidator.unit := Some "gAPI" |} ],
           {| CurveValidator.mnemonic := Ok "RT"; CurveValidator.unit := Some "ohm.m" |}, "RT".
    cbn. tauto.
Defined.

(** ** NaN *)

Lemma SFeqb_refl (s : spec_float) : s <> S754_nan -> SFeqb s s = true.
Proof.
  unfold SFeqb, SFcompare. destruct s as [[]|[]| |[] m e]; try done.
  all: rewrite Z.compare_refl, Pos.compare_cont_refl; reflexivity.
Qed.

Lemma isnan_spec (x : float) : isnan x = true <-> Prim2SF x = S754_nan.
Proof.
  unfold isnan. rewrite FloatAxioms.eqb_spec. split.
  - intros H. apply negb_true_iff in H.
    destruct (Prim2SF x) eqn:E; try (rewrite SFeqb_refl in H; done).
    reflexivity.
  - intros ->. reflexivity.
Qed.

Lemma nan_eqb_false (x y : float) : isnan x = true -> (x =? y)%float = false.
Proof. rewrite isnan_spec, FloatAxioms.eqb_spec. now intros ->. Qed.

Lemma format_f_nan (d : nat) (x : float) : isnan x = true -> format_f d x = "nan".
Proof. rewrite isnan_spec. unfold format_f. now intros ->. Qed.

Lemma fold_fmin_nan (xs : list float) (x : float) :
  isnan x = true -> Forall (fun y => isnan y = true) xs ->
  isnan (fold_left fmin xs x) = true.
Proof.
  intros Hx Hall. revert x Hx. induction Hall as [|y rest Hy _ IH]; intros x Hx; [done|].
  cbn [fold_left]. apply IH. unfold fmin. now rewrite Hx.
Qed.

Lemma fold_fmax_nan (xs : list float) (x : float) :
  isnan x = true -> Forall (fun y => isnan y = true) xs ->
  isnan (fold_left fmax xs x) = true.
Proof.
  intros Hx Hall. revert x Hx. induction Hall as [|y rest Hy _ IH]; intros x Hx; [done|].
  cbn [fold_left]. apply IH. unfold fmax. now rewrite Hx.
Qed.

(** ** Well-log curve data *)

Section CurveData.
Import CurveValidator.

Lemma valid_samples_none (self : CurveValidator) (data : list float) :
  Forall (fun x => (x =? null_value self)%float = true) data ->
  valid_samples self data = [].
Proof.
  unfold valid_samples. induction 1 as [|x rest Hx _ IH]; [reflexivity|].
  cbn [List.filter]. now rewrite Hx.
Qed.

Lemma valid_samples_all (self : CurveValidator) (data : list float) :
  Forall (fun x => (x =? null_value self)%float = false) data ->
  valid_samples self data = data.
Proof.
  unfold valid_samples. induction 1 as [|x rest Hx _ IH]; [reflexivity|].
  cbn [List.filter]. rewrite Hx. cbn [negb]. now f_equal.
Qed.

Lemma valid_samples_some (self : CurveValidator) (data : list float) :
  Exists (fun x => (x =? null_value self)%float = false) data ->
  valid_samples self data <> [].
Proof.
  unfold valid_samples. induction 1 as [x rest Hx | x rest _ IH]; cbn [List.filter].
  - now rewrite Hx.
  - destruct (negb _); [done | exact IH].
Qed.

Lemma valid_samples_length (self : CurveValidator) (data : list float) :
  (length (valid_samples self data) <= length data)%nat.
Proof. apply List.filter_length_le. Qed.

Lemma valid_samples_full (self : CurveValidator) (data : list float) :
  length (valid_samples self data) = length data <->
  Forall (fun x => (x =? null_value self)%float = false) data.
Proof.
  unfold valid_samples. induction data as [|x rest IH]; cbn [List.filter length].
  - split; [constructor | done].
  - destruct (x =? null_value self)%float eqn:Ex; cbn [negb length].
    + split.
      * intros H. pose proof (List.filter_length_le
            (fun x => negb (x =? null_value self)%float) rest). lia.
      * intros H. inversion H; subst. congruence.
    + split.
      * intros [= H]. constructor; [done | now apply IH].
      * intros H. inversion H; subst. f_equal. now apply IH.
Qed.

Lemma validate_las_file_entry (cfg : list (string * CurveInfo))
  (las : LasHandle) (available : gmap string Curve)
  (key : string) (info : CurveInfo) :
  List.NoDup (map fst cfg) -> In (key, info) cfg ->
  available_curves las = Ok available ->
  exists results,
    validate_las_file (init cfg) las = Ok results
    /\ results !! key = Some (validate_entry (init cfg) las available info).
Proof.
  intros Hnd Hin Hav. unfold validate_las_file. rewrite Hav.
  eexists. split; [reflexivity|].
  cbn [curve_config init].
  apply (fold_insert_lookup (validate_entry (init cfg) las available)); done.
Qed.

Lemma get_detailed_curve_info_entry (cfg : list (string * CurveInfo))
  (las : LasHandle) (available : gmap string Curve)
  (key : string) (info : CurveInfo) :
  List.NoDup (map fst cfg) -> In (key, info) cfg ->
  available_curves las = Ok available ->
  exists details,
    get_detailed_curve_info (init cfg) las = Ok details
    /\ details !! key = Some (detail_entry (init cfg) las available info).
Proof.
  intros Hnd Hin Hav. unfold get_detailed_curve_info. rewrite Hav.
  eexists. split; [reflexivity|].
  cbn [curve_config init].
  apply (fold_insert_lookup (detail_entry (init cfg) las available)); done.
Qed.

Lemma validate_curve_data_Ok (self : CurveValidator) (las : LasHandle)
  (name : string) (info : CurveInfo) (data : list float) :
  getitem las name = Ok data ->
  _validate_curve_data self las name info =
    match valid_samples self data with
    | [] => (false, "No valid data")
    | x :: rest =>
        (true, "Valid (" +:+ format_f 2 (fold_left fmin rest x) +:+ "-"
                 +:+ format_f 2 (fold_left fmax rest x) +:+ ")")
    end.
Proof.
  intros Hget. unfold _validate_curve_data. rewrite Hget. cbn.
  destruct (valid_samples self data) as [|x rest]; reflexivity.
Qed.

End CurveData.

(** The sample file against the sample configuration: RD is found before
    RT, the gamma-ray curve holds no valid data, and there is no caliper. *)
Example validate_las_file_sample :
  (results ← CurveValidator.validate_las_file
               (CurveValidator.init Samples.config) Samples.las;
   Ok (results !! "RES", results !! "GR", results !! "CALI"))
  = Ok (Some {| CurveValidator.status := "Y";
                CurveValidator.reason := "Valid (0.12-20.00)" |},
        Some {| CurveValidator.status := "N";
                CurveValidator.reason := "No valid data" |},
        Some {| CurveValidator.status := "N";
                CurveValidator.reason := "Not found" |}).
Proof. vm_compute. reflexivity. Qed.

Example get_detailed_curve_info_sample :
  (details ← CurveValidator.get_detailed_curve_info
               (CurveValidator.init Samples.config) Samples.las;
   Ok (details !! "RES"))
  = Ok (Some {| CurveValidator.found := true;
                CurveValidator.d_mnemonic := "RD";
                CurveValidator.d_min := "0.1250";
                CurveValidator.d_max := "20.0000";
                CurveValidator.percent_filled := "75.00";
                CurveValidator.d_unit := "ohm.m";
                CurveValidator.d_description := "Deep resistivity" |}).
Proof. vm_compute. reflexivity. Qed.

Example format_f_samples :
  map (format_f 2) [1.5; -0.0009765625; 0.125; 0.375; 100; nan]%float
  = ["1.50"; "-0.00"; "0.12"; "0.38"; "100.00"; "nan"].
Proof. vm_compute. reflexivity. Qed.

(** C10.  NaN samples count as valid data: none of them equals the
    sentinel, so for a configured curve whose alias resolves, whose data and
    curve object can be read and whose samples, of which there is at least
    one (and fewer than 2^53), are all NaN, validation reports status Y
    (with the range nan-nan) and the detailed information reports a filled
    percentage of 100.00. *)
Theorem nan_samples_count_as_valid
  (cfg : list (string * CurveValidator.CurveInfo))
  (las : CurveValidator.LasHandle)
  (available : gmap string CurveValidator.Curve)
  (key : string) (info : CurveValidator.CurveInfo)
  (name : string) (data : list float) (curve_obj : CurveValidator.Curve) :
  List.NoDup (map fst cfg) -> In (key, info) cfg ->
  CurveValidator.available_curves las = Ok available ->
  CurveValidator.resolved
    (CurveValidator._find_curve_alias (CurveValidator.aliases info) available)
    = Some name ->
  CurveValidator.getitem las name = Ok data ->
  CurveValidator.curves_getitem las name = Ok curve_obj ->
  data <> [] -> Z.of_nat (length data) < 2 ^ 53 ->
  Forall (fun x => isnan x = true) data ->
  Forall (fun x => (x =? -999.25)%float = false) data
  /\ exists results details d,
       CurveValidator.validate_las_file (CurveValidator.init cfg) las = Ok results
       /\ results !! key
          = Some {| CurveValidator.status := "Y";
                    CurveValidator.reason := "Valid (nan-nan)" |}
       /\ CurveValidator.get_detailed_curve_info (CurveValidator.init cfg) las
          = Ok details
       /\ details !! key = Some d
       /\ CurveValidator.percent_filled d = "100.00".
Proof.
  intros Hnd Hin Hav Hres Hget Hcurve Hne Hlen Hnan.
  assert (Hnot : Forall (fun x => (x =? -999.25)%float = false) data).
  { eapply Forall_impl; [exact Hnan|]. intros x Hx. now apply nan_eqb_false. }
  split; [exact Hnot|].
  destruct (validate_las_file_entry cfg las available key info Hnd Hin Hav)
    as (results & Hval & Hkey).
  destruct (get_detailed_curve_info_entry cfg las available key info Hnd Hin Hav)
    as (details & Hdet & Hdkey).
  exists results, details,
    (CurveValidator.detail_entry (CurveValidator.init cfg) las available info).
  pose proof (valid_samples_all (CurveValidator.init cfg) data Hnot) as Hvalid.
  split; [exact Hval|]. split; [|split; [exact Hdet|split; [exact Hdkey|]]].
  - rewrite Hkey. unfold CurveValidator.validate_entry. rewrite Hres.
    rewrite (validate_curve_data_Ok _ _ _ _ _ Hget), Hvalid.
    destruct data as [|x rest]; [done|].
    inversion Hnan as [|? ? Hx Hrest]; subst.
    rewrite (format_f_nan 2 (fold_left fmin rest x)) by now apply fold_fmin_nan.
    rewrite (format_f_nan 2 (fold_left fmax rest x)) by now apply fold_fmax_nan.
    reflexivity.
  - unfold CurveValidator.detail_entry. rewrite Hres, Hget. cbn [mbind result_bind].
    rewrite Hvalid, Hcurve.
    destruct data as [|x rest]; [done|].
    cbn [length Nat.ltb Nat.leb nanmin nanmax mbind result_bind
         CurveValidator.percent_filled].
    unfold CurveValidator.percent_of.
    cbn [length] in Hlen.
    replace (0 <? Z.of_nat (S (length rest))) with true by (symmetry; apply Z.ltb_lt; lia).
    rewrite int_truediv_self by lia. reflexivity.
Qed.

Lemma nan_samples_count_as_valid_witness :
  exists results details d,
    CurveValidator.validate_las_file (CurveValidator.init Samples.config)
      Samples.las_nan = Ok results
    /\ results !! "GR"
       = Some {| CurveValidator.status := "Y";
                 CurveValidator.reason := "Valid (nan-nan)" |}
    /\ CurveValidator.get_detailed_curve_info (CurveValidator.init Samples.config)
         Samples.las_nan = Ok details
    /\ details !! "GR" = Some d
    /\ CurveValidator.percent_filled d = "100.00".
Proof.
  refine (proj2 (nan_samples_count_as_valid Samples.config Samples.las_nan
              Samples.available "GR"
              {| CurveValidator.aliases := ["GR"; "GRC"];
                 CurveValidator.description := "Gamma ray" |}
              "GR" [nan; nan]%float
              {| CurveValidator.mnemonic := Ok "GR";
                 CurveValidator.unit := Some "gAPI" |}
              _ _ _ _ _ _ _ _ _)).
  - repeat constructor; cbn; intuition discriminate.
  - cbn. tauto.
  - vm_compute. reflexivity.
  - vm_compute. reflexivity.
  - reflexivity.
  - reflexivity.
  - discriminate.
  - cbn. lia.
  - repeat constructor.
Defined.

(** C8, as the code has it.  For a found curve with at least one sample
    (and fewer than 2^53), whose data and curve object can be read, the
    reported [percent_filled] is the two-decimal rendering of the
    percentage valid / total * 100, where valid counts the samples that
    differ from the null sentinel -999.25 and total counts all samples.
    That percentage lies between 0 and 100; it is 100 exactly when no sample
    equals the sentinel, and the rendering is then 100.00. *)
Theorem percent_filled_range
  (cfg : list (string * CurveValidator.CurveInfo))
  (las : CurveValidator.LasHandle)
  (available : gmap string CurveValidator.Curve)
  (key : string) (info : CurveValidator.CurveInfo)
  (name : string) (data : list float) (curve_obj : CurveValidator.Curve) :
  List.NoDup (map fst cfg) -> In (key, info) cfg ->
  CurveValidator.available_curves las = Ok available ->
  CurveValidator.resolved
    (CurveValidator._find_curve_alias (CurveValidator.aliases info) available)
    = Some name ->
  CurveValidator.getitem las name = Ok data ->
  CurveValidator.curves_getitem las name = Ok curve_obj ->
  data <> [] -> Z.of_nat (length data) < 2 ^ 53 ->
  let valid_points :=
    Z.of_nat (length (List.filter (fun x => negb (x =? -999.25)%float) data)) in
  let total_points := Z.of_nat (length data) in
  let p := (int_truediv valid_points total_points * 100)%float in
  exists details d,
    CurveValidator.get_detailed_curve_info (CurveValidator.init cfg) las
    = Ok details
    /\ details !! key = Some d
    /\ CurveValidator.found d = true
    /\ CurveValidator.percent_filled d = format_f 2 p
    /\ (0 <=? p)%float = true /\ (p <=? 100)%float = true
    /\ (p = 100%float <->
        Forall (fun x => (x =? -999.25)%float = false) data)
    /\ (Forall (fun x => (x =? -999.25)%float = false) data ->
        CurveValidator.percent_filled d = "100.00").
Proof.
  intros Hnd Hin Hav Hres Hget Hcurve Hne Hlen valid_points total_points p.
  destruct (get_detailed_curve_info_entry cfg las available key info Hnd Hin Hav)
    as (details & Hdet & Hdkey).
  set (self := CurveValidator.init cfg) in *.
  assert (Ek : valid_points
               = Z.of_nat (length (CurveValidator.valid_samples self data)))
    by reflexivity.
  assert (Hn : 0 < total_points)
    by (unfold total_points; destruct data; [done | cbn [length]; lia]).
  assert (Hk : 0 <= valid_points <= total_points)
    by (rewrite Ek; unfold total_points;
        pose proof (valid_samples_length self data); lia).
  assert (Hentry : exists d,
            CurveValidator.detail_entry self las available info = d
            /\ CurveValidator.found d = true
            /\ CurveValidator.percent_filled d = format_f 2 p).
  { unfold CurveValidator.detail_entry. rewrite Hres, Hget. cbn [mbind result_bind].
    rewrite <- Ek. fold total_points. unfold CurveValidator.percent_of.
    replace (0 <? total_points) with true by (symmetry; apply Z.ltb_lt; lia).
    fold p.
    destruct (CurveValidator.valid_samples self data) as [|x rest];
      cbn [length Nat.ltb Nat.leb nanmin nanmax mbind result_bind]; rewrite ?Hcurve;
      cbn [mbind result_bind]; eexists; (split; [reflexivity|]); split; reflexivity. }
  destruct Hentry as (d & Ed & Hfound & Hpct).
  exists details, d.
  destruct (percent_bounds valid_points total_points Hk ltac:(unfold total_points; lia))
    as [Hlo Hhi].
  assert (Hiff : p = 100%float <->
                 Forall (fun x => (x =? -999.25)%float = false) data).
  { unfold p.
    rewrite (percent_100_iff valid_points total_points Hk
               ltac:(unfold total_points; lia)).
    pose proof (valid_samples_full self data) as Hfull. rewrite Ek. unfold total_points.
    split; intros H; [apply Hfull; lia | apply Hfull in H; lia]. }
  split; [exact Hdet|]. split; [now rewrite Hdkey, Ed|].
  split; [exact Hfound|]. split; [exact Hpct|].
  split; [exact Hlo|]. split; [exact Hhi|]. split; [exact Hiff|].
  intros Hall. apply Hiff in Hall. rewrite Hpct, Hall. reflexivity.
Qed.

Lemma percent_filled_range_witness :
  let valid_points :=
    Z.of_nat (length (List.filter (fun x => negb (x =? -999.25)%float)
                        [1.5; -999.25; 0.125; 20]%float)) in
  let total_points := Z.of_nat (length [1.5; -999.25; 0.125; 20]%float) in
  let p := (int_truediv valid_points total_points * 100)%float in
  exists details d,
    CurveValidator.get_detailed_curve_info (CurveValidator.init Samples.config)
      Samples.las = Ok details
    /\ details !! "RES" = Some d
    /\ CurveValidator.found d = true
    /\ CurveValidator.percent_filled d = format_f 2 p
    /\ (0 <=? p)%float = true /\ (p <=? 100)%float = true
    /\ (p = 100%float <->
        Forall (fun x => (x =? -999.25)%float = false)
          [1.5; -999.25; 0.125; 20]%float)
    /\ (Forall (fun x => (x =? -999.25)%float = false)
          [1.5; -999.25; 0.125; 20]%float ->
        CurveValidator.percent_filled d = "100.00").
Proof.
  refine (percent_filled_range Samples.config Samples.las
              Samples.available "RES"
              {| CurveValidator.aliases := ["RD"; "RT"];
                 CurveValidator.description := "Deep resistivity" |}
              "RD" [1.5; -999.25; 0.125; 20]%float
              {| CurveValidator.mnemonic := Ok "RD";
                 CurveValidator.unit := Some "ohm.m" |}
              _ _ _ _ _ _ _ _).
  - repeat constructor; cbn; intuition discriminate.
  - cbn. tauto.
  - vm_compute. reflexivity.
  - vm_compute. reflexivity.
  - reflexivity.
  - reflexivity.
  - discriminate.
  - cbn. lia.
Defined.

(** C8, as stated, fails in one direction: the report is rounded to two
    decimals, so a curve of 20000 samples of which one is the null sentinel
    is reported as filled to 100.00, although its percentage,
    19999 / 20000 * 100, is below 100: it is the rendering of 99.995. *)
Lemma percent_filled_rounds_up :
  exists details d,
    CurveValidator.getitem Samples.las_one_null "RD"
    = Ok (repeat 1%float (Z.to_nat 19999) ++ [(-999.25)%float])
    /\ Exists (fun x => (x =? -999.25)%float = true)
         (repeat 1%float (Z.to_nat 19999) ++ [(-999.25)%float])
    /\ CurveValidator.get_detailed_curve_info
         (CurveValidator.init Samples.config) Samples.las_one_null = Ok details
    /\ details !! "RES" = Some d
    /\ CurveValidator.d_mnemonic d = "RD"
    /\ CurveValidator.percent_filled d = "100.00"
    /\ CurveValidator.percent_of 19999 20000
       = (int_truediv 19999 20000 * 100)%float
    /\ (CurveValidator.percent_of 19999 20000 <? 100)%float = true
    /\ format_f 3 (CurveValidator.percent_of 19999 20000) = "99.995"
    /\ format_f 2 (CurveValidator.percent_of 19999 20000) = "100.00".
Proof.
  eexists. eexists.
  split; [reflexivity|].
  split.
  { apply List.Exists_exists. exists (-999.25)%float.
    split; [apply in_or_app; right; left; reflexivity | reflexivity]. }
  split; [vm_compute; reflexivity|].
  split; [vm_compute; reflexivity|].
  split; [reflexivity|]. split; [reflexivity|].
  split; [reflexivity|].
  split; [vm_compute; reflexivity|].
  split; vm_compute; reflexivity.
Qed.

(** ** Exceptions at the public entry points *)

Lemma validate_las_file_Ok_iff (cfg : list (string * CurveValidator.CurveInfo))
  (las : CurveValidator.LasHandle) :
  is_Ok (CurveValidator.validate_las_file (CurveValidator.init cfg) las)
  <-> CurveValidator.curves_readable las.
Proof.
  rewrite <- available_curves_readable.
  unfold CurveValidator.validate_las_file.
  destruct (CurveValidator.available_curves las) as [available|e]; cbn.
  - split; intros _; eexists; reflexivity.
  - split; intros [? [=]].
Qed.

Lemma get_detailed_curve_info_Ok_iff
  (cfg : list (string * CurveValidator.CurveInfo))
  (las : CurveValidator.LasHandle) :
  is_Ok (CurveValidator.get_detailed_curve_info (CurveValidator.init cfg) las)
  <-> CurveValidator.curves_readable las.
Proof.
  rewrite <- available_curves_readable.
  unfold CurveValidator.get_detailed_curve_info.
  destruct (CurveValidator.available_curves las) as [available|e]; cbn.
  - split; intros _; eexists; reflexivity.
  - split; intros [? [=]].
Qed.

Ltac lookup_inserts :=
  repeat (rewrite lookup_insert_ne by discriminate);
  first [apply lookup_insert_eq | apply lookup_empty
        | rewrite lookup_insert_eq; eexists; reflexivity ].

Lemma get_comprehensive_info_guarded (np_std : list float -> float)
  (stats : Seismic2D.Statistics) (basename : string -> string)
  (segy : SegyHandle) :
  let info := Seismic2D.get_comprehensive_info np_std stats basename segy in
  info !! "Filename" = Some (Seismic2D.basename_or_na segy basename)
  /\ match Seismic2D.first_raise segy with
     | Some e =>
         info !! "Error"
         = Some ("Error extracting comprehensive info: " +:+ str_exn e)
     | None => info !! "Error" = None /\ is_Some (info !! "Est. SNR (dB)")
     end.
Proof.
  unfold Seismic2D.get_comprehensive_info, Seismic2D.comprehensive_body,
    Seismic2D.first_raise, Seismic2D.and_then, Seismic2D.set_key,
    Seismic2D.access.
  destruct (bin segy Format) as [format_code|e1];
    [destruct (tracecount segy) as [n|e2];
     [destruct (samples_size segy) as [size|e3];
      [destruct (bin segy Interval) as [raw|e4]|]|]|].
  1: destruct (Seismic2D._calculate_amplitude_stats stats segy) as [[amp_min amp_max] amp_rms];
     destruct (Seismic2D._calculate_trace_spacing stats segy) as [[sp1 sp2] sp3];
     destruct (Seismic2D._calculate_signal_statistics stats segy)
       as [[[[s1 s2] s3] s4] s5].
  all: cbv beta iota zeta.
  - split; [lookup_inserts|]. split; lookup_inserts.
  - split; lookup_inserts.
  - split; lookup_inserts.
  - split; lookup_inserts.
  - split; lookup_inserts.
Qed.

(** On a handle none of whose accesses succeeds the mapping holds the two
    entries written before the first access and the error. *)
Example get_comprehensive_info_closed_file :
  Seismic2D.get_comprehensive_info Samples.std Samples.stats
    (fun path => path) Samples.closed_file
  = <["Error" :=
        "Error extracting comprehensive info: I/O operation on closed file"]>
      (<["Line Name" := "N/A"]> (<["Filename" := "N/A"]> ∅)).
Proof. vm_compute. reflexivity. Qed.

(** C2, as the code has it.  The two curve-validation entry points return
    a mapping exactly when the curves of the handle can be enumerated and
    their mnemonics read, whatever the reads of curve data do; the 2D
    [get_comprehensive_info] returns a mapping for every handle, holding
    the file name and, when one of its accesses raises, the message of that
    exception under the key Error. *)
Theorem validators_guard_exceptions
  (np_std : list float -> float) (stats : Seismic2D.Statistics)
  (basename : string -> string)
  (cfg : list (string * CurveValidator.CurveInfo))
  (las : CurveValidator.LasHandle) (segy : SegyHandle) :
  (is_Ok (CurveValidator.validate_las_file (CurveValidator.init cfg) las)
   <-> CurveValidator.curves_readable las)
  /\ (is_Ok (CurveValidator.get_detailed_curve_info (CurveValidator.init cfg) las)
      <-> CurveValidator.curves_readable las)
  /\ (let info := Seismic2D.get_comprehensive_info np_std stats basename segy in
      info !! "Filename" = Some (Seismic2D.basename_or_na segy basename)
      /\ match Seismic2D.first_raise segy with
         | Some e =>
             info !! "Error"
             = Some ("Error extracting comprehensive info: " +:+ str_exn e)
         | None => info !! "Error" = None /\ is_Some (info !! "Est. SNR (dB)")
         end).
Proof.
  split; [apply validate_las_file_Ok_iff|].
  split; [apply get_detailed_curve_info_Ok_iff|].
  apply get_comprehensive_info_guarded.
Qed.

(** C2, as stated, fails: on an object without a [curves] attribute both
    curve-validation entry points raise. *)
Lemma curve_entry_points_raise :
  ~ (forall (cfg : list (string * CurveValidator.CurveInfo))
            (las : CurveValidator.LasHandle),
       is_Ok (CurveValidator.validate_las_file (CurveValidator.init cfg) las)
       /\ is_Ok (CurveValidator.get_detailed_curve_info
                   (CurveValidator.init cfg) las)).
Proof.
  intros H.
  destruct (H Samples.config Samples.las_without_curves) as [[results Hr] _].
  discriminate Hr.
Qed.

(** ** Dead traces *)





(** ** Endianness *)

(** C9.  When the binary header of the handle can be read, the 2D validator
    reports "Little Endian" if the raw sample-interval field lies in
    [100, 100000] and "Big Endian (possible)" otherwise; the 3D validator
    reports "Big Endian (SEG-Y standard)" whatever the header holds. *)
Theorem endianness_reports (segy : SegyHandle)
  (format_code sorting_code interval : Z) (fmt : string) :
  bin segy Format = Ok format_code ->
  bin segy SortingCode = Ok sorting_code ->
  bin segy Interval = Ok interval ->
  format segy = Ok fmt ->
  (100 <= interval <= 100000 ->
   Seismic2D.b_endian (Seismic2D._get_binary_header_info segy)
   = "Little Endian")
  /\ (~ 100 <= interval <= 100000 ->
      Seismic2D.b_endian (Seismic2D._get_binary_header_info segy)
      = "Big Endian (possible)")
  /\ Seismic3D._extract_binary_header segy !! "Endian Type"
     = Some "Big Endian (SEG-Y standard)".
Proof.
  intros Hf Hs Hi Hfmt.
  unfold Seismic2D._get_binary_header_info, Seismic2D.detect_endian,
    Seismic3D._extract_binary_header.
  rewrite Hf, Hs, Hi, Hfmt. cbn [mbind result_bind Seismic2D.b_endian].
  split; [|split].
  - intros [H1 H2].
    apply Z.leb_le in H1, H2. now rewrite H1, H2.
  - intros Hnot.
    destruct (100 <=? interval) eqn:E1; [|reflexivity].
    destruct (interval <=? 100000) eqn:E2; [|reflexivity].
    apply Z.leb_le in E1, E2. lia.
  - lookup_inserts.
Qed.

Lemma endianness_reports_witness :
  (100 <= 2000 <= 100000 ->
   Seismic2D.b_endian (Seismic2D._get_binary_header_info Samples.line6)
   = "Little Endian")
  /\ (~ 100 <= 2000 <= 100000 ->
      Seismic2D.b_endian (Seismic2D._get_binary_header_info Samples.line6)
      = "Big Endian (possible)")
  /\ Seismic3D._extract_binary_header Samples.line6 !! "Endian Type"
     = Some "Big Endian (SEG-Y standard)".
Proof.
  apply (endianness_reports Samples.line6 5 4 2000 "5"); reflexivity.
Defined.

(** ** Null-trace extrapolation *)

Example linspace_int_samples :
  linspace_int 5 6 = [0; 1; 2; 3; 4; 5]
  /\ linspace_int 999 10 = [0; 111; 222; 333; 444; 555; 666; 777; 888; 999]
  /\ linspace_int 0 1 = [0]
  /\ linspace_int (-1) 0 = []
  /\ range_step 10 3 = [0; 3; 6; 9].
Proof. repeat split; vm_compute; reflexivity. Qed.

Lemma linspace_int_length (stop num : Z) :
  0 <= num -> Z.of_nat (length (linspace_int stop num)) = num.
Proof.
  intros Hnum. unfold linspace_int.
  destruct (num <=? 0) eqn:E.
  - apply Z.leb_le in E. cbn [length]. lia.
  - rewrite length_map, length_seqZ. lia.
Qed.

Lemma range_step_length (n step : Z) :
  0 < step -> 0 < n -> (0 < length (range_step n step))%nat.
Proof.
  intros Hs Hn. unfold range_step. rewrite length_map, length_seqZ.
  assert (1 <= (n + step - 1) / step); [|lia].
  apply Z.div_le_lower_bound; lia.
Qed.

Lemma filter_count_le {A} (f : A -> bool) (l : list A) :
  0 <= Z.of_nat (length (List.filter f l)) <= Z.of_nat (length l).
Proof. pose proof (List.filter_length_le f l). lia. Qed.

(** C3, as the code has it.  For a handle with a positive trace count whose
    sampled traces can be read, the estimate is the truncation toward zero
    of the binary64 product of the dead fraction of the sample and the trace
    count.  The 3D trace-quality pass reports it together with the trace
    count minus it, and the two sum to the trace count; the 2D detector
    reports the estimate alone. *)
Theorem null_trace_extrapolation (np_std : list float -> float)
  (segy : SegyHandle) (n : Z) (indices : list Z)
  (traces3 traces2 : list (list float)) :
  tracecount segy = Ok n -> 0 < n < 2 ^ 53 ->
  Seismic3D.sample_indices n (Z.min 100 n) = Ok indices ->
  for_each (trace segy) indices = Ok traces3 ->
  Seismic3D.as_matrix traces3 = Ok traces3 ->
  Seismic2D.sampled_traces segy n 100 = Ok traces2 ->
  let dead3 := Z.of_nat (length (List.filter Seismic3D.is_zero_trace traces3)) in
  let sampled3 := Z.of_nat (length traces3) in
  let dead2 := Z.of_nat (length (List.filter (Seismic2D.is_dead np_std) traces2)) in
  let sampled2 := Z.of_nat (length traces2) in
  exists est3 est2,
    int_of_float (int_truediv dead3 sampled3 * float_of_Z n)%float = Ok est3
    /\ Seismic3D._extract_trace_quality segy !! "Null/Dead Traces"
       = Some (str_of_Z est3)
    /\ Seismic3D._extract_trace_quality segy !! "Valid Traces"
       = Some (str_of_Z (n - est3))
    /\ est3 + (n - est3) = n
    /\ int_of_float (int_truediv dead2 sampled2 * float_of_Z n)%float = Ok est2
    /\ fst (Seismic2D._analyze_null_traces np_std segy) = est2.
Proof.
  intros Hn Hpos Hidx Hread3 Hmat Hread2 dead3 sampled3 dead2 sampled2.
  (* the 3D sample is not empty *)
  assert (Hs3 : 0 < sampled3 <= 100).
  { unfold sampled3. rewrite (for_each_length _ _ _ Hread3).
    unfold Seismic3D.sample_indices in Hidx.
    destruct (Z.min 100 n =? 0) eqn:E; [discriminate|]. injection Hidx as <-.
    rewrite length_take.
    pose proof (range_step_length n (Z.max 1 (n / Z.min 100 n)) ltac:(lia) ltac:(lia)).
    lia. }
  assert (Hd3 : 0 <= dead3 <= sampled3) by apply filter_count_le.
  destruct (estimate_defined dead3 sampled3 n Hd3 ltac:(lia) Hpos) as [est3 He3].
  (* the 2D sample has min(100, n) traces *)
  assert (Hs2 : sampled2 = Z.min 100 n).
  { unfold sampled2. unfold Seismic2D.sampled_traces in Hread2.
    rewrite (for_each_length _ _ _ Hread2). apply linspace_int_length. lia. }
  assert (Hd2 : 0 <= dead2 <= sampled2) by apply filter_count_le.
  destruct (estimate_defined dead2 sampled2 n Hd2 ltac:(lia) Hpos) as [est2 He2].
  exists est3, est2.
  assert (Hq : Seismic3D._extract_trace_quality segy
               = <["Valid Traces" := str_of_Z (n - est3)]>
                   (<["Null/Dead Traces" := str_of_Z est3]> ∅)).
  { unfold Seismic3D._extract_trace_quality. rewrite Hn. cbn [mbind result_bind].
    rewrite Hidx. cbn [mbind result_bind]. rewrite Hread3. cbn [mbind result_bind].
    rewrite Hmat. cbn [mbind result_bind]. unfold Seismic3D.estimate.
    fold dead3 sampled3. rewrite He3. reflexivity. }
  split; [exact He3|]. rewrite Hq.
  split; [lookup_inserts|]. split; [lookup_inserts|]. split; [lia|].
  split; [exact He2|].
  unfold Seismic2D._analyze_null_traces. rewrite Hn. cbn [mbind result_bind].
  rewrite Hread2. cbn [mbind result_bind]. unfold Seismic2D.estimate.
  fold dead2. rewrite <- Hs2.
  replace (sampled2 =? 0) with false by (symmetry; apply Z.eqb_neq; lia).
  rewrite He2. reflexivity.
Qed.

Lemma null_trace_extrapolation_witness :
  exists est3 est2,
    int_of_float (int_truediv 3 100 * float_of_Z 125)%float = Ok est3
    /\ Seismic3D._extract_trace_quality Samples.volume125 !! "Null/Dead Traces"
       = Some (str_of_Z est3)
    /\ Seismic3D._extract_trace_quality Samples.volume125 !! "Valid Traces"
       = Some (str_of_Z (125 - est3))
    /\ est3 + (125 - est3) = 125
    /\ int_of_float (int_truediv 3 100 * float_of_Z 125)%float = Ok est2
    /\ fst (Seismic2D._analyze_null_traces Samples.std Samples.volume125) = est2.
Proof.
  refine (null_trace_extrapolation Samples.std Samples.volume125 125
            (seqZ 0 100)
            (repeat [0; 0; 0]%float 3 ++ repeat [1; 2; 3]%float 97)
            (repeat [0; 0; 0]%float 3 ++ repeat [1; 2; 3]%float 97)
            _ _ _ _ _ _).
  - reflexivity.
  - lia.
  - vm_compute. reflexivity.
  - vm_compute. reflexivity.
  - vm_compute. reflexivity.
  - vm_compute. reflexivity.
Defined.

(** C3, as stated, fails: on a volume of 125 traces whose sample of 100
    traces holds 3 dead ones, the product of the dead fraction and the trace
    count is 3.75, which rounds to 4; both validators report 3. *)
Lemma null_estimate_truncates :
  Seismic3D.sample_indices 125 (Z.min 100 125) = Ok (seqZ 0 100)
  /\ (exists traces,
        for_each (trace Samples.volume125) (seqZ 0 100) = Ok traces
        /\ length traces = 100%nat
        /\ length (List.filter Seismic3D.is_zero_trace traces) = 3%nat)
  /\ round_of_float (int_truediv 3 100 * float_of_Z 125)%float = Ok 4
  /\ Seismic3D._extract_trace_quality Samples.volume125 !! "Null/Dead Traces"
     = Some "3"
  /\ Seismic3D._extract_trace_quality Samples.volume125 !! "Valid Traces"
     = Some "122"
  /\ fst (Seismic2D._analyze_null_traces Samples.std Samples.volume125) = 3.
Proof.
  split; [vm_compute; reflexivity|].
  split; [eexists; split; [vm_compute; reflexivity|]; split; vm_compute; reflexivity|].
  repeat split; vm_compute; reflexivity.
Qed.

Lemma distance_triangle (p q r : Z * Z) :
  (ExactGeometry.distance p r
   <= ExactGeometry.distance p q + ExactGeometry.distance q r)%R.
Proof. unfold ExactGeometry.distance. apply triangle. Qed.

Lemma distance_self (p : Z * Z) : ExactGeometry.distance p p = 0%R.
Proof.
  unfold ExactGeometry.distance, dist_euc.
  rewrite !Rminus_diag. unfold Rsqr. rewrite Rmult_0_l, Rplus_0_l. apply sqrt_0.
Qed.

Lemma path_length_ge_straight (coords : list (Z * Z)) :
  (ExactGeometry.straight_distance coords <= ExactGeometry.path_length coords)%R.
Proof.
  unfold ExactGeometry.straight_distance.
  destruct coords as [|p rest]; [cbn; rewrite distance_self; apply Rle_refl|].
  cbn [hd]. revert p. induction rest as [|q rest IH]; intros p.
  - cbn. rewrite distance_self. apply Rle_refl.
  - change (List.last (p :: q :: rest) (0, 0)) with (List.last (q :: rest) (0, 0)).
    cbn [ExactGeometry.path_length].
    eapply Rle_trans; [apply (distance_triangle p q)|].
    apply Rplus_le_compat_l. apply IH.
Qed.

Lemma exact_sinuosity_ge_1 (coords : list (Z * Z)) :
  (1 <= ExactGeometry.sinuosity coords)%R.
Proof.
  unfold ExactGeometry.sinuosity.
  destruct (Rlt_dec 0 (ExactGeometry.straight_distance coords)) as [Hpos|_];
    [|apply Rle_refl].
  apply (Rmult_le_reg_r (ExactGeometry.straight_distance coords)); [exact Hpos|].
  unfold Rdiv. rewrite Rmult_assoc, Rinv_l, Rmult_1_l, Rmult_1_r.
  - apply path_length_ge_straight.
  - apply Rgt_not_eq. exact Hpos.
Qed.

(** ** Comparisons of floats *)

Lemma SFcompare_antisym (x y : spec_float) :
  SFcompare y x = option_map CompOpp (SFcompare x y).
Proof.
  destruct x as [[]|[]| |[] mx ex], y as [[]|[]| |[] my ey]; try reflexivity;
    cbn [SFcompare option_map];
    rewrite (Z.compare_antisym ex ey);
    destruct (ex ?= ey); cbn [CompOpp]; try reflexivity;
    rewrite (Pos.compare_cont_antisym mx my Eq); cbn [CompOpp]; reflexivity.
Qed.

Lemma leb_not_ltb (a s : float) :
  (a <=? s)%float = true -> (s <? a)%float = false.
Proof.
  rewrite leb_spec, ltb_spec. unfold SFleb, SFltb.
  rewrite (SFcompare_antisym (Prim2SF a) (Prim2SF s)).
  destruct (SFcompare (Prim2SF a) (Prim2SF s)) as [[]|]; cbn; congruence.
Qed.

Lemma leb_trans_const (a b : float) (ma mb : positive) (s : float) :
  Prim2SF a = S754_finite false ma (-52) ->
  Prim2SF b = S754_finite false mb (-52) ->
  Zpos ma <= Zpos mb ->
  (b <=? s)%float = true -> (a <=? s)%float = true.
Proof.
  intros Ha Hb Hle. rewrite !leb_spec, Ha, Hb. unfold SFleb.
  destruct (Prim2SF s) as [[]|[]| |[] m e]; cbn [SFcompare]; try done.
  destruct (Z.compare_spec (-52) e); try done.
  rewrite !Pos.compare_cont_spec.
  destruct (Pos.compare_spec mb m); destruct (Pos.compare_spec ma m);
    cbn [Pos.switch_Eq]; intros; try reflexivity; try discriminate; lia.
Qed.

(** ** Line geometry *)

Lemma geometry_of_coords_fields (coords : list (Z * Z)) (g : Seismic2D.Geometry) :
  Seismic2D.geometry_of_coords coords = Ok g ->
  Seismic2D.shape g = Seismic2D.classify_shape (Seismic2D.sinuosity g)
  /\ ((0 <? Seismic2D.straight_dist g)%float = false ->
      Seismic2D.sinuosity g = 1%float).
Proof.
  unfold Seismic2D.geometry_of_coords.
  destruct (hd (0, 0) coords) as [x0 y0], (List.last coords (0, 0)) as [xl yl].
  destruct (Seismic2D.np_sqrt_int _) as [d|e]; [|discriminate].
  cbn [mbind result_bind]. intros [= <-]. cbn [Seismic2D.shape Seismic2D.sinuosity
    Seismic2D.straight_dist]. split; [reflexivity|]. now intros ->.
Qed.

(** C7, as the code has it.  Over the real numbers the path length is
    never below the straight-line distance, so the quotient of the two
    (1 when the straight distance is zero) is at least 1; the binary64
    quotient the code computes is 1 when the straight distance is not
    positive.  The shape is read off the computed sinuosity with bands that
    are closed below: below 1.05 is "Straight", from 1.05 to below 1.2 is
    "Nearly Straight", from 1.2 to below 1.5 is "Curved", and from 1.5 on
    is "Highly Curved". *)
Theorem sinuosity_and_shape (coords : list (Z * Z)) :
  (1 <= ExactGeometry.sinuosity coords)%R
  /\ (forall g, Seismic2D.geometry_of_coords coords = Ok g ->
        Seismic2D.shape g = Seismic2D.classify_shape (Seismic2D.sinuosity g)
        /\ ((0 <? Seismic2D.straight_dist g)%float = false ->
            Seismic2D.sinuosity g = 1%float))
  /\ Seismic2D.classify_shape 0x1.0cccccccccccdp+0 = "Nearly Straight"
  /\ (forall s : float,
        ((s <? 0x1.0cccccccccccdp+0)%float = true ->
         Seismic2D.classify_shape s = "Straight")
        /\ ((0x1.0cccccccccccdp+0 <=? s)%float = true ->
            (s <? 0x1.3333333333333p+0)%float = true ->
            Seismic2D.classify_shape s = "Nearly Straight")
        /\ ((0x1.3333333333333p+0 <=? s)%float = true ->
            (s <? 1.5)%float = true ->
            Seismic2D.classify_shape s = "Curved")
        /\ ((1.5 <=? s)%float = true ->
            Seismic2D.classify_shape s = "Highly Curved")).
Proof.
  split; [apply exact_sinuosity_ge_1|].
  split; [intros g; apply geometry_of_coords_fields|].
  split; [reflexivity|].
  intros s. unfold Seismic2D.classify_shape. repeat split.
  - now intros ->.
  - intros H1 H2. now rewrite (leb_not_ltb _ _ H1), H2.
  - intros H1 H2.
    assert (H0 : (0x1.0cccccccccccdp+0 <=? s)%float = true)
      by (apply (leb_trans_const 0x1.0cccccccccccdp+0 0x1.3333333333333p+0 4728779608739021
                   5404319552844595 s eq_refl eq_refl); [lia | exact H1]).
    now rewrite (leb_not_ltb _ _ H0), (leb_not_ltb _ _ H1), H2.
  - intros H1.
    assert (H2 : (0x1.3333333333333p+0 <=? s)%float = true)
      by (apply (leb_trans_const 0x1.3333333333333p+0 1.5 5404319552844595
                   6755399441055744 s eq_refl eq_refl); [lia | exact H1]).
    assert (H0 : (0x1.0cccccccccccdp+0 <=? s)%float = true)
      by (apply (leb_trans_const 0x1.0cccccccccccdp+0 1.5 4728779608739021
                   6755399441055744 s eq_refl eq_refl); [lia | exact H1]).
    now rewrite (leb_not_ltb _ _ H0), (leb_not_ltb _ _ H2), (leb_not_ltb _ _ H1).
Qed.

(** C7, as stated, fails: on the line of six traces whose coordinates are
    (3,3), (6,6), ..., (18,18) the six points are collected, the five
    segments sum to 21.213203435596423 while the straight distance is
    21.213203435596427, and the computed sinuosity is below 1. *)
Lemma sinuosity_below_one :
  exists coords g,
    Seismic2D.collect_coords Samples.line6 6 (CDP_X, CDP_Y) = Ok coords
    /\ coords = [(3, 3); (6, 6); (9, 9); (12, 12); (15, 15); (18, 18)]
    /\ Seismic2D.geometry_of_coords coords = Ok g
    /\ (Seismic2D.sinuosity g <? 1)%float = true
    /\ (1 <=? Seismic2D.sinuosity g)%float = false
    /\ Seismic2D.g_shape (Seismic2D._calculate_line_geometry Samples.line6)
       = "Straight".
Proof.
  eexists. eexists.
  split; [vm_compute; reflexivity|].
  split; [reflexivity|].
  split; [vm_compute; reflexivity|].
  repeat split; vm_compute; reflexivity.
Qed.

(** * Further properties of the scanners and validators *)

(** ** File discovery, continued *)

Section ScannerFacts.
Import FileScanner.

Lemma filtered_out_false (self : Scanner) (f : string) :
  filtered_out self f = false <->
  (filter_enabled self = true -> filter_text self <> EmptyString ->
   contains (upper (filter_text self)) (upper f) = true).
Proof.
  unfold filtered_out. destruct (filter_enabled self); cbn [andb].
  - destruct (filter_text self) as [|c t]; cbn [truthy_str].
    + split; [intros _ _ H; now destruct H | reflexivity].
    + rewrite negb_false_iff. split; [intros H _ _; exact H | intros H; now apply H].
  - split; [intros _ H; discriminate | reflexivity].
Qed.

Lemma scan_walk_In (os : OS) (self : Scanner) (ext : string -> bool) (p : string) :
  In p (scan_walk os self ext) <->
  exists dirpath dirnames filenames filename,
    In (dirpath, dirnames, filenames) (walk os (root_folder self))
    /\ In filename filenames
    /\ p = path_join os dirpath filename
    /\ ext filename = true
    /\ filtered_out self filename = false.
Proof.
  unfold scan_walk. rewrite List.in_flat_map. split.
  - intros ([[dirpath dirnames] filenames] & Hw & Hp).
    rewrite List.in_flat_map in Hp. destruct Hp as (filename & Hf & Hp).
    destruct (ext filename) eqn:E; [|destruct Hp].
    destruct (filtered_out self filename) eqn:F; [destruct Hp|].
    destruct Hp as [<-|[]].
    exists dirpath, dirnames, filenames, filename. tauto.
  - intros (dirpath & dirnames & filenames & filename & Hw & Hf & -> & E & F).
    exists (dirpath, dirnames, filenames). split; [exact Hw|].
    rewrite List.in_flat_map. exists filename. split; [exact Hf|].
    rewrite E, F. now left.
Qed.

Lemma scan_listed (os : OS) (self : Scanner) (ext : string -> bool)
  (files : list string) (p : string) :
  In p (if negb (isdir os (root_folder self)) then []
        else scan_walk os (set_found self files) ext)
  <-> Listing.listed os self ext p.
Proof.
  unfold Listing.listed. destruct (isdir os (root_folder self)); cbn [negb].
  - rewrite scan_walk_In. cbn [set_found root_folder]. split.
    + intros (d & ds & fs & f & Hw & Hf & Hp & E & F). split; [reflexivity|].
      exists d, ds, fs, f.
      pose proof (proj1 (filtered_out_false _ _) F) as F'.
      cbn [set_found filter_enabled filter_text] in F'. tauto.
    + intros (_ & d & ds & fs & f & Hw & Hf & Hp & E & F).
      exists d, ds, fs, f. repeat (split; [assumption|]).
      apply (filtered_out_false (set_found self files)). exact F.
  - split; [intros [] | intros [[=] _]].
Qed.

Lemma scan_names_sublist (os : OS) (self : Scanner) (ext : string -> bool)
  (dirpath : string) (filenames : list string) :
  flat_map
    (fun filename =>
       if ext filename then
         if filtered_out self filename then []
         else [path_join os dirpath filename]
       else [])
    filenames
  `sublist_of` map (path_join os dirpath) (List.filter ext filenames).
Proof.
  induction filenames as [|f rest IH]; [constructor|].
  cbn [flat_map List.filter]. destruct (ext f); [|exact IH].
  cbn [map]. destruct (filtered_out self f); cbn [app].
  - now apply sublist_cons.
  - now apply sublist_skip.
Qed.

Lemma scan_walk_sublist (os : OS) (self : Scanner) (ext : string -> bool) :
  scan_walk os self ext `sublist_of` all_matching os (root_folder self) ext.
Proof.
  unfold scan_walk, all_matching.
  induction (walk os (root_folder self)) as [|[[dirpath dirnames] filenames] rest IH];
    [constructor|].
  cbn [flat_map]. apply sublist_app; [apply scan_names_sublist | exact IH].
Qed.

End ScannerFacts.

(** ** Letter case *)

Lemma upper_upper_ascii (c : ascii) : upper_ascii (upper_ascii c) = upper_ascii c.
Proof. destruct c as [[] [] [] [] [] [] [] []]; reflexivity. Qed.

Lemma upper_upper (s : string) : upper (upper s) = upper s.
Proof.
  induction s as [|c t IH]; [reflexivity|].
  cbn [upper]. now rewrite upper_upper_ascii, IH.
Qed.

Lemma truthy_upper (s : string) : truthy_str (upper s) = truthy_str s.
Proof. now destruct s. Qed.

(** The filter test reads the filter text through its upper-case form
    only. *)
Lemma filtered_out_upper (self self' : FileScanner.Scanner) (f : string) :
  FileScanner.filter_enabled self' = FileScanner.filter_enabled self ->
  upper (FileScanner.filter_text self') = upper (FileScanner.filter_text self) ->
  FileScanner.filtered_out self' f = FileScanner.filtered_out self f.
Proof.
  intros He Hu. unfold FileScanner.filtered_out. rewrite He, Hu.
  rewrite <- (truthy_upper (FileScanner.filter_text self')), Hu, truthy_upper.
  reflexivity.
Qed.

Lemma scan_walk_ext (os : FileScanner.OS) (self self' : FileScanner.Scanner)
  (ext : string -> bool) :
  FileScanner.root_folder self' = FileScanner.root_folder self ->
  (forall f, FileScanner.filtered_out self' f = FileScanner.filtered_out self f) ->
  FileScanner.scan_walk os self' ext = FileScanner.scan_walk os self ext.
Proof.
  intros Hroot Hfilter. unfold FileScanner.scan_walk. rewrite Hroot.
  induction (FileScanner.walk os (FileScanner.root_folder self))
    as [|[[dirpath dirnames] filenames] rest IH]; [reflexivity|].
  cbn [flat_map]. rewrite IH. f_equal.
  induction filenames as [|f fs IHf]; [reflexivity|].
  cbn [flat_map]. now rewrite IHf, Hfilter.
Qed.

(** X1.  What the scanners list.  A path is returned by
    [find_all_las_files] exactly when the root folder is an existing directory
    and the path joins a directory of the walk with one of its file names,
    that name ends in .las whatever the case of its letters and, if the
    filter is enabled with a non-empty text, holds that text whatever the case
    of the letters.  The same holds of [find_all_segy_files] with the endings
    .sgy and .segy. *)
Theorem scanners_list_exactly (os : FileScanner.OS)
  (self : FileScanner.Scanner) (p : string) :
  (In p (snd (FileScanner.find_all_las_files os self))
   <-> Listing.listed os self FileScanner.is_las p)
  /\ (In p (snd (FileScanner.find_all_segy_files os self))
      <-> Listing.listed os self FileScanner.is_segy p).
Proof.
  split.
  - rewrite <- (scan_listed os self FileScanner.is_las []).
    unfold FileScanner.find_all_las_files. cbn [FileScanner.set_found FileScanner.root_folder].
    now destruct (FileScanner.isdir os (FileScanner.root_folder self)).
  - rewrite <- (scan_listed os self FileScanner.is_segy []).
    unfold FileScanner.find_all_segy_files. cbn [FileScanner.set_found FileScanner.root_folder].
    now destruct (FileScanner.isdir os (FileScanner.root_folder self)).
Qed.

(** X2.  The scanners read the filter text through its upper-case form
    only: two filter texts with the same upper-case form give the same list
    with either scanner, and so do a filter text and its upper-case form. *)
Theorem filter_text_case_ignored (os : FileScanner.OS) (root text1 text2 : string)
  (enabled : bool) :
  upper text1 = upper text2 ->
  snd (FileScanner.find_all_las_files os (FileScanner.init root text1 enabled))
  = snd (FileScanner.find_all_las_files os (FileScanner.init root text2 enabled))
  /\ snd (FileScanner.find_all_segy_files os (FileScanner.init root text1 enabled))
     = snd (FileScanner.find_all_segy_files os (FileScanner.init root text2 enabled))
  /\ snd (FileScanner.find_all_las_files os
            (FileScanner.init root (upper text1) enabled))
     = snd (FileScanner.find_all_las_files os (FileScanner.init root text1 enabled))
  /\ snd (FileScanner.find_all_segy_files os
            (FileScanner.init root (upper text1) enabled))
     = snd (FileScanner.find_all_segy_files os (FileScanner.init root text1 enabled)).
Proof.
  intros Hu.
  unfold FileScanner.find_all_las_files, FileScanner.find_all_segy_files.
  cbn [FileScanner.set_found FileScanner.init FileScanner.root_folder
       FileScanner.filter_text FileScanner.filter_enabled].
  destruct (FileScanner.isdir os root); cbn [negb snd]; [|tauto].
  repeat split; apply scan_walk_ext; try reflexivity; intros f;
    apply filtered_out_upper; try reflexivity;
    cbn [FileScanner.filter_text]; [exact Hu | exact Hu | apply upper_upper ..].
Qed.

Lemma filter_text_case_ignored_witness :
  snd (FileScanner.find_all_las_files FileScanner.sample_os
         (FileScanner.init "/data" "well" true))
  = snd (FileScanner.find_all_las_files FileScanner.sample_os
           (FileScanner.init "/data" "WeLL" true))
  /\ snd (FileScanner.find_all_segy_files FileScanner.sample_os
            (FileScanner.init "/data" "well" true))
     = snd (FileScanner.find_all_segy_files FileScanner.sample_os
              (FileScanner.init "/data" "WeLL" true))
  /\ snd (FileScanner.find_all_las_files FileScanner.sample_os
            (FileScanner.init "/data" (upper "well") true))
     = snd (FileScanner.find_all_las_files FileScanner.sample_os
              (FileScanner.init "/data" "well" true))
  /\ snd (FileScanner.find_all_segy_files FileScanner.sample_os
            (FileScanner.init "/data" (upper "well") true))
     = snd (FileScanner.find_all_segy_files FileScanner.sample_os
              (FileScanner.init "/data" "well" true)).
Proof.
  apply (filter_text_case_ignored FileScanner.sample_os "/data" "well" "WeLL" true).
  reflexivity.
Defined.

(** X3.  The filter only removes files: the list a scanner returns is a
    sublist of the files below the root folder that have its extension, in
    the order of the walk and with nothing added. *)
Theorem filter_only_removes (os : FileScanner.OS) (self : FileScanner.Scanner) :
  snd (FileScanner.find_all_las_files os self)
    `sublist_of` FileScanner.all_matching os (FileScanner.root_folder self)
                   FileScanner.is_las
  /\ snd (FileScanner.find_all_segy_files os self)
       `sublist_of` FileScanner.all_matching os (FileScanner.root_folder self)
                      FileScanner.is_segy.
Proof.
  unfold FileScanner.find_all_las_files, FileScanner.find_all_segy_files.
  cbn [FileScanner.set_found FileScanner.root_folder].
  destruct (FileScanner.isdir os (FileScanner.root_folder self)); cbn [negb snd].
  - split; apply (scan_walk_sublist os (FileScanner.set_found self [])).
  - split; apply sublist_nil_l.
Qed.

(** X4.  A scan replaces the list the scanner holds: the stored list is the
    returned one, whatever list was stored before; scanning again returns
    the same result; and when the root folder is not an existing directory
    the stored and the returned list are empty. *)
Theorem rescan_replaces_list (os : FileScanner.OS) (self : FileScanner.Scanner)
  (previous : list string) :
  let las := FileScanner.find_all_las_files os self in
  let segy := FileScanner.find_all_segy_files os self in
  FileScanner.found_files (fst las) = snd las
  /\ FileScanner.find_all_las_files os (fst las) = las
  /\ FileScanner.find_all_las_files os (FileScanner.set_found self previous) = las
  /\ (FileScanner.isdir os (FileScanner.root_folder self) = false ->
      las = (FileScanner.set_found self [], []))
  /\ FileScanner.found_files (fst segy) = snd segy
  /\ FileScanner.find_all_segy_files os (fst segy) = segy
  /\ FileScanner.find_all_segy_files os (FileScanner.set_found self previous) = segy
  /\ (FileScanner.isdir os (FileScanner.root_folder self) = false ->
      segy = (FileScanner.set_found self [], [])).
Proof.
  unfold FileScanner.find_all_las_files, FileScanner.find_all_segy_files.
  cbn [FileScanner.set_found FileScanner.root_folder].
  destruct (FileScanner.isdir os (FileScanner.root_folder self)) eqn:E;
    cbn [negb fst snd FileScanner.set_found FileScanner.root_folder
         FileScanner.found_files FileScanner.filter_text FileScanner.filter_enabled];
    rewrite ?E; cbn [negb]; repeat split; try reflexivity; discriminate.
Qed.

(** X5.  No file name passes both extension tests, so no file is listed
    by both scanners. *)
Theorem las_and_segy_names_differ (filename : string) :
  FileScanner.is_las filename && FileScanner.is_segy filename = false.
Proof.
  unfold FileScanner.is_las, FileScanner.is_segy, endswith.
  change (String.rev ".las") with "sal."%string.
  change (String.rev ".sgy") with "ygs."%string.
  change (String.rev ".segy") with "yges."%string.
  destruct (String.rev (lower filename)) as [|c r]; [reflexivity|].
  cbn [String.prefix].
  destruct (ascii_dec "s" c) as [<-|]; [|reflexivity].
  destruct (ascii_dec "y" "s") as [[=]|]. apply andb_false_r.
Qed.

(** ** Comparisons of floats, continued *)

Ltac compare_cases :=
  repeat match goal with
         | H : context [(?a ?= ?b)%Z] |- _ => destruct (Z.compare_spec a b)
         | |- context [(?a ?= ?b)%Z] => destruct (Z.compare_spec a b)
         end;
  rewrite ?Pos.compare_cont_spec in *; cbn [Pos.switch_Eq CompOpp] in *;
  repeat match goal with
         | H : context [(?a ?= ?b)%positive] |- _ => destruct (Pos.compare_spec a b)
         | |- context [(?a ?= ?b)%positive] => destruct (Pos.compare_spec a b)
         end;
  cbn [CompOpp] in *; subst; try discriminate; try reflexivity; try lia.

Lemma SFleb_trans (x y z : spec_float) :
  SFleb x y = true -> SFleb y z = true -> SFleb x z = true.
Proof.
  unfold SFleb.
  destruct x as [[]|[]| |[] mx ex], y as [[]|[]| |[] my ey], z as [[]|[]| |[] mz ez];
    cbn [SFcompare]; try discriminate; try reflexivity; compare_cases.
Qed.

Lemma SFleb_refl (x : spec_float) : x <> S754_nan -> SFleb x x = true.
Proof.
  unfold SFleb. destruct x as [[]|[]| |[] mx ex]; cbn [SFcompare]; try done;
    rewrite Z.compare_refl, Pos.compare_cont_refl; reflexivity.
Qed.

Lemma SFltb_leb (x y : spec_float) : SFltb x y = true -> SFleb x y = true.
Proof. unfold SFltb, SFleb. now destruct (SFcompare x y) as [[]|]. Qed.

Lemma SFleb_total (x y : spec_float) :
  x <> S754_nan -> y <> S754_nan -> SFltb y x = false -> SFleb x y = true.
Proof.
  unfold SFltb, SFleb. rewrite (SFcompare_antisym y x).
  destruct x as [[]|[]| |[] mx ex], y as [[]|[]| |[] my ey];
    cbn [SFcompare option_map]; try done;
    destruct (ey ?= ex); cbn [CompOpp]; try done;
    destruct (Pos.compare_cont Eq my mx); cbn [CompOpp]; done.
Qed.

Lemma SFleb_antisym (x y : spec_float) :
  SFleb x y = true -> SFleb y x = true -> SFeqb x y = true.
Proof.
  unfold SFleb, SFeqb. rewrite (SFcompare_antisym x y).
  destruct (SFcompare x y) as [[]|]; cbn; congruence.
Qed.

Lemma isnan_false (x : float) : isnan x = false <-> Prim2SF x <> S754_nan.
Proof.
  rewrite <- isnan_spec. destruct (isnan x); split; congruence.
Qed.

Lemma leb_trans (a b c : float) :
  (a <=? b)%float = true -> (b <=? c)%float = true -> (a <=? c)%float = true.
Proof. rewrite !leb_spec. apply SFleb_trans. Qed.

Lemma leb_refl (a : float) : isnan a = false -> (a <=? a)%float = true.
Proof. rewrite isnan_false, leb_spec. apply SFleb_refl. Qed.

Lemma ltb_leb (a b : float) : (a <? b)%float = true -> (a <=? b)%float = true.
Proof. rewrite ltb_spec, leb_spec. apply SFltb_leb. Qed.

Lemma leb_total (a b : float) :
  isnan a = false -> isnan b = false ->
  (b <? a)%float = false -> (a <=? b)%float = true.
Proof. rewrite !isnan_false, ltb_spec, leb_spec. apply SFleb_total. Qed.

Lemma leb_antisym (a b : float) :
  (a <=? b)%float = true -> (b <=? a)%float = true -> (a =? b)%float = true.
Proof. rewrite !leb_spec, FloatAxioms.eqb_spec. apply SFleb_antisym. Qed.

Lemma leb_nan_l (a b : float) : (a <=? b)%float = true -> isnan a = false.
Proof.
  rewrite leb_spec, isnan_false. intros H E. rewrite E in H. discriminate.
Qed.

Lemma leb_nan_r (a b : float) : (a <=? b)%float = true -> isnan b = false.
Proof.
  rewrite leb_spec, isnan_false. intros H E. rewrite E in H.
  unfold SFleb in H. now destruct (Prim2SF a) as [[]|[]| |[] m e].
Qed.

(** ** [np.nanmin] and [np.nanmax] *)

Lemma fmin_cases (a x : float) : fmin a x = a \/ fmin a x = x.
Proof. unfold fmin. destruct (isnan a), (isnan x), (x <? a)%float; tauto. Qed.

Lemma fmax_cases (a x : float) : fmax a x = a \/ fmax a x = x.
Proof. unfold fmax. destruct (isnan a), (isnan x), (a <? x)%float; tauto. Qed.

Lemma fold_fmin_In (xs : list float) (x : float) :
  In (fold_left fmin xs x) (x :: xs).
Proof.
  revert x. induction xs as [|y ys IH]; intros x; [now left|].
  cbn [fold_left]. destruct (IH (fmin x y)) as [E|Hin].
  - cbn [In]. destruct (fmin_cases x y) as [E'|E']; [left | right; left]; congruence.
  - right. now right.
Qed.

Lemma fold_fmax_In (xs : list float) (x : float) :
  In (fold_left fmax xs x) (x :: xs).
Proof.
  revert x. induction xs as [|y ys IH]; intros x; [now left|].
  cbn [fold_left]. destruct (IH (fmax x y)) as [E|Hin].
  - cbn [In]. destruct (fmax_cases x y) as [E'|E']; [left | right; left]; congruence.
  - right. now right.
Qed.

Lemma fmin_lower (x y : float) :
  isnan x = false ->
  isnan (fmin x y) = false /\ (fmin x y <=? x)%float = true
  /\ (isnan y = false -> (fmin x y <=? y)%float = true).
Proof.
  intros Hx. unfold fmin. rewrite Hx. destruct (isnan y) eqn:Hy.
  - split; [exact Hx|]. split; [now apply leb_refl | discriminate].
  - destruct (y <? x)%float eqn:E.
    + split; [exact Hy|]. split; [now apply ltb_leb | intros _; now apply leb_refl].
    + split; [exact Hx|]. split; [now apply leb_refl | intros _; now apply leb_total].
Qed.

Lemma fmax_upper (x y : float) :
  isnan x = false ->
  isnan (fmax x y) = false /\ (x <=? fmax x y)%float = true
  /\ (isnan y = false -> (y <=? fmax x y)%float = true).
Proof.
  intros Hx. unfold fmax. rewrite Hx. destruct (isnan y) eqn:Hy.
  - split; [exact Hx|]. split; [now apply leb_refl | discriminate].
  - destruct (x <? y)%float eqn:E.
    + split; [exact Hy|]. split; [now apply ltb_leb | intros _; now apply leb_refl].
    + split; [exact Hx|]. split; [now apply leb_refl | intros _; now apply leb_total].
Qed.

Lemma fold_fmin_lower (xs : list float) (x : float) :
  isnan x = false ->
  isnan (fold_left fmin xs x) = false
  /\ (fold_left fmin xs x <=? x)%float = true
  /\ Forall (fun y => isnan y = false -> (fold_left fmin xs x <=? y)%float = true) xs.
Proof.
  revert x. induction xs as [|y ys IH]; intros x Hx; cbn [fold_left].
  - split; [exact Hx|]. split; [now apply leb_refl | constructor].
  - destruct (fmin_lower x y Hx) as (Ha & Hax & Hay).
    destruct (IH (fmin x y) Ha) as (Hm & Hma & Hall).
    split; [exact Hm|]. split; [exact (leb_trans _ _ _ Hma Hax)|].
    constructor; [|exact Hall].
    intros Hy. exact (leb_trans _ _ _ Hma (Hay Hy)).
Qed.

Lemma fold_fmax_upper (xs : list float) (x : float) :
  isnan x = false ->
  isnan (fold_left fmax xs x) = false
  /\ (x <=? fold_left fmax xs x)%float = true
  /\ Forall (fun y => isnan y = false -> (y <=? fold_left fmax xs x)%float = true) xs.
Proof.
  revert x. induction xs as [|y ys IH]; intros x Hx; cbn [fold_left].
  - split; [exact Hx|]. split; [now apply leb_refl | constructor].
  - destruct (fmax_upper x y Hx) as (Ha & Hax & Hay).
    destruct (IH (fmax x y) Ha) as (Hm & Hma & Hall).
    split; [exact Hm|]. split; [exact (leb_trans _ _ _ Hax Hma)|].
    constructor; [|exact Hall].
    intros Hy. exact (leb_trans _ _ _ (Hay Hy) Hma).
Qed.

(** The minimum and the maximum that skip NaN are a sample that is not NaN
    and bound every such sample, as soon as there is one. *)
Lemma nanmin_spec (xs : list float) :
  Exists (fun y => isnan y = false) xs ->
  exists lo, nanmin xs = Ok lo /\ In lo xs /\ isnan lo = false
    /\ Forall (fun y => isnan y = false -> (lo <=? y)%float = true) xs.
Proof.
  induction xs as [|x xs IH]; intros Hex; [inversion Hex|].
  cbn [nanmin]. exists (fold_left fmin xs x).
  split; [reflexivity|]. split; [apply fold_fmin_In|].
  destruct (isnan x) eqn:Hx.
  - inversion Hex as [? ? Hx'|? ? Hex']; subst; [congruence|].
    destruct (IH Hex') as (lo & Hlo & _ & Hnan & Hall).
    destruct xs as [|y ys]; [inversion Hex'|].
    cbn [nanmin] in Hlo. injection Hlo as <-.
    assert (E : fold_left fmin (y :: ys) x = fold_left fmin ys y)
      by (cbn [fold_left]; unfold fmin at 2; now rewrite Hx).
    rewrite E. split; [exact Hnan|].
    constructor; [congruence | exact Hall].
  - destruct (fold_fmin_lower xs x Hx) as (Hm & Hmx & Hall).
    split; [exact Hm|]. constructor; [intros _; exact Hmx | exact Hall].
Qed.

Lemma nanmax_spec (xs : list float) :
  Exists (fun y => isnan y = false) xs ->
  exists hi, nanmax xs = Ok hi /\ In hi xs /\ isnan hi = false
    /\ Forall (fun y => isnan y = false -> (y <=? hi)%float = true) xs.
Proof.
  induction xs as [|x xs IH]; intros Hex; [inversion Hex|].
  cbn [nanmax]. exists (fold_left fmax xs x).
  split; [reflexivity|]. split; [apply fold_fmax_In|].
  destruct (isnan x) eqn:Hx.
  - inversion Hex as [? ? Hx'|? ? Hex']; subst; [congruence|].
    destruct (IH Hex') as (hi & Hhi & _ & Hnan & Hall).
    destruct xs as [|y ys]; [inversion Hex'|].
    cbn [nanmax] in Hhi. injection Hhi as <-.
    assert (E : fold_left fmax (y :: ys) x = fold_left fmax ys y)
      by (cbn [fold_left]; unfold fmax at 2; now rewrite Hx).
    rewrite E. split; [exact Hnan|].
    constructor; [congruence | exact Hall].
  - destruct (fold_fmax_upper xs x Hx) as (Hm & Hmx & Hall).
    split; [exact Hm|]. constructor; [intros _; exact Hmx | exact Hall].
Qed.

(** ** Well-log curves, continued *)

Section CurveEntries.
Import CurveValidator.

Lemma fold_insert_is_Some {V} (f : CurveInfo -> V)
  (cfg : list (string * CurveInfo)) (acc : gmap string V) (key : string) :
  is_Some (fold_left (fun m '(k, i) => <[k := f i]> m) cfg acc !! key)
  <-> is_Some (acc !! key) \/ In key (map fst cfg).
Proof.
  revert acc. induction cfg as [|[k i] rest IH]; intros acc; cbn [fold_left map fst In].
  - tauto.
  - rewrite IH. destruct (decide (k = key)) as [->|Hne].
    + rewrite lookup_insert_eq. split; [tauto|]. intros _. left. eauto.
    + rewrite lookup_insert_ne by done. tauto.
Qed.

Lemma resolved_Some (found_alias : option string) (name : string) :
  resolved found_alias = Some name <->
  found_alias = Some name /\ name <> EmptyString.
Proof.
  unfold resolved. destruct found_alias as [[|c t]|]; cbn [truthy_str].
  - split; [discriminate | intros [[= <-] H]; now destruct H].
  - split; [intros [= <-]; split; [reflexivity | discriminate] | now intros [[= <-] _]].
  - split; [discriminate | now intros [[=] _]].
Qed.

Lemma validate_curve_data_reason (self : CurveValidator) (las : LasHandle)
  (name : string) (info : CurveInfo) :
  snd (_validate_curve_data self las name info) <> "Not found".
Proof.
  unfold _validate_curve_data. destruct (getitem las name) as [data|e];
    cbn [mbind result_bind]; [|cbn; discriminate].
  destruct (valid_samples self data) as [|x rest];
    cbn [length Nat.eqb nanmin nanmax mbind result_bind snd]; [discriminate|].
  cbn. discriminate.
Qed.

Lemma detail_entry_found (self : CurveValidator) (las : LasHandle)
  (available : gmap string Curve) (info : CurveInfo) :
  let d := detail_entry self las available info in
  d_description d = description info
  /\ match resolved (_find_curve_alias (aliases info) available) with
     | Some name => found d = true /\ d_mnemonic d = name
     | None => found d = false /\ d_mnemonic d = "N/A" /\ d_min d = "N/A"
               /\ d_max d = "N/A" /\ percent_filled d = "N/A" /\ d_unit d = "N/A"
     end.
Proof.
  unfold detail_entry.
  destruct (resolved (_find_curve_alias (aliases info) available)) as [name|];
    [|cbn; tauto].
  destruct (getitem las name) as [data|e]; cbn [mbind result_bind]; [|cbn; tauto].
  destruct (valid_samples self data) as [|x rest];
    cbn [length Nat.ltb Nat.leb nanmin nanmax mbind result_bind];
    destruct (curves_getitem las name);
    cbn [mbind result_bind found d_mnemonic d_description]; tauto.
Qed.

Lemma validate_entry_found (self : CurveValidator) (las : LasHandle)
  (available : gmap string Curve) (info : CurveInfo) :
  found (detail_entry self las available info) = false
  <-> reason (validate_entry self las available info) = "Not found".
Proof.
  destruct (detail_entry_found self las available info) as [_ Hcase].
  unfold validate_entry.
  destruct (resolved (_find_curve_alias (aliases info) available)) as [name|].
  - destruct Hcase as [-> _].
    pose proof (validate_curve_data_reason self las name info) as Hr.
    destruct (_validate_curve_data self las name info) as [is_valid r].
    cbn [snd reason] in *. split; [discriminate | done].
  - destruct Hcase as [-> _]. cbn [reason]. done.
Qed.

End CurveEntries.

(** C6.  For a configured curve whose alias resolves and whose samples can
    be read: when every sample equals the null sentinel -999.25 the result
    is status N with reason "No valid data"; when some sample differs from
    it, the result is status Y and the reason is Valid (lo-hi), where lo and
    hi, shown with two decimals, are samples of the curve that differ from
    the sentinel.  If one of the samples that differ from the sentinel is
    not NaN, then neither lo nor hi is NaN, lo is the least and hi the
    greatest of them: lo is at most, and hi at least, every sample that is
    neither the sentinel nor NaN. *)
Theorem validate_las_file_null_sentinel
  (cfg : list (string * CurveValidator.CurveInfo))
  (las : CurveValidator.LasHandle)
  (available : gmap string CurveValidator.Curve)
  (key : string) (info : CurveValidator.CurveInfo)
  (name : string) (data : list float) :
  List.NoDup (map fst cfg) -> In (key, info) cfg ->
  CurveValidator.available_curves las = Ok available ->
  CurveValidator.resolved
    (CurveValidator._find_curve_alias (CurveValidator.aliases info) available)
    = Some name ->
  CurveValidator.getitem las name = Ok data ->
  let valid := List.filter (fun x => negb (x =? -999.25)%float) data in
  exists results,
    CurveValidator.validate_las_file (CurveValidator.init cfg) las = Ok results
    /\ (Forall (fun x => (x =? -999.25)%float = true) data ->
        results !! key
        = Some {| CurveValidator.status := "N";
                  CurveValidator.reason := "No valid data" |})
    /\ (Exists (fun x => (x =? -999.25)%float = false) data ->
        exists lo hi,
          results !! key
          = Some {| CurveValidator.status := "Y";
                    CurveValidator.reason :=
                      "Valid (" +:+ format_f 2 lo +:+ "-"
                      +:+ format_f 2 hi +:+ ")" |}
          /\ In lo valid /\ In hi valid
          /\ (Exists (fun x => isnan x = false) valid ->
              isnan lo = false /\ isnan hi = false
              /\ Forall (fun x => isnan x = false ->
                                  (lo <=? x)%float = true
                                  /\ (x <=? hi)%float = true) valid)).
Proof.
  intros Hnd Hin Hav Hres Hget valid.
  destruct (validate_las_file_entry cfg las available key info Hnd Hin Hav)
    as (results & Hval & Hkey).
  exists results. split; [exact Hval|].
  unfold CurveValidator.validate_entry in Hkey. rewrite Hres in Hkey.
  rewrite (validate_curve_data_Ok _ _ _ _ _ Hget) in Hkey.
  split.
  - intros Hall. rewrite (valid_samples_none (CurveValidator.init cfg)) in Hkey by exact Hall.
    exact Hkey.
  - intros Hex. pose proof (valid_samples_some (CurveValidator.init cfg) data Hex) as Hne.
    change (CurveValidator.valid_samples (CurveValidator.init cfg) data) with valid
      in Hkey, Hne.
    destruct valid as [|x rest]; [done|].
    exists (fold_left fmin rest x), (fold_left fmax rest x).
    split; [exact Hkey|].
    split; [apply fold_fmin_In|]. split; [apply fold_fmax_In|].
    intros Hnum.
    destruct (nanmin_spec (x :: rest) Hnum) as (lo & Hlo & _ & Hlo_nan & Hlo_all).
    destruct (nanmax_spec (x :: rest) Hnum) as (hi & Hhi & _ & Hhi_nan & Hhi_all).
    cbn [nanmin nanmax] in Hlo, Hhi. injection Hlo as <-. injection Hhi as <-.
    split; [exact Hlo_nan|]. split; [exact Hhi_nan|].
    rewrite List.Forall_forall in *. intros y Hy Hnan.
    split; [now apply Hlo_all | now apply Hhi_all].
Qed.

Lemma validate_las_file_null_sentinel_witness :
  let valid :=
    List.filter (fun x => negb (x =? -999.25)%float) [1.5; nan; -999.25; 20]%float in
  exists results lo hi,
    CurveValidator.validate_las_file (CurveValidator.init Samples.config)
      Cases.las_faulty = Ok results
    /\ results !! "RES"
       = Some {| CurveValidator.status := "Y";
                 CurveValidator.reason :=
                   "Valid (" +:+ format_f 2 lo +:+ "-" +:+ format_f 2 hi +:+ ")" |}
    /\ In lo valid /\ In hi valid
    /\ isnan lo = false /\ isnan hi = false
    /\ Forall (fun x => isnan x = false ->
                        (lo <=? x)%float = true /\ (x <=? hi)%float = true) valid.
Proof.
  intros valid.
  destruct (validate_las_file_null_sentinel Samples.config Cases.las_faulty
              Cases.available_faulty "RES"
              {| CurveValidator.aliases := ["RD"; "RT"];
                 CurveValidator.description := "Deep resistivity" |}
              "RD" [1.5; nan; -999.25; 20]%float)
    as (results & Hval & _ & Hrange).
  - repeat constructor; cbn; intuition discriminate.
  - cbn. tauto.
  - vm_compute. reflexivity.
  - vm_compute. reflexivity.
  - reflexivity.
  - destruct Hrange as (lo & hi & Hkey & Hlo & Hhi & Hnum).
    + left. reflexivity.
    + exists results, lo, hi.
      split; [exact Hval|]. split; [exact Hkey|].
      split; [exact Hlo|]. split; [exact Hhi|].
      apply Hnum. left. reflexivity.
Defined.

(** X6.  When the curves of a file can be enumerated, both entry points
    return a mapping whose keys are exactly the keys of the curve
    configuration. *)
Theorem results_cover_configuration
  (cfg : list (string * CurveValidator.CurveInfo))
  (las : CurveValidator.LasHandle) :
  CurveValidator.curves_readable las ->
  exists results details,
    CurveValidator.validate_las_file (CurveValidator.init cfg) las = Ok results
    /\ CurveValidator.get_detailed_curve_info (CurveValidator.init cfg) las
       = Ok details
    /\ forall key,
         (is_Some (results !! key) <-> In key (map fst cfg))
         /\ (is_Some (details !! key) <-> In key (map fst cfg)).
Proof.
  intros Hread. apply available_curves_readable in Hread.
  destruct Hread as [available Hav].
  unfold CurveValidator.validate_las_file, CurveValidator.get_detailed_curve_info.
  rewrite Hav. cbn [mbind result_bind CurveValidator.curve_config CurveValidator.init].
  eexists. eexists. split; [reflexivity|]. split; [reflexivity|].
  intros key. split.
  - rewrite (fold_insert_is_Some
               (CurveValidator.validate_entry (CurveValidator.init cfg) las available)).
    rewrite lookup_empty. split; [intros [[? [=]]|H]; exact H | tauto].
  - rewrite (fold_insert_is_Some
               (CurveValidator.detail_entry (CurveValidator.init cfg) las available)).
    rewrite lookup_empty. split; [intros [[? [=]]|H]; exact H | tauto].
Qed.

Lemma results_cover_configuration_witness :
  exists results details,
    CurveValidator.validate_las_file (CurveValidator.init Samples.config)
      Samples.las = Ok results
    /\ CurveValidator.get_detailed_curve_info (CurveValidator.init Samples.config)
         Samples.las = Ok details
    /\ forall key,
         (is_Some (results !! key) <-> In key (map fst Samples.config))
         /\ (is_Some (details !! key) <-> In key (map fst Samples.config)).
Proof.
  apply (results_cover_configuration Samples.config Samples.las).
  eexists. split; [reflexivity|].
  repeat constructor; eexists; reflexivity.
Defined.

Lemma find_curve_alias_same_upper (aliases1 aliases2 : list string)
  (available : gmap string CurveValidator.Curve) :
  map upper aliases1 = map upper aliases2 ->
  CurveValidator._find_curve_alias aliases1 available
  = CurveValidator._find_curve_alias aliases2 available.
Proof.
  revert aliases2. induction aliases1 as [|a rest IH]; intros [|b rest'];
    cbn [map]; try discriminate; [reflexivity|].
  intros [= Hab Hrest]. cbn [CurveValidator._find_curve_alias].
  now rewrite Hab, (IH rest' Hrest).
Qed.

Lemma find_curve_alias_upper (aliases : list string)
  (available : gmap string CurveValidator.Curve) :
  option_map upper (CurveValidator._find_curve_alias aliases available)
  = CurveValidator._find_curve_alias aliases available.
Proof.
  induction aliases as [|a rest IH]; [reflexivity|].
  cbn [CurveValidator._find_curve_alias].
  destruct (decide (is_Some (available !! upper a))); [|exact IH].
  cbn [option_map]. now rewrite upper_upper.
Qed.

(** X7.  Alias resolution reads the aliases through their upper-case forms
    only: two alias lists with the same upper-case forms resolve alike, a
    list resolves as the list of its upper-case forms does, and a resolved
    name is its own upper-case form. *)
Theorem alias_case_ignored (aliases1 aliases2 : list string)
  (available : gmap string CurveValidator.Curve) :
  map upper aliases1 = map upper aliases2 ->
  CurveValidator._find_curve_alias aliases1 available
  = CurveValidator._find_curve_alias aliases2 available
  /\ CurveValidator._find_curve_alias (map upper aliases1) available
     = CurveValidator._find_curve_alias aliases1 available
  /\ option_map upper (CurveValidator._find_curve_alias aliases1 available)
     = CurveValidator._find_curve_alias aliases1 available.
Proof.
  intros Hu. split; [now apply find_curve_alias_same_upper|].
  split; [|apply find_curve_alias_upper].
  apply find_curve_alias_same_upper. rewrite map_map.
  apply map_ext. intros a. apply upper_upper.
Qed.

Lemma alias_case_ignored_witness :
  CurveValidator._find_curve_alias ["res"; "Rd"; "rt"] Samples.available
  = CurveValidator._find_curve_alias ["RES"; "rD"; "RT"] Samples.available
  /\ CurveValidator._find_curve_alias (map upper ["res"; "Rd"; "rt"])
       Samples.available
     = CurveValidator._find_curve_alias ["res"; "Rd"; "rt"] Samples.available
  /\ option_map upper
       (CurveValidator._find_curve_alias ["res"; "Rd"; "rt"] Samples.available)
     = CurveValidator._find_curve_alias ["res"; "Rd"; "rt"] Samples.available.
Proof.
  apply (alias_case_ignored ["res"; "Rd"; "rt"] ["RES"; "rD"; "RT"]
           Samples.available).
  reflexivity.
Defined.

(** X8.  The two entry points agree on a configured curve (the keys of the
    configuration being distinct and the curves of the file enumerable).
    The detailed entry carries the description of the configuration; it is
    marked as not found exactly when validation gives the reason Not found,
    and then validation gives status N and the entry shows N/A as mnemonic
    and as filled percentage; when it is marked as found, its mnemonic is
    the upper-case form of one of the configured aliases, and that is the
    mnemonic of a curve of the file. *)
Theorem entry_points_agree
  (cfg : list (string * CurveValidator.CurveInfo))
  (las : CurveValidator.LasHandle)
  (available : gmap string CurveValidator.Curve)
  (key : string) (info : CurveValidator.CurveInfo) :
  List.NoDup (map fst cfg) -> In (key, info) cfg ->
  CurveValidator.available_curves las = Ok available ->
  exists results details r d,
    CurveValidator.validate_las_file (CurveValidator.init cfg) las = Ok results
    /\ CurveValidator.get_detailed_curve_info (CurveValidator.init cfg) las
       = Ok details
    /\ results !! key = Some r /\ details !! key = Some d
    /\ CurveValidator.d_description d = CurveValidator.description info
    /\ (CurveValidator.found d = false
        <-> CurveValidator.reason r = "Not found")
    /\ (CurveValidator.found d = false ->
        CurveValidator.status r = "N" /\ CurveValidator.d_mnemonic d = "N/A"
        /\ CurveValidator.percent_filled d = "N/A")
    /\ (CurveValidator.found d = true ->
        exists alias,
          In alias (CurveValidator.aliases info)
          /\ CurveValidator.d_mnemonic d = upper alias
          /\ CurveValidator.has_mnemonic las (upper alias)).
Proof.
  intros Hnd Hin Hav.
  destruct (validate_las_file_entry cfg las available key info Hnd Hin Hav)
    as (results & Hval & Hkey).
  destruct (get_detailed_curve_info_entry cfg las available key info Hnd Hin Hav)
    as (details & Hdet & Hdkey).
  set (self := CurveValidator.init cfg) in *.
  exists results, details, (CurveValidator.validate_entry self las available info),
    (CurveValidator.detail_entry self las available info).
  split; [exact Hval|]. split; [exact Hdet|].
  split; [exact Hkey|]. split; [exact Hdkey|].
  destruct (detail_entry_found self las available info) as [Hdesc Hcase].
  split; [exact Hdesc|]. split; [apply validate_entry_found|].
  destruct (CurveValidator.resolved
              (CurveValidator._find_curve_alias (CurveValidator.aliases info) available))
    as [name|] eqn:Hres.
  - destruct Hcase as [Hfound Hname]. split; [congruence|]. intros _.
    apply resolved_Some in Hres. destruct Hres as [Hfind _].
    apply find_curve_alias_Some in Hfind.
    destruct Hfind as (pre & alias & post & E & -> & Hal & _).
    exists alias. split; [rewrite E; apply in_or_app; right; now left|].
    split; [exact Hname|]. now apply (available_curves_keys las available).
  - destruct Hcase as (Hfound & Hm & _ & _ & Hp & _).
    split; [|congruence]. intros _.
    unfold CurveValidator.validate_entry. rewrite Hres. cbn. tauto.
Qed.

Lemma entry_points_agree_witness :
  exists results details r d,
    CurveValidator.validate_las_file (CurveValidator.init Samples.config)
      Samples.las = Ok results
    /\ CurveValidator.get_detailed_curve_info (CurveValidator.init Samples.config)
         Samples.las = Ok details
    /\ results !! "CALI" = Some r /\ details !! "CALI" = Some d
    /\ CurveValidator.d_description d = "Caliper"
    /\ (CurveValidator.found d = false
        <-> CurveValidator.reason r = "Not found")
    /\ (CurveValidator.found d = false ->
        CurveValidator.status r = "N" /\ CurveValidator.d_mnemonic d = "N/A"
        /\ CurveValidator.percent_filled d = "N/A")
    /\ (CurveValidator.found d = true ->
        exists alias,
          In alias ["CALI"]
          /\ CurveValidator.d_mnemonic d = upper alias
          /\ CurveValidator.has_mnemonic Samples.las (upper alias)).
Proof.
  refine (entry_points_agree Samples.config Samples.las Samples.available "CALI"
            {| CurveValidator.aliases := ["CALI"];
               CurveValidator.description := "Caliper" |} _ _ _).
  - repeat constructor; cbn; intuition discriminate.
  - cbn. tauto.
  - vm_compute. reflexivity.
Defined.

(** X9.  The range that validation reports is a range of the data: when
    the samples of a curve can be read and one of them is neither the null
    sentinel nor NaN, the result is valid with the reason Valid (lo-hi),
    where lo and hi, shown with two decimals, are samples of the curve,
    neither the sentinel nor NaN, and every sample that is neither lies
    between them. *)
Theorem reported_range_bounds_samples
  (self : CurveValidator.CurveValidator) (las : CurveValidator.LasHandle)
  (name : string) (info : CurveValidator.CurveInfo) (data : list float) :
  CurveValidator.getitem las name = Ok data ->
  Exists (fun x => (x =? CurveValidator.null_value self)%float = false
                   /\ isnan x = false) data ->
  exists lo hi,
    CurveValidator._validate_curve_data self las name info
    = (true, "Valid (" +:+ format_f 2 lo +:+ "-" +:+ format_f 2 hi +:+ ")")
    /\ In lo data /\ In hi data
    /\ (lo =? CurveValidator.null_value self)%float = false
    /\ (hi =? CurveValidator.null_value self)%float = false
    /\ isnan lo = false /\ isnan hi = false
    /\ Forall (fun x => (x =? CurveValidator.null_value self)%float = false ->
                        isnan x = false ->
                        (lo <=? x)%float = true /\ (x <=? hi)%float = true) data.
Proof.
  intros Hget Hex.
  set (valid := CurveValidator.valid_samples self data).
  assert (Hin : forall x, In x valid <->
                  In x data /\ (x =? CurveValidator.null_value self)%float = false).
  { intros x. unfold valid, CurveValidator.valid_samples.
    rewrite List.filter_In, negb_true_iff. reflexivity. }
  assert (Hex' : Exists (fun y => isnan y = false) valid).
  { apply List.Exists_exists in Hex. destruct Hex as (x & Hx & Hnull & Hnan).
    apply List.Exists_exists. exists x. split; [apply Hin; tauto | exact Hnan]. }
  destruct (nanmin_spec valid Hex') as (lo & Hlo & Hlo_in & Hlo_nan & Hlo_all).
  destruct (nanmax_spec valid Hex') as (hi & Hhi & Hhi_in & Hhi_nan & Hhi_all).
  exists lo, hi.
  split.
  { rewrite (validate_curve_data_Ok _ _ _ _ _ Hget). fold valid.
    destruct valid as [|x rest]; [inversion Hex'|].
    cbn [nanmin nanmax] in Hlo, Hhi. injection Hlo as <-. injection Hhi as <-.
    reflexivity. }
  apply Hin in Hlo_in, Hhi_in.
  repeat (split; [tauto|]).
  apply List.Forall_forall. intros x Hx Hnull Hnan.
  assert (Hxv : In x valid) by (apply Hin; tauto).
  rewrite List.Forall_forall in Hlo_all, Hhi_all.
  split; [now apply Hlo_all | now apply Hhi_all].
Qed.

Lemma reported_range_bounds_samples_witness :
  exists lo hi,
    CurveValidator._validate_curve_data (CurveValidator.init Samples.config)
      Cases.las_faulty "RD"
      {| CurveValidator.aliases := ["RD"; "RT"];
         CurveValidator.description := "Deep resistivity" |}
    = (true, "Valid (" +:+ format_f 2 lo +:+ "-" +:+ format_f 2 hi +:+ ")")
    /\ In lo [1.5; nan; -999.25; 20]%float /\ In hi [1.5; nan; -999.25; 20]%float
    /\ (lo =? -999.25)%float = false
    /\ (hi =? -999.25)%float = false
    /\ isnan lo = false /\ isnan hi = false
    /\ Forall (fun x => (x =? -999.25)%float = false ->
                        isnan x = false ->
                        (lo <=? x)%float = true /\ (x <=? hi)%float = true)
         [1.5; nan; -999.25; 20]%float.
Proof.
  apply (reported_range_bounds_samples (CurveValidator.init Samples.config)
           Cases.las_faulty "RD").
  - reflexivity.
  - left. split; reflexivity.
Defined.

(** X10.  Read errors of a resolved curve.  When its samples cannot be read,
    validation gives status N with the reason Error: followed by the message
    of the exception, and the detailed entry is marked as found with Error
    as minimum, maximum and filled percentage and N/A as unit.  When the
    samples can be read but the curve object cannot, the detailed entry is
    that same error entry, although validation gives status Y as soon as a
    sample differs from the sentinel. *)
Theorem curve_read_errors
  (cfg : list (string * CurveValidator.CurveInfo))
  (las : CurveValidator.LasHandle)
  (available : gmap string CurveValidator.Curve)
  (key : string) (info : CurveValidator.CurveInfo) (name : string) :
  List.NoDup (map fst cfg) -> In (key, info) cfg ->
  CurveValidator.available_curves las = Ok available ->
  CurveValidator.resolved
    (CurveValidator._find_curve_alias (CurveValidator.aliases info) available)
    = Some name ->
  let failed :=
    {| CurveValidator.found := true; CurveValidator.d_mnemonic := name;
       CurveValidator.d_min := "Error"; CurveValidator.d_max := "Error";
       CurveValidator.percent_filled := "Error"; CurveValidator.d_unit := "N/A";
       CurveValidator.d_description := CurveValidator.description info |} in
  exists results details r d,
    CurveValidator.validate_las_file (CurveValidator.init cfg) las = Ok results
    /\ CurveValidator.get_detailed_curve_info (CurveValidator.init cfg) las
       = Ok details
    /\ results !! key = Some r /\ details !! key = Some d
    /\ (forall e, CurveValidator.getitem las name = Raise e ->
          r = {| CurveValidator.status := "N";
                 CurveValidator.reason := "Error: " +:+ str_exn e |}
          /\ d = failed)
    /\ (forall data e,
          CurveValidator.getitem las name = Ok data ->
          CurveValidator.curves_getitem las name = Raise e ->
          d = failed
          /\ (Exists (fun x => (x =? -999.25)%float = false) data ->
              CurveValidator.status r = "Y")).
Proof.
  intros Hnd Hin Hav Hres failed.
  destruct (validate_las_file_entry cfg las available key info Hnd Hin Hav)
    as (results & Hval & Hkey).
  destruct (get_detailed_curve_info_entry cfg las available key info Hnd Hin Hav)
    as (details & Hdet & Hdkey).
  set (self := CurveValidator.init cfg) in *.
  exists results, details, (CurveValidator.validate_entry self las available info),
    (CurveValidator.detail_entry self las available info).
  split; [exact Hval|]. split; [exact Hdet|].
  split; [exact Hkey|]. split; [exact Hdkey|].
  unfold CurveValidator.validate_entry, CurveValidator.detail_entry.
  rewrite Hres. split.
  - intros e He. unfold CurveValidator._validate_curve_data. rewrite He.
    cbn [mbind result_bind]. split; reflexivity.
  - intros data e Hget Hcurve. rewrite Hget. cbn [mbind result_bind]. split.
    + destruct (CurveValidator.valid_samples self data) as [|x rest];
        cbn [length Nat.ltb Nat.leb nanmin nanmax mbind result_bind];
        rewrite Hcurve; reflexivity.
    + intros Hex. rewrite (validate_curve_data_Ok _ _ _ _ _ Hget).
      pose proof (valid_samples_some self data Hex) as Hne.
      destruct (CurveValidator.valid_samples self data); [done | reflexivity].
Qed.

Lemma curve_read_errors_witness :
  let failed :=
    {| CurveValidator.found := true; CurveValidator.d_mnemonic := "GR";
       CurveValidator.d_min := "Error"; CurveValidator.d_max := "Error";
       CurveValidator.percent_filled := "Error"; CurveValidator.d_unit := "N/A";
       CurveValidator.d_description := "Gamma ray" |} in
  exists results details r d,
    CurveValidator.validate_las_file (CurveValidator.init Samples.config)
      Cases.las_faulty = Ok results
    /\ CurveValidator.get_detailed_curve_info (CurveValidator.init Samples.config)
         Cases.las_faulty = Ok details
    /\ results !! "GR" = Some r /\ details !! "GR" = Some d
    /\ (forall e, CurveValidator.getitem Cases.las_faulty "GR" = Raise e ->
          r = {| CurveValidator.status := "N";
                 CurveValidator.reason := "Error: " +:+ str_exn e |}
          /\ d = failed)
    /\ (forall data e,
          CurveValidator.getitem Cases.las_faulty "GR" = Ok data ->
          CurveValidator.curves_getitem Cases.las_faulty "GR" = Raise e ->
          d = failed
          /\ (Exists (fun x => (x =? -999.25)%float = false) data ->
              CurveValidator.status r = "Y")).
Proof.
  refine (curve_read_errors Samples.config Cases.las_faulty Cases.available_faulty
            "GR" {| CurveValidator.aliases := ["GR"; "GRC"];
                    CurveValidator.description := "Gamma ray" |} "GR" _ _ _ _).
  - repeat constructor; cbn; intuition discriminate.
  - cbn. tauto.
  - vm_compute. reflexivity.
  - vm_compute. reflexivity.
Defined.

(** X11.  A resolved curve without a single sample: validation gives status
    N with the reason No valid data, and the detailed entry is marked as
    found with N/A as minimum and maximum and a filled percentage of 0.00. *)
Theorem empty_curve_reports
  (cfg : list (string * CurveValidator.CurveInfo))
  (las : CurveValidator.LasHandle)
  (available : gmap string CurveValidator.Curve)
  (key : string) (info : CurveValidator.CurveInfo) (name : string)
  (curve_obj : CurveValidator.Curve) :
  List.NoDup (map fst cfg) -> In (key, info) cfg ->
  CurveValidator.available_curves las = Ok available ->
  CurveValidator.resolved
    (CurveValidator._find_curve_alias (CurveValidator.aliases info) available)
    = Some name ->
  CurveValidator.getitem las name = Ok [] ->
  CurveValidator.curves_getitem las name = Ok curve_obj ->
  exists results details d,
    CurveValidator.validate_las_file (CurveValidator.init cfg) las = Ok results
    /\ results !! key
       = Some {| CurveValidator.status := "N";
                 CurveValidator.reason := "No valid data" |}
    /\ CurveValidator.get_detailed_curve_info (CurveValidator.init cfg) las
       = Ok details
    /\ details !! key = Some d
    /\ CurveValidator.found d = true
    /\ CurveValidator.d_min d = "N/A" /\ CurveValidator.d_max d = "N/A"
    /\ CurveValidator.percent_filled d = "0.00".
Proof.
  intros Hnd Hin Hav Hres Hget Hcurve.
  destruct (validate_las_file_entry cfg las available key info Hnd Hin Hav)
    as (results & Hval & Hkey).
  destruct (get_detailed_curve_info_entry cfg las available key info Hnd Hin Hav)
    as (details & Hdet & Hdkey).
  exists results, details,
    (CurveValidator.detail_entry (CurveValidator.init cfg) las available info).
  split; [exact Hval|]. split.
  { rewrite Hkey. unfold CurveValidator.validate_entry. rewrite Hres.
    now rewrite (validate_curve_data_Ok _ _ _ _ _ Hget). }
  split; [exact Hdet|]. split; [exact Hdkey|].
  unfold CurveValidator.detail_entry. rewrite Hres, Hget.
  cbn [mbind result_bind CurveValidator.valid_samples List.filter length Nat.ltb
       Nat.leb]. rewrite Hcurve. cbn [mbind result_bind].
  repeat split; reflexivity.
Qed.

Lemma empty_curve_reports_witness :
  exists results details d,
    CurveValidator.validate_las_file (CurveValidator.init Samples.config)
      Cases.las_faulty = Ok results
    /\ results !! "CALI"
       = Some {| CurveValidator.status := "N";
                 CurveValidator.reason := "No valid data" |}
    /\ CurveValidator.get_detailed_curve_info (CurveValidator.init Samples.config)
         Cases.las_faulty = Ok details
    /\ details !! "CALI" = Some d
    /\ CurveValidator.found d = true
    /\ CurveValidator.d_min d = "N/A" /\ CurveValidator.d_max d = "N/A"
    /\ CurveValidator.percent_filled d = "0.00".
Proof.
  refine (empty_curve_reports Samples.config Cases.las_faulty Cases.available_faulty
            "CALI" {| CurveValidator.aliases := ["CALI"];
                      CurveValidator.description := "Caliper" |} "CALI"
            {| CurveValidator.mnemonic := Ok "CALI"; CurveValidator.unit := None |}
            _ _ _ _ _ _).
  - repeat constructor; cbn; intuition discriminate.
  - cbn. tauto.
  - vm_compute. reflexivity.
  - vm_compute. reflexivity.
  - reflexivity.
  - reflexivity.
Defined.

(** ** Sampling of traces and headers *)

Lemma Ok_inj {A} (a b : A) : Ok a = Ok b -> a = b.
Proof. now intros [= ->]. Qed.

Lemma for_each_map {A B} (f : A -> result B) (g : A -> B) (xs : list A) :
  (forall x, In x xs -> f x = Ok (g x)) -> for_each f xs = Ok (map g xs).
Proof.
  induction xs as [|x rest IH]; intros H; [reflexivity|].
  cbn [for_each map]. rewrite (H x) by now left.
  rewrite IH by (intros y Hy; apply H; now right). reflexivity.
Qed.

Lemma In_seqZ (i m n : Z) : In i (seqZ m n) <-> m <= i < m + n.
Proof. rewrite <- list_elem_of_In. apply elem_of_seqZ. Qed.

Lemma linspace_int_identity_table :
  forallb (fun n => bool_decide (linspace_int (n - 1) n = seqZ 0 n)) (seqZ 1 200)
  = true.
Proof. vm_compute. reflexivity. Qed.

(** Up to 200 samples of as many traces are the traces themselves, each
    once and in order. *)
Lemma linspace_int_identity (n : Z) :
  1 <= n <= 200 -> linspace_int (n - 1) n = seqZ 0 n.
Proof.
  intros Hn. pose proof linspace_int_identity_table as H.
  rewrite forallb_forall in H. specialize (H n).
  apply bool_decide_eq_true in H; [exact H|]. apply In_seqZ. lia.
Qed.

Lemma estimate_table :
  forallb
    (fun n =>
       forallb
         (fun k =>
            match int_of_float (int_truediv k n * float_of_Z n)%float with
            | Ok z => (z =? k) || ((z =? k - 1) && (0 <? k) && (k <? n))
            | Raise _ => false
            end)
         (seqZ 0 (n + 1)))
    (seqZ 1 100)
  = true.
Proof. vm_compute. reflexivity. Qed.

(** When the sample is the whole file of at most 100 traces, the estimate
    is the count itself or one less. *)
Lemma estimate_small (k n : Z) :
  1 <= n <= 100 -> 0 <= k <= n ->
  exists z, int_of_float (int_truediv k n * float_of_Z n)%float = Ok z
            /\ (z = k \/ (z = k - 1 /\ 0 < k < n)).
Proof.
  intros Hn Hk. pose proof estimate_table as H.
  rewrite forallb_forall in H. specialize (H n ltac:(apply In_seqZ; lia)).
  rewrite forallb_forall in H. specialize (H k ltac:(apply In_seqZ; lia)).
  destruct (int_of_float _) as [z|e]; [|discriminate].
  exists z. split; [reflexivity|].
  apply orb_true_iff in H. destruct H as [H|H].
  - left. now apply Z.eqb_eq.
  - right. apply andb_true_iff in H. destruct H as [H H3].
    apply andb_true_iff in H. destruct H as [H1 H2].
    apply Z.eqb_eq in H1. apply Z.ltb_lt in H2, H3. lia.
Qed.

(** X12.  On a 2D line of at most 100 traces, all of them readable, the
    null-trace analysis reads every trace once, in order, and the count it
    reports is the number of dead traces or one less; it can be one less
    only when some but not all traces are dead. *)
Theorem null_traces_of_short_line (np_std : list float -> float)
  (segy : SegyHandle) (n : Z) (traces : Z -> list float) :
  tracecount segy = Ok n -> 1 <= n <= 100 ->
  (forall i, 0 <= i < n -> trace segy i = Ok (traces i)) ->
  let dead :=
    Z.of_nat (length (List.filter (Seismic2D.is_dead np_std)
                        (map traces (seqZ 0 n)))) in
  let count := fst (Seismic2D._analyze_null_traces np_std segy) in
  Seismic2D.sampled_traces segy n 100 = Ok (map traces (seqZ 0 n))
  /\ (count = dead \/ (count = dead - 1 /\ 0 < dead < n)).
Proof.
  intros Hn Hsmall Hread dead count.
  assert (Hs : Seismic2D.sampled_traces segy n 100 = Ok (map traces (seqZ 0 n))).
  { unfold Seismic2D.sampled_traces.
    replace (Z.min 100 n) with n by lia.
    rewrite linspace_int_identity by lia.
    apply for_each_map. intros i Hi. apply Hread. apply In_seqZ in Hi. lia. }
  split; [exact Hs|].
  assert (Hd : 0 <= dead <= n).
  { unfold dead.
    pose proof (filter_count_le (Seismic2D.is_dead np_std) (map traces (seqZ 0 n))) as H.
    rewrite length_map, length_seqZ in H. lia. }
  destruct (estimate_small dead n ltac:(lia) Hd) as (z & Hz & Hcase).
  assert (E : count = z).
  { unfold count, Seismic2D._analyze_null_traces. rewrite Hn.
    cbn [mbind result_bind]. rewrite Hs. cbn [mbind result_bind].
    fold dead. unfold Seismic2D.estimate.
    replace (Z.min 100 n) with n by lia.
    replace (n =? 0) with false by (symmetry; apply Z.eqb_neq; lia).
    rewrite Hz. reflexivity. }
  rewrite E. exact Hcase.
Qed.

Lemma null_traces_of_short_line_witness :
  Seismic2D.sampled_traces Cases2D.line49 49 100
  = Ok (map (fun i => if i <? 1 then [0; 0; 0]%float else [1; 2; 3]%float)
          (seqZ 0 49))
  /\ (fst (Seismic2D._analyze_null_traces Samples.std Cases2D.line49)
      = Z.of_nat (length (List.filter (Seismic2D.is_dead Samples.std)
                            (map (fun i => if i <? 1 then [0; 0; 0]%float
                                           else [1; 2; 3]%float)
                               (seqZ 0 49))))
      \/ (fst (Seismic2D._analyze_null_traces Samples.std Cases2D.line49)
          = Z.of_nat (length (List.filter (Seismic2D.is_dead Samples.std)
                                (map (fun i => if i <? 1 then [0; 0; 0]%float
                                               else [1; 2; 3]%float)
                                   (seqZ 0 49)))) - 1
          /\ 0 < Z.of_nat (length (List.filter (Seismic2D.is_dead Samples.std)
                                     (map (fun i => if i <? 1 then [0; 0; 0]%float
                                                    else [1; 2; 3]%float)
                                        (seqZ 0 49)))) < 49)).
Proof.
  apply (null_traces_of_short_line Samples.std Cases2D.line49 49
           (fun i => if i <? 1 then [0; 0; 0]%float else [1; 2; 3]%float)).
  - reflexivity.
  - lia.
  - intros i _. reflexivity.
Defined.

(** The count can fall one short: of 49 traces one is dead, and none is
    reported, [1 / 49 * 49] being just below 1. *)
Example null_traces_one_short :
  length (List.filter (Seismic2D.is_dead Samples.std)
            (map (fun i => if i <? 1 then [0; 0; 0]%float else [1; 2; 3]%float)
               (seqZ 0 49))) = 1%nat
  /\ Seismic2D._analyze_null_traces Samples.std Cases2D.line49 = (0, 0%float)
  /\ Seismic3D._extract_trace_quality Cases2D.line49 !! "Null/Dead Traces"
     = Some "0"
  /\ Seismic3D._count_null_traces Cases2D.line49 = 0.
Proof. repeat split; vm_compute; reflexivity. Qed.

(** ** Uniformity of trace lengths *)

Lemma size_list_to_set_1 (l : list nat) :
  size (list_to_set l : gset nat) = 1%nat <->
  l <> [] /\ forall x y, In x l -> In y l -> x = y.
Proof.
  split.
  - intros Hs. apply size_1_elem_of in Hs. destruct Hs as [a Ha].
    apply leibniz_equiv in Ha.
    assert (Hall : forall x, In x l -> x = a).
    { intros x Hx. apply list_elem_of_In in Hx.
      assert (x ∈ (list_to_set l : gset nat)) as Hin by now apply elem_of_list_to_set.
      rewrite Ha in Hin. now apply elem_of_singleton in Hin. }
    split.
    + intros ->. cbn in Ha. symmetry in Ha.
      now apply (non_empty_singleton_L (C := gset nat)) in Ha.
    + intros x y Hx Hy. rewrite (Hall x Hx), (Hall y Hy). reflexivity.
  - intros [Hne Hall]. destruct l as [|a rest]; [done|].
    assert (E : (list_to_set (a :: rest) : gset nat) = {[a]}).
    { apply set_eq. intros x. rewrite elem_of_list_to_set, elem_of_singleton.
      rewrite list_elem_of_In. split.
      - intros Hx. apply Hall; [exact Hx | now left].
      - intros ->. now left. }
    rewrite E. apply size_singleton.
Qed.

(** X13.  The trace-length check reads up to ten traces spread evenly over
    the file.  When they can be read, it answers Uniform exactly when there
    is at least one of them and they all have the same number of samples; a
    file with no trace is reported as Non-uniform (0 different lengths). *)
Theorem trace_length_uniformity (segy : SegyHandle) (n : Z)
  (traces : list (list float)) :
  tracecount segy = Ok n -> 0 <= n ->
  for_each (trace segy) (linspace_int (n - 1) (Z.min 10 n)) = Ok traces ->
  (Line2D._check_trace_length_uniformity segy = "Uniform"
   <-> traces <> []
       /\ forall t1 t2, In t1 traces -> In t2 traces -> length t1 = length t2)
  /\ (n = 0 ->
      Line2D._check_trace_length_uniformity segy
      = "Non-uniform (0 different lengths)").
Proof.
  intros Hn Hpos Hread.
  unfold Line2D._check_trace_length_uniformity, Line2D.np_linspace_int.
  rewrite Hn. cbn [mbind result_bind].
  replace (Z.min 10 n <? 0) with false by (symmetry; apply Z.ltb_ge; lia).
  cbn [mbind result_bind]. rewrite Hread. cbn [mbind result_bind].
  split.
  - destruct (size _ =? 1)%nat eqn:E.
    + apply Nat.eqb_eq in E. apply size_list_to_set_1 in E. destruct E as [Hne Hall].
      split; [intros _|reflexivity]. split.
      * intros ->. now apply Hne.
      * intros t1 t2 H1 H2. apply Hall; now apply in_map.
    + apply Nat.eqb_neq in E. split; [discriminate|]. intros [Hne Hall].
      exfalso. apply E. apply size_list_to_set_1. split.
      * destruct traces; [done | discriminate].
      * intros x y Hx Hy. apply in_map_iff in Hx, Hy.
        destruct Hx as (t1 & <- & H1), Hy as (t2 & <- & H2). now apply Hall.
  - intros ->. cbn in Hread. injection Hread as <-. reflexivity.
Qed.

Lemma trace_length_uniformity_witness :
  (Line2D._check_trace_length_uniformity Samples.line6 = "Uniform"
   <-> repeat [0; 0; 0]%float 2 ++ repeat [1; 2; 3]%float 4 <> []
       /\ forall t1 t2,
            In t1 (repeat [0; 0; 0]%float 2 ++ repeat [1; 2; 3]%float 4) ->
            In t2 (repeat [0; 0; 0]%float 2 ++ repeat [1; 2; 3]%float 4) ->
            length t1 = length t2)
  /\ (6 = 0 ->
      Line2D._check_trace_length_uniformity Samples.line6
      = "Non-uniform (0 different lengths)").
Proof.
  apply (trace_length_uniformity Samples.line6 6).
  - reflexivity.
  - lia.
  - vm_compute. reflexivity.
Defined.

(** ** Bounds of the null-trace estimate *)

Lemma int_of_float_finite (x : float) (m : positive) (e : Z) :
  Prim2SF x = S754_finite false m e -> e <= 0 ->
  int_of_float x = Ok (Zpos m / 2 ^ (- e)).
Proof.
  intros F He. unfold int_of_float. rewrite F.
  destruct e as [|p|p]; try lia.
  - cbn [Z.shiftl Z.opp]. change (2 ^ 0) with 1. now rewrite Z.div_1_r.
  - rewrite Z.shiftr_div_pow2 by lia. reflexivity.
Qed.

Lemma int_of_float_float_of_Z (n : Z) :
  0 < n < 2 ^ 53 -> int_of_float (float_of_Z n) = Ok n.
Proof.
  intros Hn. destruct (float_of_Z_spec n Hn) as (m & e & F & _ & He & E).
  rewrite (int_of_float_finite _ _ _ F) by lia. f_equal.
  rewrite E. apply Z.div_mul.
  assert (0 < 2 ^ (- e)) by (apply Z.pow_pos_nonneg; lia). lia.
Qed.

Lemma one_mul (c : float) (mc : positive) (ec : Z) :
  Prim2SF c = S754_finite false mc ec ->
  2 ^ 52 <= Zpos mc < 2 ^ 53 -> -52 <= ec <= 0 ->
  (1 * c)%float = c.
Proof.
  intros F Hm He. apply Prim2SF_inj. rewrite mul_spec, F.
  change (Prim2SF 1) with (S754_finite false (2 ^ 52) (-52)).
  unfold SF64mul, SFmul. cbn [xorb].
  replace (Zpos (2 ^ 52 * mc)) with (Zpos mc * 2 ^ 52) by (cbn; lia).
  rewrite (binary_round_aux_shifted false mc 52 (-52 + ec)) by lia.
  f_equal. lia.
Qed.

(** [int((k / m) * n)] for counts [0 <= k <= m] lies between 0 and [n]. *)
Lemma estimate_bounds (k m n : Z) :
  0 <= k <= m -> 0 < m < 2 ^ 53 -> 0 < n < 2 ^ 53 ->
  exists z, int_of_float (int_truediv k m * float_of_Z n)%float = Ok z
            /\ 0 <= z <= n.
Proof.
  intros Hk Hm Hn.
  destruct (float_of_Z_spec n Hn) as (mc & ec & Fc & Hmc & Hec & En).
  destruct (Z.eq_dec k 0) as [->|Hk0].
  { rewrite int_truediv_zero, (zero_mul_finite _ _ _ Fc) by done.
    exists 0. split; [reflexivity | lia]. }
  destruct (div_le_one k m) as (mq & eq & Fq & Hq); [lia | lia |].
  pose proof Hq as (Hmq & Heq & [Hlt|[-> Hone]]).
  - destruct (mul_unit_fraction _ _ mq mc eq ec Fq Hq Fc Hmc Hec)
      as (m' & e' & F & Hm' & He' & Hle).
    specialize (Hle Hlt).
    assert (He0 : e' <= 0) by lia.
    rewrite (int_of_float_finite _ _ _ F He0). eexists. split; [reflexivity|].
    assert (HA : 0 < 2 ^ (- ec)) by (apply Z.pow_pos_nonneg; lia).
    split; [apply Z.div_pos; [lia | apply Z.pow_pos_nonneg; lia]|].
    destruct Hle as [Hlt'|[-> Hmm]].
    + assert (E : 2 ^ (- e') = 2 ^ (- ec) * 2 ^ (ec - e')).
      { rewrite <- Z.pow_add_r by lia. f_equal. lia. }
      assert (HB : 2 ^ 1 <= 2 ^ (ec - e')) by (apply Z.pow_le_mono_r; lia).
      rewrite E. apply Z.lt_succ_r. apply Z.div_lt_upper_bound.
      { apply Z.mul_pos_pos; lia. }
      change (2 ^ 1) with 2 in HB.
      change (2 ^ 52) with 4503599627370496 in *.
      change (2 ^ 53) with 9007199254740992 in *.
      revert HA HB En. generalize (2 ^ (- ec)), (2 ^ (ec - e')).
      intros A B HA HB En. nia.
    + apply Z.lt_succ_r. apply Z.div_lt_upper_bound; [lia|].
      revert HA En. generalize (2 ^ (- ec)). intros A HA En. nia.
  - assert (E1 : int_truediv k m = 1%float).
    { apply Prim2SF_inj. rewrite Fq.
      change (Prim2SF 1) with (S754_finite false (2 ^ 52) (-52)).
      f_equal. apply Pos2Z.inj. exact Hone. }
    rewrite E1, (one_mul _ _ _ Fc Hmc Hec), int_of_float_float_of_Z by done.
    exists n. split; [reflexivity | lia].
Qed.

Lemma range_step_length_le (n step : Z) :
  0 < step -> 0 <= n -> Z.of_nat (length (range_step n step)) <= n.
Proof.
  intros Hs Hn. unfold range_step. rewrite length_map, length_seqZ.
  destruct (Z.eq_dec n 0) as [->|Hne].
  - rewrite Z.div_small by lia. lia.
  - assert ((n + step - 1) / step <= n); [|lia].
    apply Z.lt_succ_r. apply Z.div_lt_upper_bound; [lia|]. nia.
Qed.

(** X14.  The null-trace estimates stay within the trace count.  For a file
    of n traces (n below 2^53) the count of the 2D analysis and that of
    [_count_null_traces] lie between 0 and n, and [_extract_trace_quality]
    either reports a number of null traces between 0 and n together with the
    valid traces as the difference, which is thus never negative, or
    reports neither of the two and an error instead. *)
Theorem null_estimates_within_trace_count (np_std : list float -> float)
  (segy : SegyHandle) (n : Z) :
  tracecount segy = Ok n -> 0 <= n < 2 ^ 53 ->
  0 <= fst (Seismic2D._analyze_null_traces np_std segy) <= n
  /\ 0 <= Seismic3D._count_null_traces segy <= n
  /\ ((exists est,
         0 <= est <= n
         /\ Seismic3D._extract_trace_quality segy !! "Null/Dead Traces"
            = Some (str_of_Z est)
         /\ Seismic3D._extract_trace_quality segy !! "Valid Traces"
            = Some (str_of_Z (n - est)))
      \/ (Seismic3D._extract_trace_quality segy !! "Null/Dead Traces" = None
          /\ Seismic3D._extract_trace_quality segy !! "Valid Traces" = None
          /\ is_Some (Seismic3D._extract_trace_quality segy
                        !! "Trace Quality Error"))).
Proof.
  intros Hn Hrange. split; [|split].
  - unfold Seismic2D._analyze_null_traces. rewrite Hn. cbn [mbind result_bind].
    destruct (Seismic2D.sampled_traces segy n 100) as [traces|e] eqn:Hs;
      cbn [mbind result_bind fst]; [|lia].
    unfold Seismic2D.estimate.
    destruct (Z.min 100 n =? 0) eqn:E0; cbn [mbind result_bind fst]; [lia|].
    apply Z.eqb_neq in E0.
    assert (Hlen : Z.of_nat (length traces) = Z.min 100 n).
    { unfold Seismic2D.sampled_traces in Hs. rewrite (for_each_length _ _ _ Hs).
      apply linspace_int_length. lia. }
    pose proof (filter_count_le (Seismic2D.is_dead np_std) traces) as Hk.
    destruct (estimate_bounds
                (Z.of_nat (length (List.filter (Seismic2D.is_dead np_std) traces)))
                (Z.min 100 n) n) as (z & Hz & Hb); [lia | lia | lia |].
    rewrite Hz. cbn [mbind result_bind fst]. exact Hb.
  - unfold Seismic3D._count_null_traces. rewrite Hn. cbn [mbind result_bind].
    destruct (Z.min 50 n =? 0) eqn:E0; cbn [mbind result_bind]; [lia|].
    apply Z.eqb_neq in E0.
    destruct (for_each (trace segy) _) as [traces|e] eqn:Hs;
      cbn [mbind result_bind]; [|lia].
    destruct (0 <? Z.of_nat (length traces)) eqn:Epos; [|lia].
    apply Z.ltb_lt in Epos.
    pose proof (filter_count_le Seismic3D.is_null_trace traces) as Hk.
    assert (Hlen : Z.of_nat (length traces) <= n).
    { rewrite (for_each_length _ _ _ Hs). apply range_step_length_le; lia. }
    destruct (estimate_bounds
                (Z.of_nat (length (List.filter Seismic3D.is_null_trace traces)))
                (Z.of_nat (length traces)) n) as (z & Hz & Hb); [lia | lia | lia |].
    rewrite Hz. exact Hb.
  - unfold Seismic3D._extract_trace_quality. rewrite Hn. cbn [mbind result_bind].
    unfold Seismic3D.sample_indices.
    destruct (Z.min 100 n =? 0) eqn:E0; cbn [mbind result_bind];
      [right; repeat split; lookup_inserts|].
    apply Z.eqb_neq in E0.
    destruct (for_each (trace segy) _) as [traces|e] eqn:Hs;
      cbn [mbind result_bind]; [|right; repeat split; lookup_inserts].
    destruct (Seismic3D.as_matrix traces) as [rows|e] eqn:Hm;
      cbn [mbind result_bind]; [|right; repeat split; lookup_inserts].
    assert (Hrows : rows = traces /\ traces <> []).
    { unfold Seismic3D.as_matrix in Hm. destruct traces as [|t rest]; [discriminate|].
      destruct (forallb _ rest); [|discriminate]. injection Hm as <-. done. }
    destruct Hrows as [-> Hne].
    assert (Hlen : 0 < Z.of_nat (length traces) <= 100).
    { split; [destruct traces; [done | cbn [length]; lia]|].
      rewrite (for_each_length _ _ _ Hs), length_take. lia. }
    pose proof (filter_count_le Seismic3D.is_zero_trace traces) as Hk.
    unfold Seismic3D.estimate.
    destruct (estimate_bounds
                (Z.of_nat (length (List.filter Seismic3D.is_zero_trace traces)))
                (Z.of_nat (length traces)) n) as (z & Hz & Hb); [lia | lia | lia |].
    rewrite Hz. cbn [mbind result_bind]. left. exists z.
    split; [exact Hb|]. split; lookup_inserts.
Qed.

Lemma null_estimates_within_trace_count_witness :
  0 <= fst (Seismic2D._analyze_null_traces Samples.std Samples.volume125) <= 125
  /\ 0 <= Seismic3D._count_null_traces Samples.volume125 <= 125
  /\ ((exists est,
         0 <= est <= 125
         /\ Seismic3D._extract_trace_quality Samples.volume125 !! "Null/Dead Traces"
            = Some (str_of_Z est)
         /\ Seismic3D._extract_trace_quality Samples.volume125 !! "Valid Traces"
            = Some (str_of_Z (125 - est)))
      \/ (Seismic3D._extract_trace_quality Samples.volume125 !! "Null/Dead Traces"
          = None
          /\ Seismic3D._extract_trace_quality Samples.volume125 !! "Valid Traces"
             = None
          /\ is_Some (Seismic3D._extract_trace_quality Samples.volume125
                        !! "Trace Quality Error"))).
Proof.
  apply (null_estimates_within_trace_count Samples.std Samples.volume125 125).
  - reflexivity.
  - lia.
Defined.

(** ** Coordinates of a 2D line *)

Section Coordinates.
Import Seismic2D.

Variable segy : SegyHandle.
Variable hs : Z -> TraceField -> Z.

(** The valid coordinate pairs among the first [m] trace headers. *)
Let valid_pairs (fields : TraceField * TraceField) (m : Z) : list (Z * Z) :=
  List.filter (fun '(x, y) => valid_coord x y)
    (map (fun i => (hs i (fst fields), hs i (snd fields))) (seqZ 0 m)).

Lemma probe_readable (n : Z) (fields : TraceField * TraceField) :
  (forall i, 0 <= i < Z.min 50 n -> header segy i = Ok (hs i)) ->
  probe segy n fields = Ok (valid_pairs fields (Z.min 50 n)).
Proof.
  intros Hread. unfold probe.
  rewrite (for_each_map (header segy) hs)
    by (intros i Hi; apply Hread; apply In_seqZ in Hi; lia).
  cbn [mbind result_bind]. unfold valid_pairs. now rewrite map_map.
Qed.

Lemma choose_fields_readable (n : Z)
  (candidates : list (TraceField * TraceField)) :
  (forall i, 0 <= i < Z.min 50 n -> header segy i = Ok (hs i)) ->
  choose_fields segy n candidates
  = Ok (List.find (fun fields =>
                     (5 <? length (valid_pairs fields (Z.min 50 n)))%nat)
          candidates).
Proof.
  intros Hread. induction candidates as [|fields rest IH]; [reflexivity|].
  cbn [choose_fields List.find]. rewrite (probe_readable n fields Hread).
  cbn [mbind result_bind].
  destruct (5 <? length (valid_pairs fields (Z.min 50 n)))%nat; [reflexivity|exact IH].
Qed.

Lemma collect_coords_readable (n : Z) (fields : TraceField * TraceField) :
  1 <= n <= 200 ->
  (forall i, 0 <= i < n -> header segy i = Ok (hs i)) ->
  collect_coords segy n fields = Ok (valid_pairs fields n).
Proof.
  intros Hn Hread. unfold collect_coords.
  replace (Z.min 200 n) with n by lia.
  rewrite linspace_int_identity by lia.
  rewrite (for_each_map (header segy) hs)
    by (intros i Hi; apply Hread; apply In_seqZ in Hi; lia).
  cbn [mbind result_bind]. unfold valid_pairs. now rewrite map_map.
Qed.

Lemma valid_pairs_length_mono (fields : TraceField * TraceField) (a b : Z) :
  0 <= a <= b ->
  (length (valid_pairs fields a) <= length (valid_pairs fields b))%nat.
Proof.
  intros Hab. unfold valid_pairs.
  replace b with (a + (b - a)) by lia.
  rewrite seqZ_app by lia. rewrite map_app, List.filter_app, length_app. lia.
Qed.

End Coordinates.

(** X15.  The header fields of the 2D geometry.  When the first 50 trace
    headers (all of them, on a shorter line) can be read, the pair of fields
    chosen is the first of CDP X/Y, source X/Y and group X/Y for which more
    than five of these headers hold a valid coordinate pair, and no pair is
    chosen when there is none. *)
Theorem coordinate_fields_first_match (segy : SegyHandle) (n : Z)
  (hs : Z -> TraceField -> Z) :
  (forall i, 0 <= i < Z.min 50 n -> header segy i = Ok (hs i)) ->
  let valid fields :=
    List.filter (fun '(x, y) => Seismic2D.valid_coord x y)
      (map (fun i => (hs i (fst fields), hs i (snd fields)))
         (seqZ 0 (Z.min 50 n))) in
  Seismic2D.choose_fields segy n Seismic2D.coord_candidates
  = Ok (List.find (fun fields => (5 <? length (valid fields))%nat)
          [(CDP_X, CDP_Y); (SourceX, SourceY); (GroupX, GroupY)]).
Proof.
  intros Hread valid. exact (choose_fields_readable segy hs n _ Hread).
Qed.

Lemma coordinate_fields_first_match_witness :
  let hs := fun (i : Z) (f : TraceField) =>
              match f with CDP_X | CDP_Y => 3 * (i + 1) | _ => 0 end in
  let valid fields :=
    List.filter (fun '(x, y) => Seismic2D.valid_coord x y)
      (map (fun i => (hs i (fst fields), hs i (snd fields)))
         (seqZ 0 (Z.min 50 6))) in
  Seismic2D.choose_fields Samples.line6 6 Seismic2D.coord_candidates
  = Ok (List.find (fun fields => (5 <? length (valid fields))%nat)
          [(CDP_X, CDP_Y); (SourceX, SourceY); (GroupX, GroupY)]).
Proof.
  apply (coordinate_fields_first_match Samples.line6 6
           (fun i f => match f with CDP_X | CDP_Y => 3 * (i + 1) | _ => 0 end)).
  intros i _. reflexivity.
Defined.

(** X16.  On a line of at most 200 traces whose headers can be read, the
    coordinates collected for a pair of fields are the valid coordinate pairs
    of all the traces, in trace order.  When that pair is the chosen one,
    there are at least six of them, and the five entries of the line
    geometry are the renderings of the geometry of these coordinates, or are
    all Error when its computation raises. *)
Theorem short_line_geometry_reads_every_header (segy : SegyHandle) (n : Z)
  (hs : Z -> TraceField -> Z) (fields : TraceField * TraceField) :
  tracecount segy = Ok n -> 1 <= n <= 200 ->
  (forall i, 0 <= i < n -> header segy i = Ok (hs i)) ->
  let coords :=
    List.filter (fun '(x, y) => Seismic2D.valid_coord x y)
      (map (fun i => (hs i (fst fields), hs i (snd fields))) (seqZ 0 n)) in
  Seismic2D.collect_coords segy n fields = Ok coords
  /\ (Seismic2D.choose_fields segy n Seismic2D.coord_candidates = Ok (Some fields) ->
      (6 <= length coords)%nat
      /\ Seismic2D._calculate_line_geometry segy
         = match Seismic2D.geometry_of_coords coords with
           | Ok g =>
               {| Seismic2D.g_straight_distance :=
                    format_f 2 (Seismic2D.straight_dist g);
                  Seismic2D.g_total_length :=
                    format_f 3 (Seismic2D.total_length g / 1000)%float;
                  Seismic2D.g_sinuosity := format_f 3 (Seismic2D.sinuosity g);
                  Seismic2D.g_shape := Seismic2D.shape g;
                  Seismic2D.g_order := Seismic2D.order g |}
           | Raise _ =>
               {| Seismic2D.g_straight_distance := "Error";
                  Seismic2D.g_total_length := "Error";
                  Seismic2D.g_sinuosity := "Error";
                  Seismic2D.g_shape := "Error";
                  Seismic2D.g_order := "Error" |}
           end).
Proof.
  intros Hn Hsmall Hread coords.
  pose proof (collect_coords_readable segy hs n fields Hsmall Hread) as Hcollect.
  split; [exact Hcollect|]. intros Hchoose.
  assert (Hlen : (6 <= length coords)%nat).
  { rewrite (choose_fields_readable segy hs n) in Hchoose
      by (intros i Hi; apply Hread; lia).
    apply Ok_inj in Hchoose. apply List.find_some in Hchoose.
    rename Hchoose into Hfind.
    destruct Hfind as [_ Hmany]. apply Nat.ltb_lt in Hmany.
    pose proof (valid_pairs_length_mono hs fields (Z.min 50 n) n ltac:(lia)) as Hmono.
    unfold coords. cbv zeta in Hmono. lia. }
  split; [exact Hlen|].
  unfold Seismic2D._calculate_line_geometry. rewrite Hn. cbn [mbind result_bind].
  rewrite Hchoose. cbn [mbind result_bind]. rewrite Hcollect.
  cbn [mbind result_bind]. fold coords.
  replace (length coords <? 2)%nat with false
    by (symmetry; apply Nat.ltb_ge; lia).
  destruct (Seismic2D.geometry_of_coords coords); reflexivity.
Qed.

Lemma short_line_geometry_reads_every_header_witness :
  let hs := fun (i : Z) (f : TraceField) =>
              match f with CDP_X | CDP_Y => 3 * (i + 1) | _ => 0 end in
  let coords :=
    List.filter (fun '(x, y) => Seismic2D.valid_coord x y)
      (map (fun i => (hs i (fst (CDP_X, CDP_Y)), hs i (snd (CDP_X, CDP_Y))))
         (seqZ 0 6)) in
  Seismic2D.collect_coords Samples.line6 6 (CDP_X, CDP_Y) = Ok coords
  /\ (Seismic2D.choose_fields Samples.line6 6 Seismic2D.coord_candidates
      = Ok (Some (CDP_X, CDP_Y)) ->
      (6 <= length coords)%nat
      /\ Seismic2D._calculate_line_geometry Samples.line6
         = match Seismic2D.geometry_of_coords coords with
           | Ok g =>
               {| Seismic2D.g_straight_distance :=
                    format_f 2 (Seismic2D.straight_dist g);
                  Seismic2D.g_total_length :=
                    format_f 3 (Seismic2D.total_length g / 1000)%float;
                  Seismic2D.g_sinuosity := format_f 3 (Seismic2D.sinuosity g);
                  Seismic2D.g_shape := Seismic2D.shape g;
                  Seismic2D.g_order := Seismic2D.order g |}
           | Raise _ =>
               {| Seismic2D.g_straight_distance := "Error";
                  Seismic2D.g_total_length := "Error";
                  Seismic2D.g_sinuosity := "Error";
                  Seismic2D.g_shape := "Error";
                  Seismic2D.g_order := "Error" |}
           end).
Proof.
  apply (short_line_geometry_reads_every_header Samples.line6 6
           (fun i f => match f with CDP_X | CDP_Y => 3 * (i + 1) | _ => 0 end)
           (CDP_X, CDP_Y)).
  - reflexivity.
  - lia.
  - intros i _. reflexivity.
Defined.

(** ** The QC checks of the 3D validator *)

Example format_thousands_samples :
  map format_thousands [0; 999; 1000; 10001; 1234567; -1234]
  = ["0"; "999"; "1,000"; "10,001"; "1,234,567"; "-1,234"].
Proof. vm_compute. reflexivity. Qed.

Section SurveyName.
Import Volume3D.

Lemma contains_one_char (needle : string) (c : ascii) :
  (2 <= String.length needle)%nat ->
  contains needle (String c EmptyString) = false.
Proof.
  destruct needle as [|a [|b rest]]; cbn [String.length]; try lia. intros _.
  cbn [contains String.prefix]. destruct (ascii_dec a c); reflexivity.
Qed.

Lemma survey_line_chars (chars : list ascii) :
  survey_line (map (fun c => String c EmptyString) chars) = "N/A".
Proof.
  induction chars as [|c rest IH]; [reflexivity|].
  cbn [map survey_line upper].
  rewrite !contains_one_char by (cbn; lia). exact IH.
Qed.

End SurveyName.

(** X17.  [_extract_survey_name] always answers N/A: its loop runs over the
    first five characters of the text header, not over its lines, and no
    single character holds SURVEY or 3D. *)
Theorem survey_name_is_never_found (text_header : result string) :
  Volume3D._extract_survey_name text_header = "N/A".
Proof.
  unfold Volume3D._extract_survey_name.
  destruct text_header as [text|e]; [apply survey_line_chars | reflexivity].
Qed.

Lemma or_exists_cons {A} (P : A -> Prop) (a : A) (l : list A) (Q : Prop) :
  ((Q \/ P a) \/ exists k, In k l /\ P k)
  <-> (Q \/ exists k, (a = k \/ In k l) /\ P k).
Proof.
  split.
  - intros [[H|H]|(k & Hk & Hv)];
      [now left | right; exists a; tauto | right; exists k; tauto].
  - intros [H|(k & [->|Hk] & Hv)]; [tauto | tauto | right; exists k; tauto].
Qed.

Section GeometryCheck.
Import Volume3D.

Variable segy : SegyHandle.
Variable hs : Z -> TraceField -> Z.

Lemma geometry_scan_readable (indices : list Z) (has_inline has_xline : bool) :
  (forall i, In i indices -> header segy i = Ok (hs i)) ->
  exists a b,
    geometry_scan segy indices has_inline has_xline = Ok (a, b)
    /\ (a && b = true <->
        (has_inline = true \/ exists i, In i indices /\ hs i INLINE_3D <> 0)
        /\ (has_xline = true \/ exists j, In j indices /\ hs j CROSSLINE_3D <> 0)).
Proof.
  revert has_inline has_xline.
  induction indices as [|i rest IH]; intros has_inline has_xline Hread.
  - exists has_inline, has_xline. split; [reflexivity|].
    rewrite andb_true_iff. split; [tauto|].
    intros [[H1|(i & [] & _)] [H2|(j & [] & _)]]. tauto.
  - cbn [geometry_scan]. rewrite (Hread i) by now left. cbn [mbind result_bind].
    set (a' := has_inline || negb (hs i INLINE_3D =? 0)).
    set (b' := has_xline || negb (hs i CROSSLINE_3D =? 0)).
    assert (Ha : a' = true <-> has_inline = true \/ hs i INLINE_3D <> 0).
    { unfold a'. rewrite orb_true_iff, negb_true_iff, Z.eqb_neq. reflexivity. }
    assert (Hb : b' = true <-> has_xline = true \/ hs i CROSSLINE_3D <> 0).
    { unfold b'. rewrite orb_true_iff, negb_true_iff, Z.eqb_neq. reflexivity. }
    destruct (a' && b') eqn:E.
    + exists a', b'. split; [reflexivity|]. rewrite E. split; [intros _|reflexivity].
      apply andb_true_iff in E. destruct E as [Ea Eb].
      apply Ha in Ea. apply Hb in Eb.
      split; [destruct Ea as [?|?] | destruct Eb as [?|?]];
        first [now left | right; exists i; split; [now left | assumption]].
    + destruct (IH a' b') as (a & b & Hscan & Hiff);
        [intros j Hj; apply Hread; now right|].
      exists a, b. split; [exact Hscan|]. rewrite Hiff, Ha, Hb. cbn [In].
      pose proof (or_exists_cons (fun k => hs k INLINE_3D <> 0) i rest
                    (has_inline = true)) as E1.
      pose proof (or_exists_cons (fun k => hs k CROSSLINE_3D <> 0) i rest
                    (has_xline = true)) as E2.
      cbv beta in E1, E2. rewrite E1, E2. reflexivity.
Qed.

End GeometryCheck.

(** X18.  When the first 100 trace headers (all of them, in a smaller file)
    can be read, the geometry check passes exactly when one of them holds a
    non-zero inline number and one of them, possibly another one, holds a
    non-zero crossline number; otherwise it fails with No 3D geometry
    info. *)
Theorem geometry_check_detects (segy : SegyHandle) (n : Z)
  (hs : Z -> TraceField -> Z) :
  tracecount segy = Ok n ->
  (forall i, 0 <= i < Z.min 100 n -> header segy i = Ok (hs i)) ->
  (Volume3D._geometry_check segy = (true, "3D geometry detected")
   <-> (exists i, 0 <= i < Z.min 100 n /\ hs i INLINE_3D <> 0)
       /\ (exists j, 0 <= j < Z.min 100 n /\ hs j CROSSLINE_3D <> 0))
  /\ (Volume3D._geometry_check segy = (true, "3D geometry detected")
      \/ Volume3D._geometry_check segy = (false, "No 3D geometry info")).
Proof.
  intros Hn Hread. unfold Volume3D._geometry_check. rewrite Hn.
  cbn [mbind result_bind].
  destruct (geometry_scan_readable segy hs (seqZ 0 (Z.min 100 n)) false false)
    as (a & b & Hscan & Hiff).
  { intros i Hi. apply Hread. apply In_seqZ in Hi. lia. }
  rewrite Hscan.
  assert (Hiff' : a && b = true <->
            (exists i, 0 <= i < Z.min 100 n /\ hs i INLINE_3D <> 0)
            /\ (exists j, 0 <= j < Z.min 100 n /\ hs j CROSSLINE_3D <> 0)).
  { rewrite Hiff. split.
    - intros [[[=]|(i & Hi & Hv)] [[=]|(j & Hj & Hw)]].
      apply In_seqZ in Hi, Hj. split; [exists i | exists j]; split; (lia || assumption).
    - intros [(i & Hi & Hv) (j & Hj & Hw)].
      split; right; [exists i | exists j]; (split; [apply In_seqZ; lia | assumption]). }
  destruct (a && b).
  - split; [|now left]. split; [intros _; now apply Hiff' | reflexivity].
  - split; [|now right]. split; [discriminate|]. intros H. apply Hiff' in H. discriminate.
Qed.

Lemma geometry_check_detects_witness :
  let hs := fun (i : Z) (f : TraceField) =>
              match f with
              | INLINE_3D => if i =? 0 then 0 else 10 - i
              | CROSSLINE_3D => if i =? 0 then 5 else 0
              | _ => 0
              end in
  (Volume3D._geometry_check Cases3D.sparse_headers = (true, "3D geometry detected")
   <-> (exists i, 0 <= i < Z.min 100 4 /\ hs i INLINE_3D <> 0)
       /\ (exists j, 0 <= j < Z.min 100 4 /\ hs j CROSSLINE_3D <> 0))
  /\ (Volume3D._geometry_check Cases3D.sparse_headers = (true, "3D geometry detected")
      \/ Volume3D._geometry_check Cases3D.sparse_headers
         = (false, "No 3D geometry info")).
Proof.
  apply (geometry_check_detects Cases3D.sparse_headers 4
           (fun i f => match f with
                       | INLINE_3D => if i =? 0 then 0 else 10 - i
                       | CROSSLINE_3D => if i =? 0 then 5 else 0
                       | _ => 0
                       end)).
  - reflexivity.
  - intros i _. reflexivity.
Defined.

(** ** Inline and crossline ranges *)

Lemma str_of_Z_head (z : Z) :
  exists c t, str_of_Z z = String c t /\ c <> "N"%char.
Proof.
  unfold str_of_Z, NilZero.string_of_int.
  destruct (Z.to_int z) as [d|d].
  - destruct d; cbn; eexists; eexists; (split; [reflexivity | discriminate]).
  - eexists; eexists. split; [reflexivity | discriminate].
Qed.

Lemma fold_min_spec (l : list Z) (v : Z) :
  In (fold_left Z.min l v) (v :: l)
  /\ Forall (fun x => fold_left Z.min l v <= x) (v :: l).
Proof.
  revert v. induction l as [|x rest IH]; intros v; cbn [fold_left].
  - split; [now left | constructor; [lia | constructor]].
  - destruct (IH (Z.min v x)) as [Hin Hall].
    inversion Hall as [|? ? Hm Hrest]; subst. split.
    + cbn [In]. cbn [In] in Hin. destruct Hin as [E|Hin]; [|right; right; exact Hin].
      destruct (Z.min_spec v x) as [[_ E']|[_ E']]; [left | right; left]; congruence.
    + constructor; [lia|]. constructor; [lia | exact Hrest].
Qed.

Lemma fold_max_spec (l : list Z) (v : Z) :
  In (fold_left Z.max l v) (v :: l)
  /\ Forall (fun x => x <= fold_left Z.max l v) (v :: l).
Proof.
  revert v. induction l as [|x rest IH]; intros v; cbn [fold_left].
  - split; [now left | constructor; [lia | constructor]].
  - destruct (IH (Z.max v x)) as [Hin Hall].
    inversion Hall as [|? ? Hm Hrest]; subst. split.
    + cbn [In]. cbn [In] in Hin. destruct Hin as [E|Hin]; [|right; right; exact Hin].
      destruct (Z.max_spec v x) as [[_ E']|[_ E']]; [right; left | left]; congruence.
    + constructor; [lia|]. constructor; [lia | exact Hrest].
Qed.

Lemma range_text_spec (values : list Z) :
  (Volume3D.range_text values = "N/A" <-> values = [])
  /\ (values <> [] ->
      exists lo hi,
        Volume3D.range_text values = str_of_Z lo +:+ "-" +:+ str_of_Z hi
        /\ In lo values /\ In hi values
        /\ Forall (fun v => lo <= v <= hi) values).
Proof.
  destruct values as [|v rest]; cbn [Volume3D.range_text].
  - split; [tauto | done].
  - split.
    + split; [|discriminate]. intros H.
      destruct (str_of_Z_head (fold_left Z.min rest v)) as (c & t & E & Hc).
      rewrite E in H. cbn in H. injection H as H _. congruence.
    + intros _. exists (fold_left Z.min rest v), (fold_left Z.max rest v).
      destruct (fold_min_spec rest v) as [Hlo Hlo_all].
      destruct (fold_max_spec rest v) as [Hhi Hhi_all].
      split; [reflexivity|]. split; [exact Hlo|]. split; [exact Hhi|].
      rewrite List.Forall_forall in *. intros x Hx.
      specialize (Hlo_all x Hx). specialize (Hhi_all x Hx). lia.
Qed.

Lemma get_3d_ranges_readable (segy : SegyHandle) (n : Z) (indices : list Z)
  (hs : Z -> TraceField -> Z) :
  tracecount segy = Ok n ->
  Volume3D.range_indices n = Ok indices ->
  (forall i, In i indices -> header segy i = Ok (hs i)) ->
  Volume3D._get_3d_ranges segy
  = (Volume3D.range_text
       (List.filter (fun v => negb (v =? 0)) (map (fun i => hs i INLINE_3D) indices)),
     Volume3D.range_text
       (List.filter (fun v => negb (v =? 0)) (map (fun i => hs i CROSSLINE_3D) indices))).
Proof.
  intros Hn Hidx Hread. unfold Volume3D._get_3d_ranges. rewrite Hn.
  cbn [mbind result_bind]. rewrite Hidx. cbn [mbind result_bind].
  rewrite (for_each_map (header segy) hs _ Hread). cbn [mbind result_bind].
  unfold Volume3D.nonzero. now rewrite !map_map.
Qed.

Lemma eqb_NA (s : string) : String.eqb s "N/A" = true <-> s = "N/A".
Proof. apply String.eqb_eq. Qed.

(** X19.  Inline and crossline ranges are taken over the sampled trace
    headers whose number is not zero.  A range is N/A exactly when every
    sampled header holds zero, and the check then fails with Not found;
    otherwise the check passes and shows lo-hi, where lo and hi are non-zero
    numbers of sampled headers and bound all of these. *)
Theorem line_ranges_skip_zero (segy : SegyHandle) (n : Z) (indices : list Z)
  (hs : Z -> TraceField -> Z) :
  tracecount segy = Ok n ->
  Volume3D.range_indices n = Ok indices ->
  (forall i, In i indices -> header segy i = Ok (hs i)) ->
  let inlines :=
    List.filter (fun v => negb (v =? 0)) (map (fun i => hs i INLINE_3D) indices) in
  let xlines :=
    List.filter (fun v => negb (v =? 0)) (map (fun i => hs i CROSSLINE_3D) indices) in
  (fst (Volume3D._get_3d_ranges segy) = "N/A" <-> inlines = [])
  /\ (snd (Volume3D._get_3d_ranges segy) = "N/A" <-> xlines = [])
  /\ (inlines <> [] ->
      exists lo hi,
        Volume3D._inline_check segy
        = (true, str_of_Z lo +:+ "-" +:+ str_of_Z hi)
        /\ In lo inlines /\ In hi inlines
        /\ Forall (fun v => lo <= v <= hi) inlines)
  /\ (inlines = [] -> Volume3D._inline_check segy = (false, "Not found"))
  /\ (xlines <> [] ->
      exists lo hi,
        Volume3D._crossline_check segy
        = (true, str_of_Z lo +:+ "-" +:+ str_of_Z hi)
        /\ In lo xlines /\ In hi xlines
        /\ Forall (fun v => lo <= v <= hi) xlines)
  /\ (xlines = [] -> Volume3D._crossline_check segy = (false, "Not found")).
Proof.
  intros Hn Hidx Hread inlines xlines.
  pose proof (get_3d_ranges_readable segy n indices hs Hn Hidx Hread) as E.
  fold inlines xlines in E.
  unfold Volume3D._inline_check, Volume3D._crossline_check. rewrite E.
  cbn [fst snd].
  destruct (range_text_spec inlines) as [Hi_na Hi_range].
  destruct (range_text_spec xlines) as [Hx_na Hx_range].
  split; [exact Hi_na|]. split; [exact Hx_na|].
  split; [|split; [|split]].
  - intros Hne. destruct (Hi_range Hne) as (lo & hi & Et & Hlo & Hhi & Hall).
    exists lo, hi. split; [|tauto].
    destruct (String.eqb _ "N/A") eqn:Eq.
    + apply eqb_NA in Eq. apply Hi_na in Eq. contradiction.
    + now rewrite Et.
  - intros ->. reflexivity.
  - intros Hne. destruct (Hx_range Hne) as (lo & hi & Et & Hlo & Hhi & Hall).
    exists lo, hi. split; [|tauto].
    destruct (String.eqb _ "N/A") eqn:Eq.
    + apply eqb_NA in Eq. apply Hx_na in Eq. contradiction.
    + now rewrite Et.
  - intros ->. reflexivity.
Qed.

Lemma line_ranges_skip_zero_witness :
  let hs := fun (i : Z) (f : TraceField) =>
              match f with
              | INLINE_3D => if i =? 0 then 0 else 10 - i
              | CROSSLINE_3D => if i =? 0 then 5 else 0
              | _ => 0
              end in
  let inlines :=
    List.filter (fun v => negb (v =? 0)) (map (fun i => hs i INLINE_3D) [0; 1; 2; 3]) in
  let xlines :=
    List.filter (fun v => negb (v =? 0)) (map (fun i => hs i CROSSLINE_3D) [0; 1; 2; 3]) in
  (fst (Volume3D._get_3d_ranges Cases3D.sparse_headers) = "N/A" <-> inlines = [])
  /\ (snd (Volume3D._get_3d_ranges Cases3D.sparse_headers) = "N/A" <-> xlines = [])
  /\ (inlines <> [] ->
      exists lo hi,
        Volume3D._inline_check Cases3D.sparse_headers
        = (true, str_of_Z lo +:+ "-" +:+ str_of_Z hi)
        /\ In lo inlines /\ In hi inlines
        /\ Forall (fun v => lo <= v <= hi) inlines)
  /\ (inlines = [] ->
      Volume3D._inline_check Cases3D.sparse_headers = (false, "Not found"))
  /\ (xlines <> [] ->
      exists lo hi,
        Volume3D._crossline_check Cases3D.sparse_headers
        = (true, str_of_Z lo +:+ "-" +:+ str_of_Z hi)
        /\ In lo xlines /\ In hi xlines
        /\ Forall (fun v => lo <= v <= hi) xlines)
  /\ (xlines = [] ->
      Volume3D._crossline_check Cases3D.sparse_headers = (false, "Not found")).
Proof.
  apply (line_ranges_skip_zero Cases3D.sparse_headers 4 [0; 1; 2; 3]
           (fun i f => match f with
                       | INLINE_3D => if i =? 0 then 0 else 10 - i
                       | CROSSLINE_3D => if i =? 0 then 5 else 0
                       | _ => 0
                       end)).
  - reflexivity.
  - vm_compute. reflexivity.
  - intros i _. reflexivity.
Defined.

Example line_ranges_sample :
  Volume3D._get_3d_ranges Cases3D.sparse_headers = ("7-9", "5-5")
  /\ Volume3D._get_3d_ranges Samples.volume125 = ("1-5", "1-25")
  /\ Volume3D._get_3d_ranges Cases3D.empty_volume = ("N/A", "N/A").
Proof. repeat split; vm_compute; reflexivity. Qed.

(** ** Format codes *)

Lemma format_short_default (c : Z) :
  ~ In c Volume3D.valid_formats ->
  _get_format_short c = "Code " +:+ str_of_Z c
  /\ Seismic2D._get_format_description c = "Unknown (" +:+ str_of_Z c +:+ ")".
Proof.
  intros H. destruct c as [|p|p]; [split; reflexivity | | split; reflexivity].
  destruct p as [p|p|]; try destruct p as [p|p|]; try destruct p as [p|p|];
    try destruct p as [p|p|]; try (split; reflexivity);
    exfalso; apply H; unfold Volume3D.valid_formats; cbn [In];
    repeat (first [left; reflexivity | right]).
Qed.

(** X20.  The format check passes exactly on the codes 1, 2, 3, 5 and 8,
    which are the codes the name tables know.  For these the check shows the
    short name, which is not the default of the table; any other code fails
    with Unknown: and the code, and the tables answer with their defaults. *)
Theorem format_check_matches_tables (segy : SegyHandle) (c : Z) :
  bin segy Format = Ok c ->
  (fst (Volume3D._format_check segy) = true <-> In c [1; 2; 3; 5; 8])
  /\ (In c [1; 2; 3; 5; 8] ->
      Volume3D._format_check segy = (true, _get_format_short c)
      /\ _get_format_short c <> "Code " +:+ str_of_Z c
      /\ Seismic2D._get_format_description c
         <> "Unknown (" +:+ str_of_Z c +:+ ")")
  /\ (~ In c [1; 2; 3; 5; 8] ->
      Volume3D._format_check segy = (false, "Unknown: " +:+ str_of_Z c)
      /\ _get_format_short c = "Code " +:+ str_of_Z c
      /\ Seismic2D._get_format_description c
         = "Unknown (" +:+ str_of_Z c +:+ ")").
Proof.
  intros Hc. unfold Volume3D._format_check. rewrite Hc.
  assert (Hin : existsb (Z.eqb c) Volume3D.valid_formats = true
                <-> In c [1; 2; 3; 5; 8]).
  { rewrite existsb_exists. unfold Volume3D.valid_formats. split.
    - intros (x & Hx & E). apply Z.eqb_eq in E. now subst.
    - intros H. exists c. split; [exact H | apply Z.eqb_refl]. }
  destruct (existsb (Z.eqb c) Volume3D.valid_formats) eqn:E.
  - assert (H : In c [1; 2; 3; 5; 8]) by now apply Hin.
    split; [split; [intros _; exact H | reflexivity]|].
    split; [|contradiction].
    intros _. split; [reflexivity|].
    cbn [In] in H. destruct H as [<-|[<-|[<-|[<-|[<-|[]]]]]]; split; discriminate.
  - assert (H : ~ In c [1; 2; 3; 5; 8]) by (intros H; apply Hin in H; discriminate).
    split; [split; [discriminate | intros H'; contradiction]|].
    split; [contradiction|].
    intros _. split; [reflexivity|]. now apply format_short_default.
Qed.

Lemma format_check_matches_tables_witness :
  (fst (Volume3D._format_check Samples.line6) = true <-> In 5 [1; 2; 3; 5; 8])
  /\ (In 5 [1; 2; 3; 5; 8] ->
      Volume3D._format_check Samples.line6 = (true, _get_format_short 5)
      /\ _get_format_short 5 <> "Code " +:+ str_of_Z 5
      /\ Seismic2D._get_format_description 5
         <> "Unknown (" +:+ str_of_Z 5 +:+ ")")
  /\ (~ In 5 [1; 2; 3; 5; 8] ->
      Volume3D._format_check Samples.line6 = (false, "Unknown: " +:+ str_of_Z 5)
      /\ _get_format_short 5 = "Code " +:+ str_of_Z 5
      /\ Seismic2D._get_format_description 5
         = "Unknown (" +:+ str_of_Z 5 +:+ ")").
Proof.
  apply (format_check_matches_tables Samples.line6 5). reflexivity.
Defined.

(** ** The sample interval *)

Lemma forall_block_spec (k : nat) (lo : Z) (f : Z -> bool) :
  Enumeration.forall_block k lo f = true ->
  forall z, lo <= z < lo + 2 ^ Z.of_nat k -> f z = true.
Proof.
  revert lo. induction k as [|k IH]; intros lo H z Hz.
  - cbn in Hz. cbn [Enumeration.forall_block] in H.
    replace z with lo by lia. exact H.
  - cbn [Enumeration.forall_block] in H. apply andb_true_iff in H.
    destruct H as [H1 H2].
    rewrite Nat2Z.inj_succ, Z.pow_succ_r in Hz by lia.
    destruct (Z_lt_le_dec z (lo + 2 ^ Z.of_nat k)) as [Hlt|Hge].
    + apply (IH lo H1). lia.
    + apply (IH _ H2). lia.
Qed.

Lemma interval_table :
  let verdict (n : Z) :=
    match float_of_int n with
    | Ok x =>
        Bool.eqb ((0.5 <=? x / 1000)%float && (x / 1000 <=? 10)%float)
          ((500 <=? n) && (n <=? 10000))
    | Raise _ => false
    end in
  Enumeration.forall_block 16 (-32768) verdict = true
  /\ Enumeration.forall_block 16 0 verdict = true.
Proof. split; vm_compute; reflexivity. Qed.

(** X21.  For every value a 16-bit interval field can hold, signed or
    unsigned, the sample-interval check passes exactly when the interval lies
    between 500 and 10000 microseconds, bounds included, and it shows the
    interval in milliseconds with two decimals. *)
Theorem sample_interval_check_bounds (segy : SegyHandle) (interval : Z) :
  bin segy Interval = Ok interval -> -32768 <= interval <= 65535 ->
  (fst (Volume3D._sample_interval_check segy) = true <-> 500 <= interval <= 10000)
  /\ snd (Volume3D._sample_interval_check segy)
     = format_f 2 (float_of_Z interval / 1000)%float +:+ " ms".
Proof.
  intros Hi Hrange.
  destruct interval_table as [Hneg Hpos]. cbv zeta in Hneg, Hpos.
  assert (H : match float_of_int interval with
              | Ok x =>
                  Bool.eqb ((0.5 <=? x / 1000)%float && (x / 1000 <=? 10)%float)
                    ((500 <=? interval) && (interval <=? 10000))
              | Raise _ => false
              end = true).
  { destruct (Z_lt_le_dec interval 0).
    - apply (forall_block_spec _ _ _ Hneg). cbn. lia.
    - apply (forall_block_spec _ _ _ Hpos). cbn. lia. }
  unfold Volume3D._sample_interval_check. rewrite Hi. cbn [mbind result_bind].
  assert (Hx : float_of_int interval = Ok (float_of_Z interval)).
  { unfold float_of_int in *.
    destruct (Prim2SF (float_of_Z interval)) as [| | |]; (reflexivity || discriminate). }
  rewrite Hx in H |- *. cbn [mbind result_bind fst snd].
  split; [|reflexivity].
  apply eqb_prop in H. rewrite H, andb_true_iff, Z.leb_le, Z.leb_le. reflexivity.
Qed.

Lemma sample_interval_check_bounds_witness :
  (fst (Volume3D._sample_interval_check Samples.line6) = true <-> 500 <= 2000 <= 10000)
  /\ snd (Volume3D._sample_interval_check Samples.line6)
     = format_f 2 (float_of_Z 2000 / 1000)%float +:+ " ms".
Proof.
  apply (sample_interval_check_bounds Samples.line6 2000); [reflexivity | lia].
Defined.

(** ** Amplitudes *)

Lemma eqb_leb (a b : float) :
  (a =? b)%float = true -> (a <=? b)%float = true /\ (b <=? a)%float = true.
Proof.
  rewrite FloatAxioms.eqb_spec, !leb_spec. unfold SFeqb, SFleb.
  rewrite (SFcompare_antisym (Prim2SF a) (Prim2SF b)).
  destruct (SFcompare (Prim2SF a) (Prim2SF b)) as [[]|]; cbn; intuition congruence.
Qed.

Lemma eqb_nan (a b : float) : (a =? b)%float = true -> isnan a = false.
Proof. intros H. apply eqb_leb in H. destruct H as [H _]. exact (leb_nan_l _ _ H). Qed.

Section NpMin.
Import Volume3D.

Lemma np_minimum_fmin (a x : float) :
  isnan a = false -> isnan x = false -> np_minimum a x = fmin a x.
Proof. intros Ha Hx. unfold np_minimum, fmin. now rewrite Ha, Hx. Qed.

Lemma np_maximum_fmax (a x : float) :
  isnan a = false -> isnan x = false -> np_maximum a x = fmax a x.
Proof. intros Ha Hx. unfold np_maximum, fmax. now rewrite Ha, Hx. Qed.

Lemma fold_np_minimum_fmin (xs : list float) (a : float) :
  isnan a = false -> Forall (fun y => isnan y = false) xs ->
  fold_left np_minimum xs a = fold_left fmin xs a.
Proof.
  intros Ha Hall. revert a Ha. induction Hall as [|x rest Hx _ IH]; intros a Ha;
    [reflexivity|].
  cbn [fold_left]. rewrite (np_minimum_fmin a x Ha Hx). apply IH.
  now destruct (fmin_lower a x Ha).
Qed.

Lemma fold_np_maximum_fmax (xs : list float) (a : float) :
  isnan a = false -> Forall (fun y => isnan y = false) xs ->
  fold_left np_maximum xs a = fold_left fmax xs a.
Proof.
  intros Ha Hall. revert a Ha. induction Hall as [|x rest Hx _ IH]; intros a Ha;
    [reflexivity|].
  cbn [fold_left]. rewrite (np_maximum_fmax a x Ha Hx). apply IH.
  now destruct (fmax_upper a x Ha).
Qed.

Lemma np_minimum_cases (a x : float) : np_minimum a x = a \/ np_minimum a x = x.
Proof. unfold np_minimum. destruct (isnan a), (isnan x), (x <? a)%float; tauto. Qed.

Lemma np_maximum_cases (a x : float) : np_maximum a x = a \/ np_maximum a x = x.
Proof. unfold np_maximum. destruct (isnan a), (isnan x), (a <? x)%float; tauto. Qed.

Lemma fold_np_minimum_In (xs : list float) (x : float) :
  In (fold_left np_minimum xs x) (x :: xs).
Proof.
  revert x. induction xs as [|y ys IH]; intros x; [now left|].
  cbn [fold_left]. destruct (IH (np_minimum x y)) as [E|Hin].
  - cbn [In]. destruct (np_minimum_cases x y) as [E'|E']; [left | right; left];
      congruence.
  - right. now right.
Qed.

Lemma fold_np_maximum_In (xs : list float) (x : float) :
  In (fold_left np_maximum xs x) (x :: xs).
Proof.
  revert x. induction xs as [|y ys IH]; intros x; [now left|].
  cbn [fold_left]. destruct (IH (np_maximum x y)) as [E|Hin].
  - cbn [In]. destruct (np_maximum_cases x y) as [E'|E']; [left | right; left];
      congruence.
  - right. now right.
Qed.

Lemma fold_np_minimum_nan (xs : list float) (a : float) :
  Exists (fun y => isnan y = true) (a :: xs) ->
  isnan (fold_left np_minimum xs a) = true.
Proof.
  revert a. induction xs as [|x rest IH]; intros a Hex.
  - inversion Hex as [? ? H|? ? H]; subst; [exact H | inversion H].
  - cbn [fold_left]. apply IH.
    unfold np_minimum. destruct (isnan a) eqn:Ha; [now left|].
    inversion Hex as [? ? H|? ? H]; subst; [congruence|].
    inversion H as [? ? Hx|? ? Hrest]; subst.
    + rewrite Hx. now left.
    + now right.
Qed.

(** The two zeros compare as equal, so a sample is bounded by a minimum
    and a maximum that are zero only if it is zero. *)
Lemma extremes_zero (samples : list float) (lo hi : float) :
  np_min samples = Ok lo -> np_max samples = Ok hi ->
  ((hi =? 0)%float && (lo =? 0)%float = true
   <-> Forall (fun x => (x =? 0)%float = true) samples).
Proof.
  destruct samples as [|x rest]; [discriminate|].
  cbn [np_min np_max]. intros [= <-] [= <-].
  rewrite andb_true_iff. split.
  - intros [Hhi Hlo].
    destruct (List.Forall_Exists_dec (fun y => isnan y = false)
                (fun y => bool_dec (isnan y) false) (x :: rest)) as [Hall|Hex].
    + inversion Hall as [|? ? Hx Hrest]; subst.
      rewrite (fold_np_minimum_fmin rest x Hx Hrest) in Hlo.
      rewrite (fold_np_maximum_fmax rest x Hx Hrest) in Hhi.
      destruct (fold_fmin_lower rest x Hx) as (_ & Hlx & Hlall).
      destruct (fold_fmax_upper rest x Hx) as (_ & Hhx & Hhall).
      apply eqb_leb in Hlo, Hhi. destruct Hlo as [_ Hlo], Hhi as [Hhi _].
      assert (Hz : forall y, (fold_left fmin rest x <=? y)%float = true ->
                             (y <=? fold_left fmax rest x)%float = true ->
                             (y =? 0)%float = true).
      { intros y H1 H2. apply leb_antisym.
        - exact (leb_trans _ _ _ H2 Hhi).
        - exact (leb_trans _ _ _ Hlo H1). }
      constructor; [now apply Hz|].
      rewrite List.Forall_forall in *. intros y Hy.
      apply Hz; [apply (Hlall y Hy) | apply (Hhall y Hy)]; now apply Hrest.
    + exfalso.
      assert (Hex' : Exists (fun y => isnan y = true) (x :: rest)).
      { eapply List.Exists_impl; [|exact Hex]. intros y Hy. cbv beta in Hy.
        now destruct (isnan y). }
      pose proof (fold_np_minimum_nan rest x Hex') as Hnan.
      apply eqb_nan in Hlo. congruence.
  - intros Hall. rewrite List.Forall_forall in Hall.
    split; apply Hall; [apply fold_np_maximum_In | apply fold_np_minimum_In].
Qed.

End NpMin.

Lemma append_has_space (x y : string) :
  In " "%char (list_ascii_of_string (x +:+ String " " y)).
Proof.
  induction x as [|c t IH]; cbn; [now left | now right].
Qed.

(** X22.  The amplitude check never answers Error.  It answers All zeros
    when the sampling of the traces raises or yields no sample; when there
    are samples, it answers All zeros exactly when every sample equals zero,
    and it passes exactly when some sample does not (as a NaN does not). *)
Theorem amplitude_check_all_zeros (segy : SegyHandle) :
  snd (Volume3D._amplitude_check segy) <> "Error"
  /\ (forall e, Volume3D.amplitude_samples segy = Raise e ->
        Volume3D._amplitude_check segy = (false, "All zeros"))
  /\ (Volume3D.amplitude_samples segy = Ok [] ->
      Volume3D._amplitude_check segy = (false, "All zeros"))
  /\ (forall samples,
        Volume3D.amplitude_samples segy = Ok samples -> samples <> [] ->
        (Volume3D._amplitude_check segy = (false, "All zeros")
         <-> Forall (fun x => (x =? 0)%float = true) samples)
        /\ (fst (Volume3D._amplitude_check segy) = true
            <-> Exists (fun x => (x =? 0)%float = false) samples)).
Proof.
  split; [|split; [|split]].
  - unfold Volume3D._amplitude_check.
    destruct (Volume3D._calculate_amplitude_stats segy) as [lo hi].
    destruct ((hi =? 0)%float && (lo =? 0)%float); cbn [snd]; [discriminate|].
    intros H. pose proof (append_has_space (format_f 1 lo) ("to " +:+ format_f 1 hi)) as Hs.
    change (format_f 1 lo +:+ String " " ("to " +:+ format_f 1 hi))
      with (format_f 1 lo +:+ " to " +:+ format_f 1 hi) in Hs.
    rewrite H in Hs. cbn in Hs. intuition discriminate.
  - intros e He. unfold Volume3D._amplitude_check, Volume3D._calculate_amplitude_stats.
    rewrite He. reflexivity.
  - intros He. unfold Volume3D._amplitude_check, Volume3D._calculate_amplitude_stats.
    rewrite He. reflexivity.
  - intros samples He Hne.
    unfold Volume3D._amplitude_check, Volume3D._calculate_amplitude_stats.
    rewrite He. cbn [mbind result_bind].
    destruct samples as [|x rest]; [done|].
    pose proof (extremes_zero (x :: rest) _ _ eq_refl eq_refl) as Hz.
    cbn [np_min np_max mbind result_bind].
    destruct ((fold_left np_maximum rest x =? 0)%float
              && (fold_left np_minimum rest x =? 0)%float) eqn:E.
    + assert (Hall : Forall (fun y => (y =? 0)%float = true) (x :: rest))
        by now apply Hz.
      split; [split; [intros _; exact Hall | reflexivity]|].
      cbn [fst]. split; [discriminate|]. intros Hex. exfalso.
      apply List.Exists_exists in Hex. destruct Hex as (y & Hy & Hy0).
      rewrite List.Forall_forall in Hall. specialize (Hall y Hy). congruence.
    + assert (Hnot : ~ Forall (fun y => (y =? 0)%float = true) (x :: rest))
        by (intros H; apply Hz in H; discriminate).
      split; [split; [discriminate | intros H; contradiction]|].
      cbn [fst]. split; [intros _|reflexivity].
      destruct (List.Forall_Exists_dec (fun y => (y =? 0)%float = true)
                  (fun y => bool_dec (y =? 0)%float true) (x :: rest)) as [Hall|Hex];
        [contradiction|].
      eapply List.Exists_impl; [|exact Hex]. intros y Hy. cbv beta in Hy.
      now destruct (y =? 0)%float.
Qed.

(** ** The table of checks *)

Section Checks.
Import Volume3D.

Variable segy : SegyHandle.

Let record (results : gmap string CurveValidator.ValidationResult)
  (entry : string * (SegyHandle -> bool * string)) :=
  let '(key, check_method) := entry in
  let '(is_valid, reason) := check_method segy in
  <[key := {| CurveValidator.status := if is_valid then "Y" else "N";
              CurveValidator.reason := reason |}]> results.

Lemma checks_fold_keys (checks : list (string * (SegyHandle -> bool * string)))
  (acc : gmap string CurveValidator.ValidationResult) (key : string) :
  is_Some (fold_left record checks acc !! key)
  <-> is_Some (acc !! key) \/ In key (map fst checks).
Proof.
  revert acc. induction checks as [|[k check] rest IH]; intros acc;
    cbn [fold_left map fst In]; [tauto|].
  rewrite IH. unfold record. destruct (check segy) as [b r].
  destruct (decide (k = key)) as [->|Hne].
  - rewrite lookup_insert_eq. split; [tauto|]. intros _. left. eauto.
  - rewrite lookup_insert_ne by done. tauto.
Qed.

Lemma checks_fold_status (checks : list (string * (SegyHandle -> bool * string)))
  (acc : gmap string CurveValidator.ValidationResult) :
  (forall key r, acc !! key = Some r ->
     CurveValidator.status r = "Y" \/ CurveValidator.status r = "N") ->
  forall key r, fold_left record checks acc !! key = Some r ->
    CurveValidator.status r = "Y" \/ CurveValidator.status r = "N".
Proof.
  revert acc. induction checks as [|[k check] rest IH]; intros acc Hacc;
    cbn [fold_left]; [exact Hacc|].
  apply IH. unfold record. destruct (check segy) as [b r].
  intros key r'. destruct (decide (k = key)) as [->|Hne].
  - rewrite lookup_insert_eq. intros [= <-]. cbn. destruct b; tauto.
  - rewrite lookup_insert_ne by done. apply Hacc.
Qed.

Lemma checks_fold_other (checks : list (string * (SegyHandle -> bool * string)))
  (acc : gmap string CurveValidator.ValidationResult) (key : string) :
  ~ In key (map fst checks) ->
  fold_left record checks acc !! key = acc !! key.
Proof.
  revert acc. induction checks as [|[k check] rest IH]; intros acc Hnot;
    [reflexivity|].
  cbn [fold_left]. cbn [map fst In] in Hnot. rewrite IH by tauto.
  unfold record. destruct (check segy) as [b r].
  apply lookup_insert_ne. tauto.
Qed.

Lemma checks_fold_lookup (checks : list (string * (SegyHandle -> bool * string)))
  (acc : gmap string CurveValidator.ValidationResult)
  (key : string) (check : SegyHandle -> bool * string) :
  List.NoDup (map fst checks) -> In (key, check) checks ->
  fold_left record checks acc !! key
  = Some {| CurveValidator.status := if fst (check segy) then "Y" else "N";
            CurveValidator.reason := snd (check segy) |}.
Proof.
  revert acc. induction checks as [|[k c] rest IH]; intros acc Hnd Hin;
    [destruct Hin|].
  cbn [fold_left]. cbn [map fst] in Hnd. inversion Hnd as [|? ? Hk Hrest]; subst.
  destruct Hin as [[= -> ->] | Hin].
  - rewrite checks_fold_other by done. unfold record.
    destruct (check segy) as [b r]. apply lookup_insert_eq.
  - now apply IH.
Qed.

Lemma validate_segy_file_lookup (key : string)
  (check : SegyHandle -> bool * string) :
  In (key, check) check_methods ->
  validate_segy_file segy !! key
  = Some {| CurveValidator.status := if fst (check segy) then "Y" else "N";
            CurveValidator.reason := snd (check segy) |}.
Proof.
  intros Hin. unfold validate_segy_file.
  apply (checks_fold_lookup check_methods ∅ key check); [|exact Hin].
  unfold check_methods. cbn [map fst].
  repeat (constructor; [cbn [In]; intuition discriminate|]). constructor.
Qed.

End Checks.

(** X23.  The validation of a 3D file has exactly the ten keys of the QC
    table, each with status Y or N.  For a file with no trace the entries
    are: traces N with 0, amplitude N with All zeros, null traces Y with
    0 (0.0%), geometry N with No 3D geometry info, and both ranges N with
    Not found. *)
Theorem segy_validation_entries (segy : SegyHandle) :
  (forall key,
     is_Some (Volume3D.validate_segy_file segy !! key)
     <-> In key ["format"; "traces"; "samples"; "sample_interval"; "trace_length";
                 "amplitude"; "null_traces"; "geometry"; "inline_range";
                 "crossline_range"])
  /\ (forall key r,
        Volume3D.validate_segy_file segy !! key = Some r ->
        CurveValidator.status r = "Y" \/ CurveValidator.status r = "N")
  /\ (tracecount segy = Ok 0 ->
      Volume3D.validate_segy_file segy !! "traces"
      = Some {| CurveValidator.status := "N"; CurveValidator.reason := "0" |}
      /\ Volume3D.validate_segy_file segy !! "amplitude"
         = Some {| CurveValidator.status := "N";
                   CurveValidator.reason := "All zeros" |}
      /\ Volume3D.validate_segy_file segy !! "null_traces"
         = Some {| CurveValidator.status := "Y";
                   CurveValidator.reason := "0 (0.0%)" |}
      /\ Volume3D.validate_segy_file segy !! "geometry"
         = Some {| CurveValidator.status := "N";
                   CurveValidator.reason := "No 3D geometry info" |}
      /\ Volume3D.validate_segy_file segy !! "inline_range"
         = Some {| CurveValidator.status := "N";
                   CurveValidator.reason := "Not found" |}
      /\ Volume3D.validate_segy_file segy !! "crossline_range"
         = Some {| CurveValidator.status := "N";
                   CurveValidator.reason := "Not found" |}).
Proof.
  split; [|split].
  - intros key. unfold Volume3D.validate_segy_file.
    rewrite checks_fold_keys, lookup_empty. unfold Volume3D.check_methods.
    cbn [map fst]. split; [intros [[? [=]]|H]; exact H | now right].
  - intros key r. unfold Volume3D.validate_segy_file.
    apply checks_fold_status. intros k r'. now rewrite lookup_empty.
  - intros Hn.
    assert (Hcount : Seismic3D._count_null_traces segy = 0)
      by (unfold Seismic3D._count_null_traces; now rewrite Hn).
    assert (Hranges : Volume3D._get_3d_ranges segy = ("N/A", "N/A"))
      by (unfold Volume3D._get_3d_ranges; now rewrite Hn).
    repeat split.
    + rewrite (validate_segy_file_lookup segy "traces" Volume3D._trace_count_check)
        by (unfold Volume3D.check_methods; cbn [In]; tauto).
      unfold Volume3D._trace_count_check. now rewrite Hn.
    + rewrite (validate_segy_file_lookup segy "amplitude" Volume3D._amplitude_check)
        by (unfold Volume3D.check_methods; cbn [In]; tauto).
      unfold Volume3D._amplitude_check, Volume3D._calculate_amplitude_stats,
        Volume3D.amplitude_samples. now rewrite Hn.
    + rewrite (validate_segy_file_lookup segy "null_traces" Volume3D._null_trace_check)
        by (unfold Volume3D.check_methods; cbn [In]; tauto).
      unfold Volume3D._null_trace_check. now rewrite Hcount, Hn.
    + rewrite (validate_segy_file_lookup segy "geometry" Volume3D._geometry_check)
        by (unfold Volume3D.check_methods; cbn [In]; tauto).
      unfold Volume3D._geometry_check. now rewrite Hn.
    + rewrite (validate_segy_file_lookup segy "inline_range" Volume3D._inline_check)
        by (unfold Volume3D.check_methods; cbn [In]; tauto).
      unfold Volume3D._inline_check. now rewrite Hranges.
    + rewrite (validate_segy_file_lookup segy "crossline_range" Volume3D._crossline_check)
        by (unfold Volume3D.check_methods; cbn [In]; tauto).
      unfold Volume3D._crossline_check. now rewrite Hranges.
Qed.

(** ** Null traces of a small volume *)

Lemma range_step_1 (n : Z) : range_step n 1 = seqZ 0 n.
Proof.
  unfold range_step. replace ((n + 1 - 1) / 1) with n by (rewrite Z.div_1_r; lia).
  rewrite <- (map_id (seqZ 0 n)) at 2. apply map_ext. intros k. lia.
Qed.

(** X24.  For a volume of fewer than 100 traces of one length, all of them
    readable, both null-trace estimates of the 3D validator are computed
    from every trace, and each is the number of traces it counts as null or
    one less; it can be one less only when some but not all traces are
    counted. *)
Theorem null_traces_of_small_volume (segy : SegyHandle) (n : Z)
  (traces : Z -> list float) :
  tracecount segy = Ok n -> 1 <= n <= 99 ->
  (forall i, 0 <= i < n -> trace segy i = Ok (traces i)) ->
  Seismic3D.as_matrix (map traces (seqZ 0 n)) = Ok (map traces (seqZ 0 n)) ->
  let zero :=
    Z.of_nat (length (List.filter Seismic3D.is_zero_trace (map traces (seqZ 0 n)))) in
  let null :=
    Z.of_nat (length (List.filter Seismic3D.is_null_trace (map traces (seqZ 0 n)))) in
  (exists est,
     Seismic3D._extract_trace_quality segy !! "Null/Dead Traces"
     = Some (str_of_Z est)
     /\ (est = zero \/ (est = zero - 1 /\ 0 < zero < n)))
  /\ (Seismic3D._count_null_traces segy = null
      \/ (Seismic3D._count_null_traces segy = null - 1 /\ 0 < null < n)).
Proof.
  intros Hn Hsmall Hread Hmat zero null.
  assert (Hall : for_each (trace segy) (seqZ 0 n) = Ok (map traces (seqZ 0 n))).
  { apply for_each_map. intros i Hi. apply Hread. apply In_seqZ in Hi. lia. }
  assert (Hlen : Z.of_nat (length (map traces (seqZ 0 n))) = n)
    by (rewrite length_map, length_seqZ; lia).
  split.
  - assert (Hz : 0 <= zero <= n).
    { unfold zero.
      pose proof (filter_count_le Seismic3D.is_zero_trace (map traces (seqZ 0 n))). lia. }
    destruct (estimate_small zero n ltac:(lia) Hz) as (z & Ez & Hcase).
    exists z. split; [|exact Hcase].
    unfold Seismic3D._extract_trace_quality. rewrite Hn. cbn [mbind result_bind].
    unfold Seismic3D.sample_indices.
    replace (Z.min 100 n) with n by lia.
    replace (n =? 0) with false by (symmetry; apply Z.eqb_neq; lia).
    cbn [mbind result_bind].
    rewrite Z.div_same by lia. change (Z.max 1 1) with 1. rewrite range_step_1.
    rewrite take_ge by (rewrite length_seqZ; lia).
    rewrite Hall. cbn [mbind result_bind]. rewrite Hmat. cbn [mbind result_bind].
    unfold Seismic3D.estimate. rewrite Hlen. fold zero. rewrite Ez.
    cbn [mbind result_bind]. lookup_inserts.
  - assert (Hk : 0 <= null <= n).
    { unfold null.
      pose proof (filter_count_le Seismic3D.is_null_trace (map traces (seqZ 0 n))). lia. }
    destruct (estimate_small null n ltac:(lia) Hk) as (z & Ez & Hcase).
    assert (E : Seismic3D._count_null_traces segy = z).
    { unfold Seismic3D._count_null_traces. rewrite Hn. cbn [mbind result_bind].
      replace (Z.min 50 n =? 0) with false by (symmetry; apply Z.eqb_neq; lia).
      cbn [mbind result_bind].
      assert (Hstep : Z.max 1 (n / Z.min 50 n) = 1).
      { destruct (Z_le_gt_dec n 50).
        - replace (Z.min 50 n) with n by lia. rewrite Z.div_same by lia. reflexivity.
        - replace (Z.min 50 n) with 50 by lia.
          assert (n / 50 = 1); [|lia].
          symmetry. apply (Z.div_unique n 50 1 (n - 50)); lia. }
      rewrite Hstep, range_step_1, Hall. cbn [mbind result_bind].
      rewrite Hlen. fold null.
      replace (0 <? n) with true by (symmetry; apply Z.ltb_lt; lia).
      now rewrite Ez. }
    rewrite E. exact Hcase.
Qed.

Lemma null_traces_of_small_volume_witness :
  let traces := fun i : Z => if i <? 1 then [0; 0; 0]%float else [1; 2; 3]%float in
  let zero :=
    Z.of_nat (length (List.filter Seismic3D.is_zero_trace (map traces (seqZ 0 49)))) in
  let null :=
    Z.of_nat (length (List.filter Seismic3D.is_null_trace (map traces (seqZ 0 49)))) in
  (exists est,
     Seismic3D._extract_trace_quality Cases2D.line49 !! "Null/Dead Traces"
     = Some (str_of_Z est)
     /\ (est = zero \/ (est = zero - 1 /\ 0 < zero < 49)))
  /\ (Seismic3D._count_null_traces Cases2D.line49 = null
      \/ (Seismic3D._count_null_traces Cases2D.line49 = null - 1 /\ 0 < null < 49)).
Proof.
  apply (null_traces_of_small_volume Cases2D.line49 49
           (fun i => if i <? 1 then [0; 0; 0]%float else [1; 2; 3]%float)).
  - reflexivity.
  - lia.
  - intros i _. reflexivity.
  - vm_compute. reflexivity.
Defined.

(** ** The well section of a LAS header *)

Section Strip.

Lemma lstrip_head (l : list ascii) :
  lstrip l = [] \/ exists c t, lstrip l = c :: t /\ is_space c = false.
Proof.
  induction l as [|c t IH]; [now left|].
  cbn [lstrip]. destruct (is_space c) eqn:E; [exact IH|].
  right. now exists c, t.
Qed.

Lemma lstrip_fixed (c : ascii) (t : list ascii) :
  is_space c = false -> lstrip (c :: t) = c :: t.
Proof. intros E. cbn [lstrip]. now rewrite E. Qed.

Lemma lstrip_suffix (l : list ascii) : exists pre, l = pre ++ lstrip l.
Proof.
  induction l as [|c t [pre IH]]; [now exists []|].
  cbn [lstrip]. destruct (is_space c).
  - exists (c :: pre). cbn [app]. now f_equal.
  - now exists [].
Qed.

Lemma strip_list_fixed (l : list ascii) :
  let r := rev (lstrip (rev (lstrip l))) in
  rev (lstrip (rev (lstrip r))) = r.
Proof.
  cbv zeta.
  destruct (lstrip_head (rev (lstrip l))) as [E|(c & t & E & Hc)].
  - rewrite E. reflexivity.
  - rewrite E.
    destruct (lstrip_suffix (rev (lstrip l))) as [pre Hpre]. rewrite E in Hpre.
    assert (Hm : lstrip l = rev (c :: t) ++ rev pre).
    { rewrite <- rev_app_distr, <- Hpre. now rewrite rev_involutive. }
    assert (Hr : lstrip (rev (c :: t)) = rev (c :: t)).
    { destruct (rev (c :: t)) as [|a r'] eqn:Er.
      - reflexivity.
      - apply lstrip_fixed. cbn [app] in Hm.
        destruct (lstrip_head l) as [E0|(a' & t' & E0 & Ha')]; rewrite E0 in Hm;
          [discriminate|]. injection Hm as -> _. exact Ha'. }
    rewrite Hr, rev_involutive, (lstrip_fixed c t Hc). reflexivity.
Qed.

Lemma strip_idempotent (s : string) : strip (strip s) = strip s.
Proof.
  unfold strip. rewrite list_ascii_of_string_of_list_ascii.
  f_equal. apply strip_list_fixed.
Qed.

End Strip.

Section WellName.
Import WellHeader.

Variable repr_float : float -> string.

Lemma usable_Some (v : value) (name : string) :
  usable repr_float v = Some name ->
  name = strip (str repr_float v) /\ name <> EmptyString /\ strip name = name.
Proof.
  unfold usable.
  destruct (truthy v && truthy_str (strip (str repr_float v))) eqn:E; [|discriminate].
  intros [= <-]. apply andb_true_iff in E. destruct E as [_ E].
  split; [reflexivity|]. split; [|apply strip_idempotent].
  intros H. rewrite H in E. discriminate.
Qed.

Lemma first_name_readable (w : WellSection) (values : string -> value)
  (fields : list string) :
  (forall field item, w field = Some item -> item_value item = Ok (values field)) ->
  first_name repr_float w fields
  = Ok (match List.find
                (fun field =>
                   match w field with
                   | Some _ =>
                       match usable repr_float (values field) with
                       | Some _ => true
                       | None => false
                       end
                   | None => false
                   end) fields with
        | Some field => Some (strip (str repr_float (values field)))
        | None => None
        end).
Proof.
  intros Hread. induction fields as [|field rest IH]; [reflexivity|].
  cbn [first_name List.find].
  destruct (w field) as [item|] eqn:Ew; [|exact IH].
  rewrite (Hread field item Ew). cbn [mbind result_bind].
  destruct (usable repr_float (values field)) as [name|] eqn:Eu; [|exact IH].
  apply usable_Some in Eu. destruct Eu as [-> _]. reflexivity.
Qed.

End WellName.

(** X25.  The well name comes from the first of the header items WELL, UWI,
    API, WELLNAME and NAME that is present with a value that is truthy and
    not blank (the values being readable): it is the text of that value
    without the white space around it, and N/A when there is no such item.
    So the name is N/A or a non-empty text with no white space at its ends;
    it is N/A when the file has no well section. *)
Theorem well_name_first_usable (repr_float : float -> string)
  (w : WellHeader.WellSection) (values : string -> WellHeader.value) :
  (forall field item,
     w field = Some item -> WellHeader.item_value item = Ok (values field)) ->
  let usable field :=
    match w field with
    | Some _ =>
        match WellHeader.usable repr_float (values field) with
        | Some _ => true
        | None => false
        end
    | None => false
    end in
  let name := WellHeader.get_well_name_from_las repr_float (Some w) in
  name = match List.find usable ["WELL"; "UWI"; "API"; "WELLNAME"; "NAME"] with
         | Some field => strip (WellHeader.str repr_float (values field))
         | None => "N/A"
         end
  /\ (name = "N/A" \/ (name <> EmptyString /\ strip name = name))
  /\ WellHeader.get_well_name_from_las repr_float None = "N/A".
Proof.
  intros Hread usable name.
  assert (E : name
              = match List.find usable ["WELL"; "UWI"; "API"; "WELLNAME"; "NAME"] with
                | Some field => strip (WellHeader.str repr_float (values field))
                | None => "N/A"
                end).
  { unfold name, WellHeader.get_well_name_from_las.
    rewrite (first_name_readable repr_float w values _ Hread).
    change (List.find usable ("WELL" :: ?l))
      with (if usable "WELL" then Some "WELL" else List.find usable l).
    unfold usable at 1.
    destruct (w "WELL") as [item|] eqn:Ew; cbn [mbind result_bind].
    - rewrite (Hread "WELL" item Ew). cbn [mbind result_bind].
      destruct (WellHeader.usable repr_float (values "WELL")) as [n|] eqn:Eu.
      + apply usable_Some in Eu. now destruct Eu as [-> _].
      + fold usable. now destruct (List.find usable _).
    - fold usable. now destruct (List.find usable _). }
  split; [exact E|]. split; [|reflexivity].
  rewrite E. destruct (List.find usable _) as [field|] eqn:Ef; [|now left].
  right. apply List.find_some in Ef. destruct Ef as [_ Hu]. unfold usable in Hu.
  destruct (w field); [|discriminate].
  destruct (WellHeader.usable repr_float (values field)) as [n|] eqn:Eu; [|discriminate].
  apply usable_Some in Eu. destruct Eu as (-> & Hne & Hs). now split.
Qed.

Lemma well_name_first_usable_witness :
  let values (field : string) : WellHeader.value :=
    match WellHeader.sample_well field with
    | Some {| WellHeader.item_value := Ok v |} => v
    | _ => WellHeader.VNone
    end in
  let usable field :=
    match WellHeader.sample_well field with
    | Some _ =>
        match WellHeader.usable WellHeader.sample_repr (values field) with
        | Some _ => true
        | None => false
        end
    | None => false
    end in
  let name :=
    WellHeader.get_well_name_from_las WellHeader.sample_repr
      (Some WellHeader.sample_well) in
  name = match List.find usable ["WELL"; "UWI"; "API"; "WELLNAME"; "NAME"] with
         | Some field => strip (WellHeader.str WellHeader.sample_repr (values field))
         | None => "N/A"
         end
  /\ (name = "N/A" \/ (name <> EmptyString /\ strip name = name))
  /\ WellHeader.get_well_name_from_las WellHeader.sample_repr None = "N/A".
Proof.
  apply (well_name_first_usable WellHeader.sample_repr WellHeader.sample_well
           (fun field =>
              match WellHeader.sample_well field with
              | Some {| WellHeader.item_value := Ok v |} => v
              | _ => WellHeader.VNone
              end)).
  intros field item. unfold WellHeader.sample_well.
  repeat (destruct (String.eqb field _); [intros [= <-]; reflexivity|]).
  discriminate.
Defined.

(** A blank well name falls through to the UWI; a name is returned without
    the white space around it. *)
Example well_name_samples :
  WellHeader.get_well_name_from_las WellHeader.sample_repr
    (Some WellHeader.sample_well) = "4212345"
  /\ WellHeader.get_well_name_from_las WellHeader.sample_repr
       (Some (fun field =>
                if String.eqb field "UWI" then None
                else WellHeader.sample_well field)) = "Alpha-1"
  /\ map strip ["  a b  "; "x"; "   "; EmptyString] = ["a b"; "x"; EmptyString; EmptyString].
Proof. repeat split; vm_compute; reflexivity. Qed.

Section DepthInfoFacts.
Import WellHeader.

Variable repr_float : float -> string.
Variable float_of_str : string -> result float.

Lemma depth_body_Ok (w : WellSection) (d : DepthInfo) :
  depth_body repr_float float_of_str w = Ok d ->
  formatted w "STRT" = Ok (start d)
  /\ formatted w "STOP" = Ok (stop d)
  /\ formatted w "STEP" = Ok (step d)
  /\ unit_text repr_float w = depth_unit d
  /\ plain repr_float w "LMF" = Ok (lmf d)
  /\ elevation float_of_str w ["ELZ"] = Ok (elz d)
  /\ plain repr_float w "PD" = Ok (pd d)
  /\ elevation float_of_str w ["EPD"] = Ok (epd d)
  /\ elevation float_of_str w ["KB"; "EKB"; "EKBD"; "EDF"] = Ok (ekb d)
  /\ elevation float_of_str w ["GL"; "GLE"; "GLELEV"; "EGL"] = Ok (egl d).
Proof.
  unfold depth_body.
  destruct (formatted w "STRT"); [|discriminate].
  destruct (formatted w "STOP"); [|discriminate].
  destruct (formatted w "STEP"); [|discriminate].
  destruct (plain repr_float w "LMF"); [|discriminate].
  destruct (elevation float_of_str w ["ELZ"]); [|discriminate].
  destruct (plain repr_float w "PD"); [|discriminate].
  destruct (elevation float_of_str w ["EPD"]); [|discriminate].
  destruct (elevation float_of_str w ["KB"; "EKB"; "EKBD"; "EDF"]); [|discriminate].
  destruct (elevation float_of_str w ["GL"; "GLE"; "GLELEV"; "EGL"]); [|discriminate].
  cbn [mbind result_bind]. intros [= <-]. cbn. tauto.
Qed.

Lemma depth_info_error (w : WellSection) :
  ~ is_Ok (depth_body repr_float float_of_str w) ->
  get_depth_info_from_las repr_float float_of_str (Some w) = all_error.
Proof.
  unfold get_depth_info_from_las.
  destruct (depth_body repr_float float_of_str w) as [d|e]; [|reflexivity].
  intros H. exfalso. apply H. now exists d.
Qed.

Lemma formatted_not_number (w : WellSection) (field : string)
  (item : HeaderItem) (v : value) :
  w field = Some item -> item_value item = Ok v ->
  v = VNone \/ (exists s, v = VStr s) ->
  ~ is_Ok (formatted w field).
Proof.
  intros Hw Hv Hcase [s Hs]. unfold formatted in Hs. rewrite Hw, Hv in Hs.
  cbn [mbind result_bind] in Hs. destruct Hcase as [->|[t ->]]; discriminate.
Qed.

(** The loop stops at the first field that is present with a value other
    than [None]. *)
Lemma first_value_skips (w : WellSection) (pre : list string) (field : string)
  (post : list string) (item : HeaderItem) (v : value) :
  Forall (fun f => w f = None
                   \/ exists i, w f = Some i /\ item_value i = Ok VNone) pre ->
  w field = Some item -> item_value item = Ok v -> v <> VNone ->
  first_value w (pre ++ field :: post) = Ok (Some v).
Proof.
  intros Hpre Hw Hv Hne. induction Hpre as [|f rest Hf _ IH]; cbn [app first_value].
  - rewrite Hw, Hv. cbn [mbind result_bind]. now destruct v.
  - destruct Hf as [->|(i & -> & ->)]; [exact IH|].
    cbn [mbind result_bind is_none]. exact IH.
Qed.

End DepthInfoFacts.

(** X26.  Depth information is all or nothing.  Without a well section
    every entry is N/A.  If STRT, STOP or STEP is present with a value that
    is None or a text, every entry is Error.  The kelly-bushing elevation is
    read from the first of KB, EKB, EKBD and EDF that is present with a
    value other than None: if that value cannot be converted to a number,
    every entry is Error, the later alternatives not being tried; if it can,
    the entry shows the number with two decimals, unless every entry is
    Error. *)
Theorem depth_info_all_or_nothing (repr_float : float -> string)
  (float_of_str : string -> result float) (w : WellHeader.WellSection) :
  let info := WellHeader.get_depth_info_from_las repr_float float_of_str in
  info None = WellHeader.all_na
  /\ (forall field item v,
        In field ["STRT"; "STOP"; "STEP"] ->
        w field = Some item -> WellHeader.item_value item = Ok v ->
        v = WellHeader.VNone \/ (exists s, v = WellHeader.VStr s) ->
        info (Some w) = WellHeader.all_error)
  /\ (forall pre field post item v,
        pre ++ field :: post = ["KB"; "EKB"; "EKBD"; "EDF"] ->
        Forall (fun f => w f = None
                         \/ exists i, w f = Some i
                                      /\ WellHeader.item_value i = Ok WellHeader.VNone)
          pre ->
        w field = Some item -> WellHeader.item_value item = Ok v ->
        v <> WellHeader.VNone ->
        (forall e, WellHeader.to_float float_of_str v = Raise e ->
                   info (Some w) = WellHeader.all_error)
        /\ (forall x, WellHeader.to_float float_of_str v = Ok x ->
                      info (Some w) = WellHeader.all_error
                      \/ WellHeader.ekb (info (Some w)) = format_f 2 x)).
Proof.
  intros info. split; [reflexivity|]. split.
  - intros field item v Hin Hw Hv Hcase. apply depth_info_error.
    intros [d Hd]. apply depth_body_Ok in Hd.
    destruct Hd as (H1 & H2 & H3 & _).
    pose proof (formatted_not_number w field item v Hw Hv Hcase) as Hnot.
    cbn [In] in Hin. destruct Hin as [<-|[<-|[<-|[]]]]; apply Hnot; eexists; eassumption.
  - intros pre field post item v Hfields Hpre Hw Hv Hne.
    pose proof (first_value_skips w pre field post item v Hpre Hw Hv Hne) as Hfirst.
    rewrite Hfields in Hfirst.
    assert (Hel : WellHeader.elevation float_of_str w ["KB"; "EKB"; "EKBD"; "EDF"]
                  = (x ← WellHeader.to_float float_of_str v; Ok (format_f 2 x))).
    { unfold WellHeader.elevation. rewrite Hfirst. reflexivity. }
    split.
    + intros e He. apply depth_info_error. intros [d Hd].
      apply depth_body_Ok in Hd. destruct Hd as (_ & _ & _ & _ & _ & _ & _ & _ & Hk & _).
      rewrite Hel, He in Hk. discriminate.
    + intros x Hx. unfold info, WellHeader.get_depth_info_from_las.
      destruct (WellHeader.depth_body repr_float float_of_str w) as [d|e] eqn:Hd;
        [|now left].
      right. apply depth_body_Ok in Hd.
      destruct Hd as (_ & _ & _ & _ & _ & _ & _ & _ & Hk & _).
      rewrite Hel, Hx in Hk. cbn [mbind result_bind] in Hk. congruence.
Qed.

(** A kelly-bushing text that is not a number turns every entry into
    Error, although the start depth can be read and the next alternative
    holds a number; without it, that alternative is shown. *)
Example depth_info_samples :
  WellHeader.get_depth_info_from_las WellHeader.sample_repr WellHeader.sample_parse
    (Some WellHeader.sample_well) = WellHeader.all_error
  /\ WellHeader.get_depth_info_from_las WellHeader.sample_repr WellHeader.sample_parse
       (Some (fun field =>
                if String.eqb field "KB" then None
                else WellHeader.sample_well field))
     = {| WellHeader.depth_unit := "M"; WellHeader.pd := "N/A";
          WellHeader.epd := "N/A"; WellHeader.ekb := "25.00";
          WellHeader.egl := "N/A"; WellHeader.lmf := "N/A";
          WellHeader.elz := "N/A"; WellHeader.start := "100.50";
          WellHeader.stop := "N/A"; WellHeader.step := "N/A" |}.
Proof. split; vm_compute; reflexivity. Qed.

(** ** The table rows of the seismic validators *)

Example get_basic_info_samples :
  BasicInfo.get_basic_info_3d (fun p => p) Samples.volume125
  = <["crossline_range" := BasicInfo.Str "1-25"]>
      (<["inline_range" := BasicInfo.Str "1-5"]>
         (<["format" := BasicInfo.Str "IEEE Float"]>
            (<["trace_length" := BasicInfo.Str "4"]>
               (<["sample_interval" := BasicInfo.Str "2.00"]>
                  (<["sample_count" := BasicInfo.Int 3]>
                     (<["trace_count" := BasicInfo.Int 125]>
                        (<["filename" := BasicInfo.Str "volume125.sgy"]> ∅)))))))
  /\ BasicInfo.get_basic_info_2d (fun p => p) "N/A" Samples.closed_file
     = <["error" := BasicInfo.Str "I/O operation on closed file"]>
         (<["line_name" := BasicInfo.Str "N/A"]>
            (<["filename" := BasicInfo.Str "N/A"]> ∅)).
Proof. split; vm_compute; reflexivity. Qed.

(** X27.  The table rows of the 2D and of the 3D validator agree on the
    file name, the two counts, the sample interval, the trace length, the
    format and the error.  A row always has the file name (in 2D also the
    line name); when one of the accesses raises it has the message of the
    exception as its error and neither a CDP range nor an inline range;
    otherwise it has no error and shows the CDP range, respectively the two
    line ranges. *)
Theorem basic_info_rows (basename : string -> string) (line_name : string)
  (segy : SegyHandle) :
  let row2 := BasicInfo.get_basic_info_2d basename line_name segy in
  let row3 := BasicInfo.get_basic_info_3d basename segy in
  (forall key,
     In key ["filename"; "trace_count"; "sample_count"; "sample_interval";
             "trace_length"; "format"; "error"] ->
     row2 !! key = row3 !! key)
  /\ row2 !! "filename"
     = Some (BasicInfo.Str (Seismic2D.basename_or_na segy basename))
  /\ row2 !! "line_name" = Some (BasicInfo.Str line_name)
  /\ match BasicInfo.first_raise segy with
     | Some e =>
         row2 !! "error" = Some (BasicInfo.Str (str_exn e))
         /\ row2 !! "cdp_range" = None /\ row3 !! "inline_range" = None
     | None =>
         row2 !! "error" = None
         /\ row2 !! "cdp_range"
            = Some (BasicInfo.Str (Seismic2D._get_cdp_range segy))
         /\ row3 !! "inline_range"
            = Some (BasicInfo.Str (fst (Volume3D._get_3d_ranges segy)))
         /\ row3 !! "crossline_range"
            = Some (BasicInfo.Str (snd (Volume3D._get_3d_ranges segy)))
     end.
Proof.
  intros row2 row3. unfold row2, row3, BasicInfo.get_basic_info_2d,
    BasicInfo.get_basic_info_3d, BasicInfo.first_raise, BasicInfo.finish,
    BasicInfo.and_then, BasicInfo.set_key, BasicInfo.access.
  destruct (tracecount segy) as [n|e1]; cbn [mbind result_bind];
    [destruct (samples_size segy) as [size|e2]; cbn [mbind result_bind];
     [destruct (bin segy Interval) as [raw|e3]; cbn [mbind result_bind];
      [destruct (float_of_int raw) as [x|e4]; cbn [mbind result_bind];
       [destruct (float_of_int (size - 1)) as [s|e5]; cbn [mbind result_bind];
        [destruct (bin segy Format) as [code|e6]; cbn [mbind result_bind];
         [destruct (Volume3D._get_3d_ranges segy) as [il xl]|]|]|]|]|]|].
  all: cbv beta iota zeta; cbn [fst snd].
  all: split;
    [intros key Hin; cbn [In] in Hin;
     repeat (destruct Hin as [<-|Hin]; [lookup_inserts; try reflexivity|]);
     try (destruct Hin)|].
  all: repeat split; lookup_inserts.
Qed.

(** ** The line name *)

Example splitlines_samples :
  LineName.splitlines (String "a" (String "010" (String "010" (String "b" (String "013" (String "010" "c")))))) = ["a"; EmptyString; "b"; "c"]
  /\ LineName.splitlines (String "a" (String "010" EmptyString)) = ["a"]
  /\ LineName.splitlines EmptyString = []
  /\ LineName.splitlines (String "010" EmptyString) = [EmptyString].
Proof. repeat split; vm_compute; reflexivity. Qed.

Example extract_line_name_samples :
  map (fun text => LineName._extract_line_name (Ok text))
    ["C 1 CLIENT ACME  LINE: abc-12  AREA NORTH"; "C 2 line 7"; "PIPELINE X";
     "LINEAR MOVEOUT"; "LINE :"; "LINE   "; "C 3 AREA"; "LINE-5"; "LINE - -"]
  = ["ABC-12"; "7"; "X"; "AR"; ":"; "N/A"; "N/A"; "5"; "-"].
Proof. vm_compute. reflexivity. Qed.

Section Pattern.
Import LineName.

Context {R : Type}.

Lemma literal_Some (text l : list ascii) (k : list ascii -> option R) (r : R) :
  literal text l k = Some r ->
  exists l', k l' = Some r /\ incl l' l
             /\ String.prefix (string_of_list_ascii text) (string_of_list_ascii l)
                = true.
Proof.
  revert l. induction text as [|a text IH]; intros l H; cbn [literal] in H.
  - exists l. split; [exact H|]. split; [apply incl_refl | now destruct l].
  - destruct l as [|c t]; [discriminate|].
    destruct (Ascii.eqb a c) eqn:E; [|discriminate].
    apply Ascii.eqb_eq in E. subst c.
    destruct (IH t H) as (l' & Hk & Hincl & Hp).
    exists l'. split; [exact Hk|]. split; [now apply incl_tl|].
    cbn [string_of_list_ascii String.prefix].
    destruct (ascii_dec a a); [exact Hp | contradiction].
Qed.

Lemma star_Some (p : ascii -> bool) (l : list ascii)
  (k : list ascii -> option R) (r : R) :
  star p l k = Some r -> exists l', k l' = Some r /\ incl l' l.
Proof.
  induction l as [|c t IH]; cbn [star]; intros H.
  - exists []. split; [exact H | apply incl_refl].
  - destruct (p c).
    + destruct (star p t k) as [r'|] eqn:E.
      * injection H as ->. destruct (IH eq_refl) as (l' & Hk & Hincl).
        exists l'. split; [exact Hk | now apply incl_tl].
      * exists (c :: t). split; [exact H | apply incl_refl].
    + exists (c :: t). split; [exact H | apply incl_refl].
Qed.

Lemma optional_Some (p : ascii -> bool) (l : list ascii)
  (k : list ascii -> option R) (r : R) :
  optional p l k = Some r -> exists l', k l' = Some r /\ incl l' l.
Proof.
  destruct l as [|c t]; cbn [optional]; intros H.
  - exists []. split; [exact H | apply incl_refl].
  - destruct (p c).
    + destruct (k t) as [r'|] eqn:E.
      * injection H as ->. exists t. split; [exact E | apply incl_tl, incl_refl].
      * exists (c :: t). split; [exact H | apply incl_refl].
    + exists (c :: t). split; [exact H | apply incl_refl].
Qed.

Lemma star_group_Some (p : ascii -> bool) (l group : list ascii)
  (k : list ascii -> list ascii -> option R) (r : R) :
  star_group p l group k = Some r ->
  exists g rest,
    k (rev group ++ g) rest = Some r
    /\ Forall (fun c => p c = true) g /\ incl g l.
Proof.
  revert group. induction l as [|c t IH]; intros group; cbn [star_group]; intros H.
  - exists [], []. rewrite app_nil_r. split; [exact H|]. split; [constructor | apply incl_refl].
  - destruct (p c) eqn:Ep.
    + destruct (star_group p t (c :: group) k) as [r'|] eqn:E.
      * injection H as ->. destruct (IH _ E) as (g & rest & Hk & Hall & Hincl).
        exists (c :: g), rest. cbn [rev] in Hk. rewrite <- app_assoc in Hk.
        split; [exact Hk|]. split; [now constructor|].
        apply incl_cons; [now left | now apply incl_tl].
      * exists [], (c :: t). rewrite app_nil_r. split; [exact H|].
        split; [constructor | apply incl_nil_l].
    + exists [], (c :: t). rewrite app_nil_r. split; [exact H|].
      split; [constructor | apply incl_nil_l].
Qed.

Lemma plus_group_Some (p : ascii -> bool) (l : list ascii)
  (k : list ascii -> list ascii -> option R) (r : R) :
  plus_group p l k = Some r ->
  exists g rest,
    k g rest = Some r /\ g <> []
    /\ Forall (fun c => p c = true) g /\ incl g l.
Proof.
  destruct l as [|c t]; cbn [plus_group]; [discriminate|].
  destruct (p c) eqn:Ep; [|discriminate]. intros H.
  destruct (star_group_Some p t [c] k r H) as (g & rest & Hk & Hall & Hincl).
  exists (c :: g), rest. split; [exact Hk|]. split; [discriminate|].
  split; [now constructor|].
  apply incl_cons; [now left | now apply incl_tl].
Qed.

End Pattern.

Section LineNameFacts.
Import LineName.

Lemma match_here_Some (l group : list ascii) :
  match_here l = Some group ->
  group <> [] /\ Forall (fun c => is_space c = false) group /\ incl group l
  /\ String.prefix "LINE" (string_of_list_ascii l) = true.
Proof.
  unfold match_here. intros H.
  apply literal_Some in H. destruct H as (l1 & H & I1 & Hp).
  apply star_Some in H. destruct H as (l2 & H & I2).
  apply optional_Some in H. destruct H as (l3 & H & I3).
  apply star_Some in H. destruct H as (l4 & H & I4).
  apply plus_group_Some in H. destruct H as (g & rest & [= <-] & Hne & Hall & I5).
  split; [exact Hne|]. split.
  - eapply Forall_impl; [exact Hall|]. intros c Hc. now apply negb_true_iff.
  - split; [|exact Hp].
    eapply incl_tran; [exact I5|]. eapply incl_tran; [exact I4|].
    eapply incl_tran; [exact I3|]. eapply incl_tran; [exact I2|]. exact I1.
Qed.

Lemma search_Some (l group : list ascii) :
  search l = Some group ->
  group <> [] /\ Forall (fun c => is_space c = false) group /\ incl group l
  /\ contains "LINE" (string_of_list_ascii l) = true.
Proof.
  induction l as [|c t IH]; cbn [search]; intros H.
  - destruct (match_here []) as [g|] eqn:E; [|discriminate]. injection H as ->.
    apply match_here_Some in E. destruct E as (_ & _ & _ & Hp).
    cbn in Hp. discriminate Hp.
  - destruct (match_here (c :: t)) as [g|] eqn:E.
    + injection H as ->. apply match_here_Some in E. destruct E as (? & ? & ? & Hp).
      repeat (split; [assumption|]). cbn [string_of_list_ascii contains].
      cbn [string_of_list_ascii] in Hp. now rewrite Hp.
    + destruct (IH H) as (Hne & Hall & Hincl & Hc).
      split; [exact Hne|]. split; [exact Hall|]. split; [now apply incl_tl|].
      cbn [string_of_list_ascii contains]. rewrite Hc.
      now destruct (String.prefix "LINE" _).
Qed.

Lemma upper_chars (s : string) (c : ascii) :
  In c (list_ascii_of_string (upper s)) -> upper_ascii c = c.
Proof.
  induction s as [|a t IH]; cbn [upper list_ascii_of_string In]; [tauto|].
  intros [<-|H]; [apply upper_upper_ascii | now apply IH].
Qed.

Lemma first_match_token (lines : list string) :
  first_match lines = "N/A"
  \/ (first_match lines <> EmptyString
      /\ Forall (fun c => is_space c = false /\ upper_ascii c = c)
           (list_ascii_of_string (first_match lines))).
Proof.
  induction lines as [|line rest IH]; [now left|].
  cbn [first_match].
  destruct (search (list_ascii_of_string (upper line))) as [g|] eqn:E; [|exact IH].
  right. apply search_Some in E. destruct E as (Hne & Hall & Hincl & _).
  split.
  - destruct g; [done | discriminate].
  - rewrite list_ascii_of_string_of_list_ascii.
    rewrite List.Forall_forall in *. intros c Hc.
    split; [now apply Hall | apply (upper_chars line), Hincl, Hc].
Qed.

Lemma first_match_without_LINE (lines : list string) :
  (forall line, In line lines -> contains "LINE" (upper line) = false) ->
  first_match lines = "N/A".
Proof.
  induction lines as [|line rest IH]; intros H; [reflexivity|].
  cbn [first_match].
  destruct (search (list_ascii_of_string (upper line))) as [g|] eqn:E.
  - apply search_Some in E. destruct E as (_ & _ & _ & Hc).
    rewrite string_of_list_ascii_of_string in Hc.
    rewrite (H line) in Hc by now left. discriminate.
  - apply IH. intros l Hl. apply H. now right.
Qed.

End LineNameFacts.

(** X28.  The line name is N/A or a non-empty text in upper case with no
    white space in it.  It is N/A when no line of the text header holds the
    word LINE, whatever the case of its letters, and when the text header
    cannot be read. *)
Theorem line_name_is_a_token (text_header : result string) :
  let name := LineName._extract_line_name text_header in
  (name = "N/A"
   \/ (name <> EmptyString
       /\ Forall (fun c => is_space c = false /\ upper_ascii c = c)
            (list_ascii_of_string name)))
  /\ (forall text,
        text_header = Ok text ->
        (forall line, In line (LineName.splitlines text) ->
                      contains "LINE" (upper line) = false) ->
        name = "N/A")
  /\ (forall e, text_header = Raise e -> name = "N/A").
Proof.
  intros name. unfold name, LineName._extract_line_name.
  destruct text_header as [text|e].
  - split; [apply first_match_token|]. split; [|discriminate].
    intros t [= <-]. apply first_match_without_LINE.
  - split; [now left|]. split; [discriminate | reflexivity].
Qed.
